(** * The PLATYPUS time-of-flight reflectometer simulator

    A shallow embedding of [platypus-simulate/tof_simulator.py]: the
    empirical wavelength distribution [SpectrumDist] and the Monte Carlo
    engine [ReflectSimulator], followed by the properties established for
    them.

    Conventions of the embedding.
    - A Python float is a rational [Q]; rounding, infinities and NaN are not
      represented.  A count held in a float array is an integer [Z] (exact
      for counts below 2^53).
    - A call that may raise returns a [result]; an exception aborts the
      enclosing call before any later statement runs.
    - numpy, scipy and refnx are collaborators.  The numpy routines whose
      behaviour the simulator relies on (histogram, digitize, interp,
      linspace, boolean masks) are written out in module [np]; the rest
      (random generators, splines, slit geometry, the reflectivity model)
      are fields of the class [Collaborators]. *)

From Stdlib Require Import QArith Qabs Qminmax Lqa ZArith Lia String.
From stdpp Require Import base option list gmap sorting.

Local Open Scope Q_scope.

(** ** Exceptions *)

Inductive exn : Type :=
| ValueError (msg : string)
| OSError (msg : string).

Inductive result (A : Type) : Type :=
| Ok (a : A)
| Raise (e : exn).
Arguments Ok {A} a.
Arguments Raise {A} e.

#[global] Instance result_ret : MRet result := fun _ a => Ok a.
#[global] Instance result_bind : MBind result :=
  fun _ _ k r => match r with Ok a => k a | Raise e => Raise e end.

Definition raised {A} (r : result A) : Prop :=
  match r with Ok _ => False | Raise _ => True end.

Definition returned {A} (r : result A) : Prop :=
  match r with Ok _ => True | Raise _ => False end.

(** ** Comparisons on floats *)

Definition Qltb (x y : Q) : bool :=
  match x ?= y with Lt => true | _ => false end.

(** The quotient of two numpy floats where the divisor may be zero: [None]
    is the NaN or the infinity that numpy then returns, with a warning and
    without raising. *)
Definition float_div (x y : Q) : option Q :=
  if Qeq_bool y 0 then None else Some (x / y).

(** ** The numpy routines used by the simulator *)

Module np.

(** [a[m]] for a boolean mask [m] of the same length as [a]. *)
Fixpoint mask {A} (a : list A) (m : list bool) : list A :=
  match a, m with
  | x :: a', b :: m' => if b then x :: mask a' m' else mask a' m'
  | _, _ => []
  end.

(** Number of elements of [a] satisfying [p]. *)
Fixpoint count {A} (p : A -> bool) (a : list A) : Z :=
  match a with
  | [] => 0%Z
  | x :: a' => ((if p x then 1 else 0) + count p a')%Z
  end.

(** [np.sort(a).searchsorted(v, 'left')]: how many elements lie strictly
    below [v]. *)
Definition searchsorted_left (a : list Q) (v : Q) : Z :=
  count (fun x => Qltb x v) a.

(** [np.sort(a).searchsorted(v, 'right')]: how many elements are at most
    [v]. *)
Definition searchsorted_right (a : list Q) (v : Q) : Z :=
  count (fun x => Qle_bool x v) a.

(** [not np.any(bins[:-1] > bins[1:])] *)
Fixpoint monotonic (bins : list Q) : bool :=
  match bins with
  | e0 :: ((e1 :: _) as rest) => Qle_bool e0 e1 && monotonic rest
  | _ => true
  end.

(** The cumulative histogram: left-inclusive search for every edge but the
    last, right-inclusive search for the last one, so that the last bin is
    closed on both sides. *)
Fixpoint cum_n (a : list Q) (bins : list Q) : list Z :=
  match bins with
  | [] => []
  | [e] => [searchsorted_right a e]
  | e :: rest => searchsorted_left a e :: cum_n a rest
  end.

(** [np.diff] *)
Fixpoint diff (c : list Z) : list Z :=
  match c with
  | c0 :: ((c1 :: _) as rest) => (c1 - c0)%Z :: diff rest
  | _ => []
  end.

(** [np.histogram(a, bins)[0]] for an explicit array of bin edges. *)
Definition histogram (a : list Q) (bins : list Q) : result (list Z) :=
  if monotonic bins then Ok (diff (cum_n a bins))
  else Raise (ValueError "`bins` must increase monotonically, when an array").

(** [np.digitize(x, bins)] for increasing [bins]: the index [i] with
    [bins[i-1] <= x < bins[i]], found by a right-sided search.  The
    simulator calls it only after [histogram] accepted the same edges. *)
Definition digitize (x : Q) (bins : list Q) : nat :=
  Z.to_nat (count (fun e => Qle_bool e x) bins).

(** [np.zeros(n)] holding counts. *)
Definition zeros (n : Z) : result (list Z) :=
  if (n <? 0)%Z then Raise (ValueError "negative dimensions are not allowed")
  else Ok (replicate (Z.to_nat n) 0%Z).

(** [np.min] and [np.max] of a one-dimensional array. *)
Definition min (x : list Q) : result Q :=
  match x with
  | [] => Raise (ValueError "zero-size array to reduction operation minimum which has no identity")
  | x0 :: x' => Ok (foldl Qmin x0 x')
  end.

Definition max (x : list Q) : result Q :=
  match x with
  | [] => Raise (ValueError "zero-size array to reduction operation maximum which has no identity")
  | x0 :: x' => Ok (foldl Qmax x0 x')
  end.

(** [np.min] of a list of Python lengths; only called on a non-empty
    list. *)
Definition min_len (ls : list N) : N :=
  match ls with
  | [] => 0%N
  | l0 :: ls' => foldl N.min l0 ls'
  end.

(** [np.linspace(start, stop, num)]: [arange(num) * step + start] with the
    last point overwritten by [stop]. *)
Definition linspace (start stop : Q) (num : nat) : list Q :=
  let step := (stop - start) / inject_Z (Z.of_nat (num - 1)) in
  match num with
  | O => []
  | S O => [start]
  | S n =>
      ((fun i : nat => inject_Z (Z.of_nat i) * step + start) <$> seq 0 n)
        ++ [stop]
  end.

(** [np.interp(x, xp, fp)] for increasing [xp].  Below [xp[0]] the result
    is [fp[0]]; otherwise the last index [j] with [xp[j] <= x] is located
    and the result is [fp[j]] at the end of the table or on a grid point,
    and [slope * (x - xp[j]) + fp[j]] in between.  numpy locates [j] by
    bisection, which agrees with the scan below on an increasing table. *)
Fixpoint interp_search (x x0 f0 : Q) (xp fp : list Q) : Q :=
  match xp, fp with
  | x1 :: xp', f1 :: fp' =>
      if Qle_bool x1 x then interp_search x x1 f1 xp' fp'
      else if Qeq_bool x0 x then f0
      else (f1 - f0) / (x1 - x0) * (x - x0) + f0
  | _, _ => f0
  end.

Definition interp (x : Q) (xp fp : list Q) : Q :=
  match xp, fp with
  | x0 :: xp', f0 :: fp' =>
      if Qltb x x0 then f0 else interp_search x x0 f0 xp' fp'
  | _, _ => 0
  end.

#[global] Arguments linspace : simpl never.

End np.

(** ** Collaborators *)

(** A fitted [InterpolatedUnivariateSpline]: evaluation [spl(x)] and
    [spl.integral(lo, hi)], which vanishes over an empty interval. *)
Record Spline : Type := {
  spl_call : Q -> Q;
  spl_integral : Q -> Q -> Q;
  spl_integral_empty : forall lo, spl_integral lo lo == 0
}.

(** A [refnx.reflect.ReflectModel]: [model(q, x_err=0.)] acts pointwise on
    the array of momentum transfers; [model.bkg.value] is read once. *)
Record ReflectModel : Type := {
  model_call : Q -> Q;
  model_bkg_value : Q
}.

(** Everything the simulator imports and does not define. *)
Class Collaborators : Type := {
  (** [np.random.RandomState]: a generator state, the constructor from an
      integer seed, and the two primitive draws with the state they leave
      behind. [random_sample] is uniform on the half-open unit interval. *)
  RandomState : Type;
  RandomState_seed : Z -> RandomState;
  random_sample : RandomState -> nat -> list Q * RandomState;
  standard_normal : RandomState -> nat -> list Q * RandomState;
  random_sample_length : forall g n, length (random_sample g n).1 = n;
  random_sample_range :
    forall g n u, u ∈ (random_sample g n).1 -> 0 <= u /\ u < 1;
  standard_normal_length : forall g n, length (standard_normal g n).1 = n;
  (** numpy and scipy numerics *)
  np_sqrt : Q -> Q;
  float32 : Q -> Q;
  simps : list Q -> list Q -> Q;
  IUS : list Q -> list Q -> result Spline;
  (** a cubic spline needs more points than its degree: FITPACK refuses a
      table of fewer than four *)
  IUS_points : forall x y spl, IUS x y = Ok spl -> (4 <= length x)%nat;
  trapz_ppf : Q -> Q -> Q -> Q;
  (** refnx *)
  general_q : Q -> Q -> Q;
  general_slit_optimiser : Q -> Q -> Q -> Q -> Q -> result (Q * Q);
  general_div : Q -> Q -> Q -> result (Q * Q * Q);
  calculate_wavelength_bins : Q -> Q -> Q -> result (list Q);
  PN_process : string -> Q -> Q -> Q -> result (list Q * list Q * list Q);
  ErrorProp_EPdiv :
    list Q -> list Q -> list Q -> list Q -> list Q * list Q
}.

(** The [random_state] argument of a sampling call. *)
Inductive random_state_arg `{Collaborators} : Type :=
| rs_None
| rs_int (seed : Z)
| rs_instance (g : RandomState).

Section random.
Context `{Collaborators}.

(** [scipy._lib._util.check_random_state]; [singleton] is the state of
    the process-wide generator [np.random.mtrand._rand]. *)
Definition check_random_state (singleton : RandomState)
    (seed : random_state_arg) : RandomState :=
  match seed with
  | rs_None => singleton
  | rs_int s => RandomState_seed s
  | rs_instance g => g
  end.

(** [rng.uniform(low, high, size)] *)
Definition rng_uniform (rng : RandomState) (low high : Q) (size : nat)
    : list Q * RandomState :=
  let '(u, rng) := random_sample rng size in
  ((fun v => low + (high - low) * v) <$> u, rng).
End random.

(** ** SpectrumDist *)

Module SpectrumDist.

Record t : Type := {
  a : Q;
  b : Q;
  _x : list Q;
  _y : list Q;
  spl : Spline;
  fudge_factor : Q;
  _x_interpolated_cdf : list Q;
  _interpolated_cdf : list Q
}.

Definition _pdf (self : t) (x : Q) : Q :=
  spl_call (spl self) x / fudge_factor self.

Definition _cdf (self : t) (x : Q) : Q :=
  spl_integral (spl self) (a self) x / fudge_factor self.

(** The inherited [rv_continuous.cdf]: one at and above the upper support
    bound, [_cdf] strictly inside the support, zero elsewhere. *)
Definition cdf (self : t) (x : Q) : Q :=
  if Qle_bool (b self) x then 1
  else if Qltb (a self) x then _cdf self x
  else 0.

Definition _f (self : t) (x qq : Q) : Q := _cdf self x - qq.

Definition _ppf (self : t) (q : Q) : Q :=
  np.interp q (_interpolated_cdf self) (_x_interpolated_cdf self).

Section methods.
Context `{Collaborators}.

Definition __init__ (x y : list Q) : result t :=
  a ← np.min x;
  b ← np.max x;
  let area := simps y x in
  let y := (fun v => v / area) <$> y in
  spl ← IUS x y;
  let fudge_factor := spl_integral spl a b in
  lo ← np.min x;
  hi ← np.max x;
  let grid := np.linspace lo hi 1000 in
  let self :=
    {| a := a; b := b; _x := x; _y := y; spl := spl;
       fudge_factor := fudge_factor;
       _x_interpolated_cdf := grid; _interpolated_cdf := [] |} in
  Ok {| a := a; b := b; _x := x; _y := y; spl := spl;
        fudge_factor := fudge_factor;
        _x_interpolated_cdf := grid;
        _interpolated_cdf := cdf self <$> grid |}.

(** The inherited [rvs]: uniform variates pushed through [_ppf], with
    the default location 0 and scale 1. *)
Definition rvs (self : t) (size : nat) (rng : RandomState)
    : list Q * RandomState :=
  let '(U, rng) := random_sample rng size in
  ((fun u => _ppf self u * 1 + 0) <$> U, rng).
End methods.

End SpectrumDist.

(** ** Frozen scipy distributions *)

(** [norm(scale=...)] and [trapz(c, d, loc=..., scale=...)].  A shape
    parameter of the trapezoid is [None] when it is not a finite number. *)
Inductive angular_distribution : Type :=
| norm (scale : Q)
| trapz (c d : option Q) (loc scale : Q).

Inductive wavelength_distribution : Type :=
| uniform (loc scale : Q)
| spectrum (sd : SpectrumDist.t).

Section distributions.
Context `{Collaborators}.

(** The [ValueError] with which [rv_generic.rvs] refuses its arguments
    before it draws anything. *)
Definition domain_error : exn := ValueError "Domain error in arguments.".

(** [trapz._argcheck(c, d)]; a comparison with a NaN is false. *)
Definition trapz_argcheck (c d : option Q) : bool :=
  match c, d with
  | Some c, Some d =>
      Qle_bool 0 c && Qle_bool c 1 && Qle_bool 0 d && Qle_bool d 1
      && Qle_bool c d
  | _, _ => false
  end.

(** [_argcheck] of the shape parameters and [scale >= 0], the condition under
    which [rvs] goes on; [norm], [uniform] and [SpectrumDist] have no shape
    parameter to check, and [SpectrumDist.rvs] is called with the default
    scale of one. *)
Definition angular_argcheck (dist : angular_distribution) : bool :=
  match dist with
  | norm scale => Qle_bool 0 scale
  | trapz c d loc scale => trapz_argcheck c d && Qle_bool 0 scale
  end.

Definition wavelength_argcheck (dist : wavelength_distribution) : bool :=
  match dist with
  | uniform loc scale => Qle_bool 0 scale
  | spectrum sd => true
  end.

(** [rv_generic.rvs(size, random_state=rng)] of a frozen distribution: the
    arguments are checked first; a scale of zero gives [loc * ones(size)]
    without a draw; otherwise the variates of [_rvs] are scaled and
    shifted. *)
Definition angular_rvs (dist : angular_distribution) (size : nat)
    (rng : RandomState) : result (list Q * RandomState) :=
  match dist with
  | norm scale =>
      if negb (angular_argcheck dist) then Raise domain_error
      else if Qeq_bool scale 0 then Ok (replicate size (0 * 1), rng)
      else
        let '(z, rng) := standard_normal rng size in
        Ok ((fun v => v * scale + 0) <$> z, rng)
  | trapz (Some c) (Some d) loc scale =>
      if negb (angular_argcheck dist) then Raise domain_error
      else if Qeq_bool scale 0 then Ok (replicate size (loc * 1), rng)
      else
        let '(U, rng) := random_sample rng size in
        Ok ((fun u => trapz_ppf u c d * scale + loc) <$> U, rng)
  | trapz _ _ _ _ => Raise domain_error
  end.

Definition wavelength_rvs (dist : wavelength_distribution) (size : nat)
    (rng : RandomState) : result (list Q * RandomState) :=
  match dist with
  | uniform loc scale =>
      if negb (wavelength_argcheck dist) then Raise domain_error
      else if Qeq_bool scale 0 then Ok (replicate size (loc * 1), rng)
      else
        let '(u, rng) := rng_uniform rng 0 1 size in
        Ok ((fun v => v * scale + loc) <$> u, rng)
  | spectrum sd => Ok (SpectrumDist.rvs sd size rng)
  end.

(** The interval on which a frozen [uniform(loc, scale)] puts its mass. *)
Definition support (dist : wavelength_distribution) : Q * Q :=
  match dist with
  | uniform loc scale => (loc, loc + scale)
  | spectrum sd => (SpectrumDist.a sd, SpectrumDist.b sd)
  end.
End distributions.

(** ** The dataset container *)

Module ReflectDataset.

Record t : Type := {
  x : list Q;
  y : list Q;
  y_err : list Q;
  x_err : list Q
}.

Section methods.
Context `{Collaborators}.

(** [Data1D.synthesise]: Gaussian noise scaled by the uncertainties is
    added to the ordinate; the other three columns are kept. *)
Definition synthesise (self : t) (rng : RandomState)
    : t * RandomState :=
  let '(gnoise, rng) := standard_normal rng (length (y self)) in
  ({| x := x self;
      y := zip_with (fun v ge => v + ge)
             (y self) (zip_with Qmult gnoise (y_err self));
      y_err := y_err self;
      x_err := x_err self |}, rng).
End methods.

End ReflectDataset.

(** ** ReflectSimulator *)

Module ReflectSimulator.

(** The arguments of the constructor. *)
Record args : Type := {
  arg_model : ReflectModel;
  arg_angle : Q;
  L12 : Q;
  arg_footprint : Q;
  L2S : Q;
  arg_dtheta : Q;
  lo_wavelength : Q;
  hi_wavelength : Q;
  arg_dlambda : Q;
  arg_rebin : Q;
  arg_force_gaussian : bool;
  arg_force_uniform_wavelength : bool
}.

(** The defaults of the signature. *)
Definition defaults (model : ReflectModel) (angle : Q) : args :=
  {| arg_model := model; arg_angle := angle;
     L12 := 2859; arg_footprint := 60; L2S := 120; arg_dtheta := 3.3;
     lo_wavelength := 2.8; hi_wavelength := 18;
     arg_dlambda := 3.3; arg_rebin := 2;
     arg_force_gaussian := false;
     arg_force_uniform_wavelength := false |}.

(** The attributes of an instance. *)
Record t : Type := {
  model : ReflectModel;
  bkg : Q;
  angle : Q;
  dlambda : Q;
  rebin : Q;
  wavelength_bins : list Q;
  q : list Q;
  direct_beam : list Z;
  reflected_beam : list Z;
  force_uniform_wavelength : bool;
  spectrum_dist : wavelength_distribution;
  force_gaussian : bool;
  _res_kernel : gmap nat (list Q);
  _min_samples : Z;
  dtheta : Q;
  footprint : Q;
  angular_dist : angular_distribution
}.

Definition set_direct_beam (self : t) (v : list Z) : t :=
  {| model := model self; bkg := bkg self; angle := angle self;
     dlambda := dlambda self; rebin := rebin self;
     wavelength_bins := wavelength_bins self; q := q self;
     direct_beam := v; reflected_beam := reflected_beam self;
     force_uniform_wavelength := force_uniform_wavelength self;
     spectrum_dist := spectrum_dist self;
     force_gaussian := force_gaussian self;
     _res_kernel := _res_kernel self; _min_samples := _min_samples self;
     dtheta := dtheta self; footprint := footprint self;
     angular_dist := angular_dist self |}.

Definition set_reflected_beam (self : t) (v : list Z) : t :=
  {| model := model self; bkg := bkg self; angle := angle self;
     dlambda := dlambda self; rebin := rebin self;
     wavelength_bins := wavelength_bins self; q := q self;
     direct_beam := direct_beam self; reflected_beam := v;
     force_uniform_wavelength := force_uniform_wavelength self;
     spectrum_dist := spectrum_dist self;
     force_gaussian := force_gaussian self;
     _res_kernel := _res_kernel self; _min_samples := _min_samples self;
     dtheta := dtheta self; footprint := footprint self;
     angular_dist := angular_dist self |}.

Definition set_res_kernel (self : t) (v : gmap nat (list Q)) : t :=
  {| model := model self; bkg := bkg self; angle := angle self;
     dlambda := dlambda self; rebin := rebin self;
     wavelength_bins := wavelength_bins self; q := q self;
     direct_beam := direct_beam self;
     reflected_beam := reflected_beam self;
     force_uniform_wavelength := force_uniform_wavelength self;
     spectrum_dist := spectrum_dist self;
     force_gaussian := force_gaussian self;
     _res_kernel := v; _min_samples := _min_samples self;
     dtheta := dtheta self; footprint := footprint self;
     angular_dist := angular_dist self |}.

(** What one call of [run] draws and derives before it touches the
    accumulators; the fields are the local variables of [run]. *)
Record batch `{Collaborators} : Type := {
  angles : list Q;
  wavelengths : list Q;
  batch_q : list Q;
  r : list Q;
  criterion : list Q;
  accepted : list bool;
  noise : list Q;
  jittered_wavelengths : list Q;
  rng_after : RandomState
}.

(** The sample cap of the resolution kernel. *)
Definition cap : N := 500000%N.

(** [len(self._res_kernel) and
     np.min([len(v) for v in self._res_kernel.values()]) > 500000] *)
Definition kernel_full (kernel : gmap nat (list Q)) : bool :=
  negb (size kernel =? 0)%nat
  && (cap <? np.min_len
               ((fun v : list Q => N.of_nat (length v))
                  <$> (map_to_list kernel).*2))%N.

(** An instance with its accumulators emptied: what the constructor
    arguments alone determine. *)
Definition configuration (self : t) : t :=
  set_res_kernel (set_reflected_beam (set_direct_beam self []) []) ∅.

Definition same_configuration (s1 s2 : t) : Prop :=
  configuration s1 = configuration s2.

Section methods.
Context `{Collaborators}.

Definition __init__ (p : args) : result t :=
  let model := arg_model p in
  let bkg := model_bkg_value model in
  let angle := arg_angle p in
  let dlambda := arg_dlambda p / 100 in
  let rebin := arg_rebin p / 100 in
  wavelength_bins ←
    calculate_wavelength_bins
      (lo_wavelength p) (hi_wavelength p) (arg_rebin p);
  let bin_centre :=
    zip_with (fun hi lo => 0.5 * (hi + lo))
      (tail wavelength_bins) (removelast wavelength_bins) in
  let q := general_q angle <$> bin_centre in
  direct_beam ← np.zeros (Z.of_nat (length wavelength_bins) - 1);
  reflected_beam ← np.zeros (Z.of_nat (length wavelength_bins) - 1);
  spectrum_dist ←
    (if arg_force_uniform_wavelength p then
       Ok (uniform (lo_wavelength p - 1)
             (hi_wavelength p - lo_wavelength p + 1))
     else
       '(q, i, di) ←
         PN_process "PLP0000711.nx.hdf" 0.5
           (Qmax 0 (lo_wavelength p - 1)) (hi_wavelength p + 1);
       sd ← SpectrumDist.__init__ q i;
       Ok (spectrum sd));
  let dtheta := arg_dtheta p / 100 in
  '(s1, s2) ←
    general_slit_optimiser
      (arg_footprint p) dtheta angle (L2S p) (L12 p);
  '(div, alpha, beta) ← general_div s1 s2 (L12 p);
  let angular_dist :=
    if arg_force_gaussian p then norm (div / 2.3548)
    else trapz (float_div ((alpha - beta) / 2) alpha)
               (float_div ((alpha + beta) / 2) alpha)
               (- alpha)
               (2 * alpha) in
  Ok {| model := model; bkg := bkg; angle := angle;
        dlambda := dlambda; rebin := rebin;
        wavelength_bins := wavelength_bins; q := q;
        direct_beam := direct_beam; reflected_beam := reflected_beam;
        force_uniform_wavelength := arg_force_uniform_wavelength p;
        spectrum_dist := spectrum_dist;
        force_gaussian := arg_force_gaussian p;
        _res_kernel := ∅; _min_samples := 0;
        dtheta := dtheta; footprint := arg_footprint p;
        angular_dist := angular_dist |}.

(** The first half of [run]: everything up to and including the
    wavelength jitter.  It raises when one of the two [rvs] calls refuses
    the parameters of its distribution. *)
Definition sample (self : t) (samples : nat) (rng : RandomState)
    : result batch :=
  '(a0, rng) ← angular_rvs (angular_dist self) samples rng;
  let angles := (fun v => v + angle self) <$> a0 in
  '(wavelengths, rng) ← wavelength_rvs (spectrum_dist self) samples rng;
  let q := zip_with general_q angles wavelengths in
  let r := model_call (model self) <$> q in
  let '(criterion, rng) := rng_uniform rng 0 1 samples in
  let accepted := zip_with Qltb criterion r in
  if force_gaussian self then
    let '(noise, rng) := standard_normal rng samples in
    Ok {| angles := angles; wavelengths := wavelengths; batch_q := q;
          r := r; criterion := criterion; accepted := accepted;
          noise := noise;
          jittered_wavelengths :=
            zip_with (fun w g => w * (1 + dlambda self / 2.3548 * g))
              wavelengths noise;
          rng_after := rng |}
  else
    let '(noise, rng) := rng_uniform rng (-0.5) 0.5 samples in
    Ok {| angles := angles; wavelengths := wavelengths; batch_q := q;
          r := r; criterion := criterion; accepted := accepted;
          noise := noise;
          jittered_wavelengths :=
            zip_with (fun w u => w * (1 + dlambda self / 0.68 * u))
              wavelengths noise;
          rng_after := rng |}.

(** The loop over [range(1, len(self.wavelength_bins))] that appends
    the momentum transfers of each wavelength bin to its store. *)
Definition update_kernel (bins : list Q) (bin_loc : list nat)
    (q : list Q) (kernel : gmap nat (list Q)) : gmap nat (list Q) :=
  foldl
    (fun kernel i =>
       let q_for_bin := np.mask q ((fun l => l =? i)%nat <$> bin_loc) in
       let q_samples_so_far := default [] (kernel !! (i - 1)%nat) in
       let updated_samples := q_samples_so_far ++ q_for_bin in
       <[(i - 1)%nat := float32 <$> updated_samples]> kernel)
    kernel (seq 1 (length bins - 1)).

(** [run(samples, random_state)].  The result pairs the simulator after
    the call with the state in which the call leaves the generator it
    drew from. *)
Definition run (self : t) (samples : nat) (random_state : random_state_arg)
    (singleton : RandomState) : result (t * RandomState) :=
  let rng := check_random_state singleton random_state in
  bm ← sample self samples rng;
  hist ← np.histogram (jittered_wavelengths bm) (wavelength_bins self);
  let self :=
    set_direct_beam self (zip_with Z.add (direct_beam self) hist) in
  hist ←
    np.histogram (np.mask (jittered_wavelengths bm) (accepted bm))
      (wavelength_bins self);
  let self :=
    set_reflected_beam self
      (zip_with Z.add (reflected_beam self) hist) in
  if kernel_full (_res_kernel self) then Ok (self, rng_after bm)
  else
    let bin_loc :=
      (fun w => np.digitize w (wavelength_bins self))
        <$> jittered_wavelengths bm in
    Ok (set_res_kernel self
          (update_kernel (wavelength_bins self) bin_loc (batch_q bm)
             (_res_kernel self)),
        rng_after bm).

(** The [reflectivity] property; [rng] is the process-wide generator
    that [synthesise] draws from. *)
Definition reflectivity (self : t) (rng : RandomState)
    : ReflectDataset.t * RandomState :=
  let rerr := (fun n => np_sqrt (inject_Z n)) <$> reflected_beam self in
  let ierr := (fun n => np_sqrt (inject_Z n)) <$> direct_beam self in
  let dx :=
    np_sqrt (dlambda self ^ 2 + dtheta self ^ 2
             + (0.68 * rebin self) ^ 2) in
  let '(ref, rerr) :=
    ErrorProp_EPdiv (inject_Z <$> reflected_beam self) rerr
      (inject_Z <$> direct_beam self) ierr in
  let dataset :=
    {| ReflectDataset.x := q self;
       ReflectDataset.y := ref;
       ReflectDataset.y_err := rerr;
       ReflectDataset.x_err := (fun v => dx * v) <$> q self |} in
  ReflectDataset.synthesise dataset rng.

(** One call as a client issues it. *)
Record call : Type := {
  call_samples : nat;
  call_random_state : random_state_arg
}.

(** A client issuing calls one after the other.  A call that raises
    leaves the accumulators as they were; a call without an explicit
    generator advances the process-wide one. *)
Fixpoint runs (self : t) (singleton : RandomState) (calls : list call)
    : t * RandomState :=
  match calls with
  | [] => (self, singleton)
  | c :: calls' =>
      match run self (call_samples c) (call_random_state c) singleton with
      | Ok (self', rng') =>
          runs self'
            (match call_random_state c with
             | rs_None => rng'
             | _ => singleton
             end)
            calls'
      | Raise _ => runs self singleton calls'
      end
  end.
End methods.

End ReflectSimulator.

(** ** A scripted set of collaborators

    Concrete collaborators on which the simulator can be executed: a random
    generator that plays back a script of draws, and rational stand-ins for
    the numerical routines. *)

Module Scripted.

(** *** The generator

    A state is the script of the draws still to come, each a number of
    sixteenths; once the script is exhausted every draw is [8]. *)
Definition play (g : list nat) (n : nat) : list nat * list nat :=
  (take n (g ++ replicate (n - length g) 8%nat), drop n g).

Definition unit_of (k : nat) : Q :=
  inject_Z (Z.of_nat k mod 16) / 16.

Definition normal_of (k : nat) : Q :=
  (inject_Z (Z.of_nat k mod 16) - 8) / 4.

Definition seed_script (s : Z) : list nat :=
  (fun i => Z.to_nat (Z.abs s) + i)%nat <$> seq 0 32.

Definition random_sample (g : list nat) (n : nat) : list Q * list nat :=
  let '(ks, g) := play g n in (unit_of <$> ks, g).

Definition standard_normal (g : list nat) (n : nat) : list Q * list nat :=
  let '(ks, g) := play g n in (normal_of <$> ks, g).

(** *** Numerics *)

(** The square root to six decimal places. *)
Definition sqrt (v : Q) : Q :=
  Qred (inject_Z (Z.sqrt (Qnum v * Zpos (Qden v) * 10 ^ 12))
        / (inject_Z (Zpos (Qden v)) * 1000000)).

Definition pi : Q := 3.14159265.

Definition radians (deg : Q) : Q := deg * pi / 180.
Definition degrees (rad : Q) : Q := rad * 180 / pi.

(** [scipy.integrate.simps(y, x)]: Simpson panels over consecutive triples
    of points; with an even number of points the mean of the two ways of
    closing the rule with one trapezoid (the default [even='avg']). *)
Fixpoint basic_simps (panels : nat) (x y : list Q) : Q :=
  match panels, x, y with
  | S n, x0 :: x1 :: ((x2 :: _) as x'), y0 :: y1 :: ((y2 :: _) as y') =>
      let h0 := x1 - x0 in
      let h1 := x2 - x1 in
      let hsum := h0 + h1 in
      hsum / 6 * (y0 * (2 - 1 / (h0 / h1))
                  + y1 * hsum * hsum / (h0 * h1)
                  + y2 * (2 - h0 / h1))
      + basic_simps n x' y'
  | _, _, _ => 0
  end.

Definition trapezoid (x0 x1 y0 y1 : Q) : Q :=
  0.5 * (x1 - x0) * (y1 + y0).

Definition simps (y x : list Q) : Q :=
  let N := length y in
  if Nat.even N then
    let last :=
      trapezoid (nth (N - 2) x 0) (nth (N - 1) x 0)
                (nth (N - 2) y 0) (nth (N - 1) y 0) in
    let first := trapezoid (nth 0 x 0) (nth 1 x 0) (nth 0 y 0) (nth 1 y 0) in
    (basic_simps (N / 2 - 1) x y + basic_simps (N / 2 - 1) (tail x) (tail y))
      / 2
    + (last + first) / 2
  else basic_simps (N / 2) x y.

(** The cubic through four points, and its integral by Simpson's rule,
    which is exact for a cubic. *)
Definition cubic (x0 x1 x2 x3 y0 y1 y2 y3 : Q) (t : Q) : Q :=
  y0 * ((t - x1) * (t - x2) * (t - x3))
     / ((x0 - x1) * (x0 - x2) * (x0 - x3))
  + y1 * ((t - x0) * (t - x2) * (t - x3))
       / ((x1 - x0) * (x1 - x2) * (x1 - x3))
  + y2 * ((t - x0) * (t - x1) * (t - x3))
       / ((x2 - x0) * (x2 - x1) * (x2 - x3))
  + y3 * ((t - x0) * (t - x1) * (t - x2))
       / ((x3 - x0) * (x3 - x1) * (x3 - x2)).

Definition integral (p : Q -> Q) (lo hi : Q) : Q :=
  (hi - lo) / 6 * (p lo + 4 * p ((lo + hi) / 2) + p hi).

Definition polynomial_spline (p : Q -> Q) : Spline.
Proof.
  refine {| spl_call := p; spl_integral := integral p |}.
  abstract (intros lo; unfold integral; field).
Defined.

(** [InterpolatedUnivariateSpline(x, y)] on a table of four points, where
    the interpolating cubic spline has no interior knot and is the cubic
    through the points.  Longer tables are outside this stand-in. *)
Definition IUS (x y : list Q) : result Spline :=
  match x, y with
  | [x0; x1; x2; x3], [y0; y1; y2; y3] =>
      if Qltb x0 x1 && Qltb x1 x2 && Qltb x2 x3 then
        Ok (polynomial_spline (cubic x0 x1 x2 x3 y0 y1 y2 y3))
      else Raise (ValueError "x must be strictly increasing")
  | _, _ => Raise (ValueError "stand-in spline: four points expected")
  end.

(** [trapz._ppf(q, c, d)] *)
Definition trapz_ppf (q c d : Q) : Q :=
  let qc := c / (d - c + 1) in
  let qd := (c + 2 * (d - c)) / (d - c + 1) in
  if Qltb q qc then sqrt (q * c * (1 + d - c))
  else if Qle_bool q qd then 0.5 * q * (1 + d - c) + 0.5 * c
  else 1 - sqrt ((1 - q) * (d - c + 1) * (1 - d)).

(** *** refnx *)

(** [general.q(angle, wavelength)] with the sine replaced by its argument,
    the small-angle form. *)
Definition general_q (angle wavelength : Q) : Q :=
  4 * pi / wavelength * radians angle.

(** Equal slits giving the requested resolution; the footprint and the
    sample distance play no part in this stand-in. *)
Definition slit_optimiser (footprint resolution angle L2S L12 : Q)
    : result (Q * Q) :=
  let d1 := Qred (0.70710678 * resolution / 0.68 * radians angle * L12) in
  Ok (d1, d1).

Definition div (d1 d2 L12 : Q) : result (Q * Q * Q) :=
  let divergence := 0.68 * 0.68 * (d1 * d1 + d2 * d2) / L12 / L12 in
  let alpha := (d1 + d2) / 2 / L12 in
  let beta := Qabs (d1 - d2) / 2 / L12 in
  Ok (Qred (degrees (sqrt divergence)),
      Qred (degrees alpha), Qred (degrees beta)).

(** Geometric bin edges from [lo - lowspac/2], the last edge being
    [hi + hispac/2]. *)
Fixpoint edges (fuel : nat) (e frac hil : Q) : list Q :=
  match fuel with
  | O => [hil]
  | S fuel' =>
      if Qltb e hil then e :: edges fuel' (Qred (e * frac)) frac hil
      else [hil]
  end.

Definition calculate_wavelength_bins (lo hi rebin_percent : Q)
    : result (list Q) :=
  let frac := rebin_percent / 100 + 1 in
  let lowl := lo - rebin_percent / 100 * lo / 2 in
  let hil := hi + rebin_percent / 100 * hi / 2 in
  if Qle_bool frac 1 || Qle_bool lowl 0 || Qltb hil lowl then
    Raise (ValueError "cannot convert float NaN to integer")
  else Ok (edges 64 (Qred lowl) frac (Qred hil)).

(** A four point spectrum over the requested range. *)
Definition PN_process (file : string) (rebin_percent lo hi : Q)
    : result (list Q * list Q * list Q) :=
  let h := (hi - lo) / 3 in
  Ok ([lo; lo + h; lo + 2 * h; hi], [1; 3; 3; 1], [1; 1; 1; 1]).

(** [ErrorProp.EPdiv(a, da, b, db)] *)
Definition EPdiv (a da b db : list Q) : list Q * list Q :=
  (zip_with (fun a b => Qred (a / b)) a b,
   zip_with (fun '(a, da) '(b, db) =>
               sqrt ((da / b) ^ 2 + (a * db / (b * b)) ^ 2))
     (zip a da) (zip b db)).

End Scripted.

(** The scripted collaborators as an instance of the interface. *)
#[refine, export] Instance scripted : Collaborators := {|
  RandomState := list nat;
  RandomState_seed := Scripted.seed_script;
  random_sample := Scripted.random_sample;
  standard_normal := Scripted.standard_normal;
  np_sqrt := Scripted.sqrt;
  float32 := fun v => v;
  simps := Scripted.simps;
  IUS := Scripted.IUS;
  trapz_ppf := Scripted.trapz_ppf;
  general_q := Scripted.general_q;
  general_slit_optimiser := Scripted.slit_optimiser;
  general_div := Scripted.div;
  calculate_wavelength_bins := Scripted.calculate_wavelength_bins;
  PN_process := Scripted.PN_process;
  ErrorProp_EPdiv := Scripted.EPdiv
|}.
Proof.
  - abstract
      (intros g n; unfold Scripted.random_sample, Scripted.play; simpl;
       rewrite length_fmap, length_take, length_app, length_replicate; lia).
  - abstract
      (intros g n u; unfold Scripted.random_sample, Scripted.play; simpl;
       intros Hu; apply list_elem_of_fmap in Hu as (k & -> & _);
       unfold Scripted.unit_of;
       pose proof (Z.mod_pos_bound (Z.of_nat k) 16 eq_refl) as Hk;
       unfold Qdiv, Qmult, Qinv, Qle, Qlt; simpl; lia).
  - abstract
      (intros g n; unfold Scripted.standard_normal, Scripted.play; simpl;
       rewrite length_fmap, length_take, length_app, length_replicate; lia).
  - abstract
      (intros x y spl; unfold Scripted.IUS;
       destruct x as [| x0 [| x1 [| x2 [| x3 x']]]]; try discriminate;
       intros _; simpl; lia).
Defined.

(** ** Scenarios on the scripted collaborators *)

Module Scenario.

(** A sample that reflects half of what reaches it, at every momentum
    transfer. *)
Definition half_mirror : ReflectModel :=
  {| model_call := fun _ => 0.5; model_bkg_value := 0 |}.

(** Uniform wavelengths between 1 and 8, no chopper smearing, bins that
    double in width: the edges are 1, 2, 4, 8 and 12. *)
Definition coarse : ReflectSimulator.args :=
  {| ReflectSimulator.arg_model := half_mirror;
     ReflectSimulator.arg_angle := 1;
     ReflectSimulator.L12 := 2859;
     ReflectSimulator.arg_footprint := 60;
     ReflectSimulator.L2S := 120;
     ReflectSimulator.arg_dtheta := 3.3;
     ReflectSimulator.lo_wavelength := 2;
     ReflectSimulator.hi_wavelength := 8;
     ReflectSimulator.arg_dlambda := 0;
     ReflectSimulator.arg_rebin := 100;
     ReflectSimulator.arg_force_gaussian := false;
     ReflectSimulator.arg_force_uniform_wavelength := true |}.

(** A script for one call of five samples: five angular draws, five
    wavelength draws, five acceptance draws, five jitter draws. *)
Definition script5 : @RandomState scripted :=
  [1; 3; 9; 12; 15; 0; 4; 8; 12; 15; 2; 7; 8; 9; 3; 0; 4; 8; 12; 15]%nat.

(** The same instrument with a beam footprint of minus sixty millimetres. *)
Definition negative_footprint : ReflectSimulator.args :=
  {| ReflectSimulator.arg_model := half_mirror;
     ReflectSimulator.arg_angle := 1;
     ReflectSimulator.L12 := 2859;
     ReflectSimulator.arg_footprint := -60;
     ReflectSimulator.L2S := 120;
     ReflectSimulator.arg_dtheta := 3.3;
     ReflectSimulator.lo_wavelength := 2;
     ReflectSimulator.hi_wavelength := 8;
     ReflectSimulator.arg_dlambda := 0;
     ReflectSimulator.arg_rebin := 100;
     ReflectSimulator.arg_force_gaussian := false;
     ReflectSimulator.arg_force_uniform_wavelength := true |}.

(** The same instrument with the sample at an angle of incidence of
    zero. *)
Definition level : ReflectSimulator.args :=
  {| ReflectSimulator.arg_model := half_mirror;
     ReflectSimulator.arg_angle := 0;
     ReflectSimulator.L12 := 2859;
     ReflectSimulator.arg_footprint := 60;
     ReflectSimulator.L2S := 120;
     ReflectSimulator.arg_dtheta := 3.3;
     ReflectSimulator.lo_wavelength := 2;
     ReflectSimulator.hi_wavelength := 8;
     ReflectSimulator.arg_dlambda := 0;
     ReflectSimulator.arg_rebin := 100;
     ReflectSimulator.arg_force_gaussian := false;
     ReflectSimulator.arg_force_uniform_wavelength := true |}.

(** One more sample than the cap of the resolution kernel. *)
Definition flood : nat := N.to_nat 500001.

(** A resolution kernel whose four bins all hold one value more than the
    cap. *)
Definition saturated_kernel : gmap nat (list Q) :=
  <[0%nat := replicate flood 0.14]>
    (<[1%nat := replicate flood 0.07]>
       (<[2%nat := replicate flood 0.03]>
          (<[3%nat := replicate flood 0.02]> ∅))).

(** Three spectrum tables over the wavelengths 0, 1, 2 and 3: a flat one,
    one whose only non-zero intensity is at wavelength 2, and one without
    any intensity. *)
Definition table_wavelengths : list Q := [0; 1; 2; 3].
Definition flat_intensities : list Q := [1; 1; 1; 1].
Definition peaked_intensities : list Q := [0; 0; 1; 0].

(** The process-wide generator with nothing scripted. *)
Definition idle : @RandomState scripted := @nil nat.

(** Five scripted samples, then three from a generator seeded with 7. *)
Definition two_calls : list ReflectSimulator.call :=
  [ {| ReflectSimulator.call_samples := 5;
       ReflectSimulator.call_random_state := rs_instance script5 |};
    {| ReflectSimulator.call_samples := 3;
       ReflectSimulator.call_random_state := rs_int 7 |} ].

End Scenario.

(** ** Vocabulary of the properties *)

(** Among the [N] equally likely draws [0/N], [1/N], ..., [(N-1)/N], the
    number that a sample of reflectivity [rv] accepts. *)
Definition acceptance_count (N : nat) (rv : Q) : Z :=
  np.count
    (fun k : nat => Qltb (inject_Z (Z.of_nat k) / inject_Z (Z.of_nat N)) rv)
    (seq 0 N).

(** Both [rvs] calls of [run] accept the parameters of their
    distribution. *)
Definition rvs_accept (s : ReflectSimulator.t) : bool :=
  angular_argcheck (ReflectSimulator.angular_dist s)
  && wavelength_argcheck (ReflectSimulator.spectrum_dist s).

(** Some geometry argument of the constructor is not positive. *)
Definition nonpositive_geometry (p : ReflectSimulator.args) : Prop :=
  ReflectSimulator.L12 p <= 0 \/ ReflectSimulator.arg_footprint p <= 0
  \/ ReflectSimulator.L2S p <= 0.

(** A valid spectrum table: strictly increasing wavelengths and intensities
    that are not negative. *)
Fixpoint strictly_increasing (x : list Q) : Prop :=
  match x with
  | x0 :: ((x1 :: _) as rest) => x0 < x1 /\ strictly_increasing rest
  | _ => True
  end.

Definition valid_table (x y : list Q) : Prop :=
  length x = length y /\ strictly_increasing x /\ Forall (fun v => 0 <= v) y.

(** A grid that climbs from [x0] through [grid] in steps of at most [h] and
    ends at [hi]. *)
Fixpoint climbs (h hi x0 : Q) (grid : list Q) : Prop :=
  match grid with
  | [] => x0 == hi
  | x1 :: rest => x0 <= x1 /\ x1 - x0 <= h /\ climbs h hi x1 rest
  end.

(** ** Vocabulary of the further properties *)

(** [np.sum] of an array of counts. *)
Definition total (c : list Z) : Z := foldr Z.add 0%Z c.

(** [lo <= w <= hi]: the wavelength [w] lies between the outermost edges. *)
Definition within (lo hi w : Q) : bool := Qle_bool lo w && Qle_bool w hi.

(** The per-bin arrays of a simulator hold one entry per wavelength bin. *)
Definition aligned (s : ReflectSimulator.t) : Prop :=
  let nbins := (length (ReflectSimulator.wavelength_bins s) - 1)%nat in
  length (ReflectSimulator.q s) = nbins
  /\ length (ReflectSimulator.direct_beam s) = nbins
  /\ length (ReflectSimulator.reflected_beam s) = nbins.

(** The number of samples that a sequence of calls asks for. *)
Definition requested `{Collaborators} (calls : list ReflectSimulator.call)
    : Z :=
  total ((fun c => Z.of_nat (ReflectSimulator.call_samples c)) <$> calls).

(** The stores of the resolution kernel are keyed by the wavelength bins:
    none outside them, and either none at all or one for each. *)
Definition keyed_by_bins (s : ReflectSimulator.t) : Prop :=
  let nbins := (length (ReflectSimulator.wavelength_bins s) - 1)%nat in
  (forall j, is_Some (ReflectSimulator._res_kernel s !! j) -> (j < nbins)%nat)
  /\ (ReflectSimulator._res_kernel s = ∅
      \/ forall j, (j < nbins)%nat ->
                   is_Some (ReflectSimulator._res_kernel s !! j)).

(** ** The resolution kernel as an array *)

(** What [np.histogram(v, density=True, bins=31)] returns: the density in
    each bin, [None] standing for the NaN that an empty store gives, and
    the bin edges, of which there is one more than there are bins.  The
    stores hold finite numbers, on which the call always returns. *)
Record DensityHistogram : Type := {
  density : list (option Q);
  bin_edges : list Q;
  bin_edges_length : length bin_edges = S (length density)
}.

(** [np.max] of a list of Python lengths. *)
Definition max_len (ls : list nat) : result nat :=
  match ls with
  | [] => Raise (ValueError "zero-size array to reduction operation maximum which has no identity")
  | l0 :: ls' => Ok (foldl Nat.max l0 ls')
  end.

(** [self._res_kernel.values()]: the stores in the order in which their
    keys were inserted, which is the order of the bin index, since
    [update_kernel] creates them in that order. *)
Definition key_le (a b : nat * list Q) : Prop := (a.1 <= b.1)%nat.

#[global] Instance key_le_dec : RelDecision key_le :=
  fun a b => decide (a.1 <= b.1)%nat.

Definition values (kernel : gmap nat (list Q)) : list (list Q) :=
  (merge_sort key_le (map_to_list kernel)).*2.

(** The [resolution_kernel] property: an array of shape
    [(len(histos), 2, max_bins)], a row holding the bin centres and the
    densities of one store, padded with NaN. *)
Definition resolution_kernel
    (histogram_density : list Q -> DensityHistogram)
    (self : ReflectSimulator.t)
    : result (list (list (option Q) * list (option Q))) :=
  let histos :=
    reverse (histogram_density
               <$> values (ReflectSimulator._res_kernel self)) in
  max_bins ← max_len ((fun histo => length (density histo)) <$> histos);
  Ok ((fun histo =>
         let p := density histo in
         let x := bin_edges histo in
         let sz := length p in
         let centres :=
           zip_with (fun lo hi => 0.5 * (lo + hi)) (removelast x) (tail x) in
         ((Some <$> centres) ++ replicate (max_bins - sz) None,
          p ++ replicate (max_bins - sz) None))
        <$> histos).

(** ** Further scenarios on the scripted collaborators *)

Module Bench.

(** A sample that reflects nothing, and one that reflects everything. *)
Definition absorber : ReflectModel :=
  {| model_call := fun _ => 0; model_bkg_value := 0 |}.

Definition mirror : ReflectModel :=
  {| model_call := fun _ => 1; model_bkg_value := 0 |}.

(** The coarse instrument of [Scenario.coarse] with another sample, or
    with the measured spectrum in place of uniform wavelengths. *)
Definition instrument (model : ReflectModel) (force_uniform : bool)
    : ReflectSimulator.args :=
  {| ReflectSimulator.arg_model := model;
     ReflectSimulator.arg_angle := 1;
     ReflectSimulator.L12 := 2859;
     ReflectSimulator.arg_footprint := 60;
     ReflectSimulator.L2S := 120;
     ReflectSimulator.arg_dtheta := 3.3;
     ReflectSimulator.lo_wavelength := 2;
     ReflectSimulator.hi_wavelength := 8;
     ReflectSimulator.arg_dlambda := 0;
     ReflectSimulator.arg_rebin := 100;
     ReflectSimulator.arg_force_gaussian := false;
     ReflectSimulator.arg_force_uniform_wavelength := force_uniform |}.

Definition dark : ReflectSimulator.args := instrument absorber true.
Definition bright : ReflectSimulator.args := instrument mirror true.

(** A simulator whose bin edges go down and up again. *)
Definition crossed : ReflectSimulator.t :=
  {| ReflectSimulator.model := Scenario.half_mirror;
     ReflectSimulator.bkg := 0;
     ReflectSimulator.angle := 1;
     ReflectSimulator.dlambda := 0;
     ReflectSimulator.rebin := 1;
     ReflectSimulator.wavelength_bins := [2; 1; 3];
     ReflectSimulator.q := [0.14; 0.1];
     ReflectSimulator.direct_beam := [0%Z; 0%Z];
     ReflectSimulator.reflected_beam := [0%Z; 0%Z];
     ReflectSimulator.force_uniform_wavelength := true;
     ReflectSimulator.spectrum_dist := uniform 1 7;
     ReflectSimulator.force_gaussian := false;
     ReflectSimulator._res_kernel := ∅;
     ReflectSimulator._min_samples := 0;
     ReflectSimulator.dtheta := 0.033;
     ReflectSimulator.footprint := 60;
     ReflectSimulator.angular_dist := norm 1 |}.

(** [np.histogram(v, density=True, bins=31)] in exact arithmetic: 31 bins
    of equal width between the smallest and the largest value (between 0
    and 1 for an empty array, half a unit to either side of a single
    value), and [n / db / n.sum()] as density. *)
Definition range (v : list Q) : Q * Q :=
  match v with
  | [] => (0, 1)
  | v0 :: v' =>
      let lo := foldl Qmin v0 v' in
      let hi := foldl Qmax v0 v' in
      if Qeq_bool lo hi then (lo - 0.5, hi + 0.5) else (lo, hi)
  end.

Definition edges (v : list Q) : list Q :=
  np.linspace (range v).1 (range v).2 32.

Definition counts (v : list Q) : list Z := np.diff (np.cum_n v (edges v)).

Definition widths (v : list Q) : list Q :=
  zip_with Qminus (tail (edges v)) (removelast (edges v)).

Definition densities (v : list Q) : list (option Q) :=
  zip_with
    (fun n db =>
       if (total (counts v) =? 0)%Z then None
       else Some (inject_Z n / db / inject_Z (total (counts v))))
    (counts v) (widths v).

Definition histogram (v : list Q) : DensityHistogram.
Proof.
  refine {| density := densities v; bin_edges := edges v |}.
  abstract reflexivity.
Defined.

End Bench.

(** * Properties *)

(** ** Comparisons *)

Lemma Qltb_lt x y : Qltb x y = true <-> x < y.
Proof.
  unfold Qltb. rewrite Qlt_alt. destruct (x ?= y); split; congruence.
Qed.

Lemma Qltb_ge x y : Qltb x y = false <-> y <= x.
Proof.
  split; intros Hxy.
  - destruct (Qlt_le_dec x y) as [Hlt | Hle]; [| exact Hle].
    apply Qltb_lt in Hlt. congruence.
  - destruct (Qltb x y) eqn:E; [| reflexivity].
    apply Qltb_lt in E. lra.
Qed.

Lemma Qle_bool_gt x y : Qle_bool x y = false <-> y < x.
Proof.
  split; intros Hxy.
  - destruct (Qlt_le_dec y x) as [Hlt | Hle]; [exact Hlt |].
    apply Qle_bool_iff in Hle. congruence.
  - destruct (Qle_bool x y) eqn:E; [| reflexivity].
    apply Qle_bool_iff in E. lra.
Qed.

(** ** Exceptions: inversion of a sequence of calls *)

Lemma Ok_inj {A} (u v : A) : Ok u = Ok v -> u = v.
Proof. now intros [= ->]. Qed.

Lemma bind_ret {A B} (u : A) (k : A -> result B) : Ok u ≫= k = k u.
Proof. reflexivity. Qed.

Lemma bind_Ok {A B} (r : result A) (k : A -> result B) (v : B) :
  r ≫= k = Ok v -> exists u, r = Ok u /\ k u = Ok v.
Proof. destruct r as [u | e]; [eauto | discriminate]. Qed.

Ltac bind_inv H :=
  repeat match type of H with
    | _ ≫= _ = Ok _ =>
        let u := fresh "u" in
        let E := fresh "E" in
        apply bind_Ok in H as (u & E & H)
    | (let '(_, _) := ?pr in _) = Ok _ => destruct pr
    end.

(** ** Histograms *)

Section histogram_facts.

Lemma count_nonneg {A} (p : A -> bool) (a : list A) : (0 <= np.count p a)%Z.
Proof. induction a as [| x a IH]; simpl; [| destruct (p x)]; lia. Qed.

Lemma mask_nil {A} (a : list A) : np.mask a [] = [].
Proof. destruct a; reflexivity. Qed.

(** Between two nested predicates a masked array holds no more elements
    than the whole array. *)
Lemma count_between_mask {A} (p p' : A -> bool) (a : list A) (m : list bool) :
  (forall x, p x = true -> p' x = true) ->
  (np.count p' (np.mask a m) - np.count p (np.mask a m)
   <= np.count p' a - np.count p a)%Z.
Proof.
  intros Hpp'. revert m.
  induction a as [| x a IH]; intros [| b m]; simpl; try lia.
  - pose proof (Hpp' x) as Hx. pose proof (IH []) as IH0.
    rewrite mask_nil in IH0. simpl in IH0.
    destruct (p x), (p' x);
      try (specialize (Hx eq_refl); discriminate); lia.
  - specialize (IH m). pose proof (Hpp' x) as Hx.
    destruct b; simpl; destruct (p x), (p' x);
      try (specialize (Hx eq_refl); discriminate); lia.
Qed.

Lemma lt_le_nested (e0 e1 : Q) :
  e0 <= e1 -> forall x, Qltb x e0 = true -> Qle_bool x e1 = true.
Proof.
  intros He x Hx. apply Qltb_lt in Hx. apply Qle_bool_iff. lra.
Qed.

Lemma lt_lt_nested (e0 e1 : Q) :
  e0 <= e1 -> forall x, Qltb x e0 = true -> Qltb x e1 = true.
Proof.
  intros He x Hx. apply Qltb_lt in Hx. apply Qltb_lt. lra.
Qed.

(** The histogram of a masked array is dominated, bin by bin, by the
    histogram of the whole array. *)
Lemma diff_cum_n_mask (a : list Q) (m : list bool) (bins : list Q) :
  np.monotonic bins = true ->
  Forall2 Z.le (np.diff (np.cum_n (np.mask a m) bins))
               (np.diff (np.cum_n a bins)).
Proof.
  induction bins as [| e0 [| e1 rest] IH]; intros Hmono.
  - constructor.
  - constructor.
  - change (np.monotonic (e0 :: e1 :: rest))
      with (Qle_bool e0 e1 && np.monotonic (e1 :: rest)) in Hmono.
    apply andb_prop in Hmono as [He Hrest]. apply Qle_bool_iff in He.
    specialize (IH Hrest).
    destruct rest as [| e2 rest].
    + simpl. constructor; [| constructor].
      apply count_between_mask, lt_le_nested, He.
    + change (np.cum_n ?l (e0 :: e1 :: e2 :: rest))
        with (np.searchsorted_left l e0 :: np.cum_n l (e1 :: e2 :: rest)).
      remember (e2 :: rest) as tl.
      assert (Hhd : forall l, exists c,
                 np.cum_n l (e1 :: tl) = np.searchsorted_left l e1 :: c).
      { intros l. subst tl. simpl. eauto. }
      destruct (Hhd a) as [c Hc], (Hhd (np.mask a m)) as [c' Hc'].
      rewrite Hc, Hc' in *. simpl. simpl in IH. constructor; [| exact IH].
      apply count_between_mask, lt_lt_nested, He.
Qed.

Lemma histogram_mask (a : list Q) (m : list bool) (bins : list Q) hist hist' :
  np.histogram a bins = Ok hist ->
  np.histogram (np.mask a m) bins = Ok hist' ->
  Forall2 Z.le hist' hist.
Proof.
  unfold np.histogram. destruct (np.monotonic bins) eqn:Hmono; [| discriminate].
  intros [= <-] [= <-]. apply diff_cum_n_mask, Hmono.
Qed.

Lemma histogram_Ok_iff (a : list Q) (bins : list Q) :
  np.monotonic bins = true <-> exists hist, np.histogram a bins = Ok hist.
Proof.
  unfold np.histogram.
  destruct (np.monotonic bins); split; eauto; try discriminate.
  intros [hist Hhist]. discriminate.
Qed.

Lemma Forall2_le_zip_add (r d hr hd : list Z) :
  Forall2 Z.le r d -> Forall2 Z.le hr hd ->
  Forall2 Z.le (zip_with Z.add r hr) (zip_with Z.add d hd).
Proof.
  intros Hrd. revert hr hd.
  induction Hrd as [| x y r d Hxy Hrd IH]; intros hr hd Hh; simpl.
  - constructor.
  - destruct Hh as [| u v hr hd Huv Hh]; constructor; [lia | auto].
Qed.

End histogram_facts.

(** ** One call of [run] *)

Section run_facts.
Context `{Collaborators}.
Import ReflectSimulator.

(** [sample] raises exactly when one of the two distributions is refused,
    and then it raises the domain error. *)
Lemma sample_returns (s : t) n rng :
  rvs_accept s = true -> exists bm, sample s n rng = Ok bm.
Proof.
  unfold rvs_accept, sample. intros Hacc.
  apply andb_prop in Hacc as [Ha Hw].
  assert (Hang : exists r, angular_rvs (angular_dist s) n rng = Ok r).
  { destruct (angular_dist s) as [scale | [c |] [d |] loc scale];
      try discriminate; unfold angular_rvs; rewrite Ha; simpl.
    - destruct (Qeq_bool scale 0); [eauto |].
      destruct (standard_normal rng n); eauto.
    - destruct (Qeq_bool scale 0); [eauto |].
      destruct (random_sample rng n); eauto. }
  destruct Hang as [[a0 rng1] ->]. simpl.
  assert (Hwav : exists r, wavelength_rvs (spectrum_dist s) n rng1 = Ok r).
  { destruct (spectrum_dist s) as [loc scale | sd]; [| simpl; eauto].
    unfold wavelength_rvs. rewrite Hw. simpl.
    destruct (Qeq_bool scale 0); [eauto |].
    destruct (rng_uniform rng1 0 1 n); eauto. }
  destruct Hwav as [[w rng2] ->]. simpl.
  destruct (rng_uniform rng2 0 1 n) as [c rng3].
  destruct (force_gaussian s).
  - destruct (standard_normal rng3 n); eauto.
  - destruct (rng_uniform rng3 (-0.5) 0.5 n); eauto.
Qed.

Lemma sample_raises (s : t) n rng :
  rvs_accept s = false -> sample s n rng = Raise domain_error.
Proof.
  unfold rvs_accept, sample. intros Hacc.
  destruct (angular_argcheck (angular_dist s)) eqn:Ha.
  - simpl in Hacc.
    assert (Hang : exists r, angular_rvs (angular_dist s) n rng = Ok r).
    { destruct (angular_dist s) as [scale | [c |] [d |] loc scale];
        try discriminate; unfold angular_rvs; rewrite Ha; simpl.
      - destruct (Qeq_bool scale 0); [eauto |].
        destruct (standard_normal rng n); eauto.
      - destruct (Qeq_bool scale 0); [eauto |].
        destruct (random_sample rng n); eauto. }
    destruct Hang as [[a0 rng1] ->]. simpl.
    destruct (spectrum_dist s) as [loc scale | sd]; [| discriminate].
    unfold wavelength_rvs. rewrite Hacc. reflexivity.
  - destruct (angular_dist s) as [scale | [c |] [d |] loc scale];
      unfold angular_rvs; try rewrite Ha; reflexivity.
Qed.

Lemma sample_Ok_accept (s : t) n rng bm :
  sample s n rng = Ok bm -> rvs_accept s = true.
Proof.
  intros Hbm. destruct (rvs_accept s) eqn:Hacc; [reflexivity |].
  rewrite (sample_raises s n rng Hacc) in Hbm. discriminate.
Qed.

(** The anatomy of a call that returns. *)
Lemma run_Ok (s : t) n rs g s' g' :
  run s n rs g = Ok (s', g') ->
  exists bm,
    sample s n (check_random_state g rs) = Ok bm
    /\ exists hd hr,
         np.histogram (jittered_wavelengths bm) (wavelength_bins s) = Ok hd
         /\ np.histogram (np.mask (jittered_wavelengths bm) (accepted bm))
              (wavelength_bins s) = Ok hr
         /\ direct_beam s' = zip_with Z.add (direct_beam s) hd
         /\ reflected_beam s' = zip_with Z.add (reflected_beam s) hr
         /\ _res_kernel s' =
              (if kernel_full (_res_kernel s) then _res_kernel s
               else update_kernel (wavelength_bins s)
                      ((fun w => np.digitize w (wavelength_bins s))
                         <$> jittered_wavelengths bm)
                      (batch_q bm) (_res_kernel s))
         /\ g' = rng_after bm
         /\ same_configuration s s'.
Proof.
  intros Hrun. unfold run in Hrun. cbv zeta in Hrun.
  apply bind_Ok in Hrun as (bm & Hbm & Hrun).
  exists bm. split; [exact Hbm |].
  bind_inv Hrun. simpl in *.
  exists u, u0. split; [exact E |]. split; [exact E0 |].
  destruct (kernel_full (_res_kernel s)); injection Hrun as <- <-;
    simpl; repeat split; reflexivity.
Qed.

(** A call returns exactly when both distributions are accepted and the
    bin edges are monotonic.  Otherwise it raises before any accumulator is
    written: the domain error of [rvs], or else the error of
    [np.histogram]. *)
Lemma run_returns (s : t) n rs g :
  rvs_accept s = true ->
  np.monotonic (wavelength_bins s) = true ->
  exists s' g', run s n rs g = Ok (s', g').
Proof.
  intros Hacc Hmono. unfold run. cbv zeta.
  destruct (sample_returns s n (check_random_state g rs) Hacc) as [bm ->].
  unfold np.histogram. simpl. rewrite Hmono. simpl.
  destruct (kernel_full (_res_kernel s)); eauto.
Qed.

Lemma run_raises (s : t) n rs g :
  rvs_accept s = true ->
  np.monotonic (wavelength_bins s) = false ->
  run s n rs g
  = Raise (ValueError "`bins` must increase monotonically, when an array").
Proof.
  intros Hacc Hmono. unfold run. cbv zeta.
  destruct (sample_returns s n (check_random_state g rs) Hacc) as [bm ->].
  unfold np.histogram. simpl. rewrite Hmono. reflexivity.
Qed.

Lemma run_refuses (s : t) n rs g :
  rvs_accept s = false -> run s n rs g = Raise domain_error.
Proof.
  intros Hacc. unfold run. cbv zeta.
  now rewrite (sample_raises s n (check_random_state g rs) Hacc).
Qed.

(** What [sample] raises, [run] raises. *)
Lemma run_sample_raises (s : t) n rs g e :
  sample s n (check_random_state g rs) = Raise e -> run s n rs g = Raise e.
Proof. intros Hbm. unfold run. cbv zeta. now rewrite Hbm. Qed.

(** What is drawn depends on the configuration only. *)
Lemma sample_configuration (s1 s2 : t) n rng :
  same_configuration s1 s2 -> sample s1 n rng = sample s2 n rng.
Proof.
  intros Hcfg.
  change (sample (configuration s1) n rng = sample (configuration s2) n rng).
  now rewrite Hcfg.
Qed.

Lemma same_configuration_trans (s1 s2 s3 : t) :
  same_configuration s1 s2 -> same_configuration s2 s3 ->
  same_configuration s1 s3.
Proof. unfold same_configuration. congruence. Qed.

Lemma runs_configuration (calls : list call) (s : t) g :
  same_configuration s (runs s g calls).1.
Proof.
  revert s g. induction calls as [| c calls IH]; intros s g; simpl.
  - reflexivity.
  - destruct (run s (call_samples c) (call_random_state c) g)
      as [[s' g'] | e] eqn:Hrun; [| apply IH].
    apply run_Ok in Hrun as (bm & Hbm & hd & hr & _ & _ & _ & _ & _ & _ & Hcfg).
    eapply same_configuration_trans; [exact Hcfg | apply IH].
Qed.

(** *** Conservation *)

Lemma run_conserves (s : t) n rs g s' g' :
  Forall2 Z.le (reflected_beam s) (direct_beam s) ->
  run s n rs g = Ok (s', g') ->
  Forall2 Z.le (reflected_beam s') (direct_beam s').
Proof.
  intros Hle Hrun.
  apply run_Ok in Hrun as (bm & Hbm & hd & hr & Hd & Hr & -> & -> & _).
  apply Forall2_le_zip_add; [exact Hle |].
  eapply histogram_mask; eassumption.
Qed.

Lemma runs_conserve (calls : list call) (s : t) g :
  Forall2 Z.le (reflected_beam s) (direct_beam s) ->
  Forall2 Z.le (reflected_beam (runs s g calls).1)
               (direct_beam (runs s g calls).1).
Proof.
  revert s g. induction calls as [| c calls IH]; intros s g Hle; simpl.
  - exact Hle.
  - destruct (run s (call_samples c) (call_random_state c) g)
      as [[s' g'] | e] eqn:Hrun; [| apply IH, Hle].
    apply IH. eapply run_conserves; eassumption.
Qed.

(** The constructor zeroes both accumulators, one entry per bin. *)
Lemma init_beams (p : args) (s : t) :
  __init__ p = Ok s ->
  direct_beam s
  = replicate (Z.to_nat (Z.of_nat (length (wavelength_bins s)) - 1)) 0%Z
  /\ reflected_beam s = direct_beam s
  /\ _res_kernel s = ∅.
Proof.
  unfold __init__, np.zeros. intros Hinit. bind_inv Hinit.
  injection Hinit as <-. simpl.
  destruct (Z.of_nat (length u) - 1 <? 0)%Z; [discriminate |].
  injection E0 as <-. injection E1 as <-. auto.
Qed.

(** C1. For every bin index, after any sequence of [run] calls on a
    constructed simulator, the accumulated reflected-beam count is at
    most the direct-beam count of the same bin: each call adds the
    histogram of the accepted samples to the former and the histogram of
    all samples, over the same edges, to the latter. *)
Theorem reflected_le_direct (p : args) (s0 : t) g (calls : list call) :
  __init__ p = Ok s0 ->
  let s := (runs s0 g calls).1 in
  length (reflected_beam s) = length (direct_beam s)
  /\ forall i r, reflected_beam s !! i = Some r ->
       exists d, direct_beam s !! i = Some d /\ (r <= d)%Z.
Proof.
  intros Hinit s.
  assert (Hle : Forall2 Z.le (reflected_beam s) (direct_beam s)).
  { apply runs_conserve.
    apply init_beams in Hinit as (_ & -> & _).
    apply Forall2_same_length_lookup_2; [reflexivity |].
    intros i x y Hx Hy. assert (x = y) by congruence. lia. }
  split; [eapply Forall2_length, Hle |].
  intros i r Hr.
  destruct (Forall2_lookup_l _ _ _ _ _ Hle Hr) as (d & Hd & Hrd). eauto.
Qed.

End run_facts.

Lemma reflected_le_direct_witness :
  exists s0,
    ReflectSimulator.__init__ Scenario.coarse = Ok s0
    /\ let s :=
         (ReflectSimulator.runs s0 Scenario.idle Scenario.two_calls).1 in
       length (ReflectSimulator.reflected_beam s)
       = length (ReflectSimulator.direct_beam s)
       /\ forall i r,
            ReflectSimulator.reflected_beam s !! i = Some r ->
            exists d,
              ReflectSimulator.direct_beam s !! i = Some d /\ (r <= d)%Z.
Proof.
  eexists. split.
  - vm_compute. reflexivity.
  - apply (reflected_le_direct Scenario.coarse _ Scenario.idle
             Scenario.two_calls).
    vm_compute. reflexivity.
Defined.

(** ** What one call draws *)

Section sampling_facts.
Context `{Collaborators}.
Import ReflectSimulator.

Lemma rng_uniform_length rng low high n :
  length (rng_uniform rng low high n).1 = n.
Proof.
  unfold rng_uniform. pose proof (random_sample_length rng n) as Hlen.
  destruct (random_sample rng n) as [u rng']. simpl in *.
  now rewrite length_fmap.
Qed.

Lemma rng_uniform_range rng low high n v :
  low < high -> v ∈ (rng_uniform rng low high n).1 -> low <= v /\ v < high.
Proof.
  unfold rng_uniform. pose proof (random_sample_range rng n) as Hrange.
  destruct (random_sample rng n) as [u rng']. simpl in *.
  intros Hlh Hv. apply list_elem_of_fmap in Hv as (w & -> & Hw).
  destruct (Hrange w Hw) as [H0 H1]. split; nra.
Qed.

Lemma angular_rvs_length dist n rng a0 rng1 :
  angular_rvs dist n rng = Ok (a0, rng1) -> length a0 = n.
Proof.
  destruct dist as [scale | [c |] [d |] loc scale];
    try (simpl; discriminate); unfold angular_rvs.
  - destruct (negb (angular_argcheck (norm scale))); [discriminate |].
    destruct (Qeq_bool scale 0).
    + intros [= <- _]. apply length_replicate.
    + pose proof (standard_normal_length rng n) as Hlen.
      destruct (standard_normal rng n) as [z rng']. simpl in *.
      intros [= <- _]. now rewrite length_fmap.
  - destruct (negb (angular_argcheck (trapz (Some c) (Some d) loc scale)));
      [discriminate |].
    destruct (Qeq_bool scale 0).
    + intros [= <- _]. apply length_replicate.
    + pose proof (random_sample_length rng n) as Hlen.
      destruct (random_sample rng n) as [u rng']. simpl in *.
      intros [= <- _]. now rewrite length_fmap.
Qed.

Lemma wavelength_rvs_length dist n rng w rng1 :
  wavelength_rvs dist n rng = Ok (w, rng1) -> length w = n.
Proof.
  destruct dist as [loc scale | sd]; unfold wavelength_rvs.
  - destruct (negb (wavelength_argcheck (uniform loc scale)));
      [discriminate |].
    destruct (Qeq_bool scale 0).
    + intros [= <- _]. apply length_replicate.
    + pose proof (rng_uniform_length rng 0 1 n) as Hlen.
      destruct (rng_uniform rng 0 1 n) as [u rng']. simpl in *.
      intros [= <- _]. now rewrite length_fmap.
  - unfold SpectrumDist.rvs.
    pose proof (random_sample_length rng n) as Hlen.
    destruct (random_sample rng n) as [u rng']. simpl in *.
    intros [= <- _]. now rewrite length_fmap.
Qed.

(** The batch, with the four generator calls named. *)
Lemma sample_anatomy (s : t) n rng bm :
  sample s n rng = Ok bm ->
  exists a0 rng1 w rng2 c rng3 e rng4,
    angular_rvs (angular_dist s) n rng = Ok (a0, rng1)
    /\ wavelength_rvs (spectrum_dist s) n rng1 = Ok (w, rng2)
    /\ rng_uniform rng2 0 1 n = (c, rng3)
    /\ (if force_gaussian s then standard_normal rng3 n
        else rng_uniform rng3 (-0.5) 0.5 n) = (e, rng4)
    /\ bm =
       {| angles := (fun v => v + angle s) <$> a0;
          wavelengths := w;
          batch_q := zip_with general_q ((fun v => v + angle s) <$> a0) w;
          r := model_call (model s)
                 <$> zip_with general_q ((fun v => v + angle s) <$> a0) w;
          criterion := c;
          accepted :=
            zip_with Qltb c
              (model_call (model s)
                 <$> zip_with general_q ((fun v => v + angle s) <$> a0) w);
          noise := e;
          jittered_wavelengths :=
            (if force_gaussian s then
               zip_with (fun w g => w * (1 + dlambda s / 2.3548 * g)) w e
             else zip_with (fun w u => w * (1 + dlambda s / 0.68 * u)) w e);
          rng_after := rng4 |}.
Proof.
  unfold sample. intros Hbm.
  apply bind_Ok in Hbm as ([a0 rng1] & Ha & Hbm).
  apply bind_Ok in Hbm as ([w rng2] & Hw & Hbm).
  destruct (rng_uniform rng2 0 1 n) as [c rng3] eqn:Hc.
  destruct (force_gaussian s).
  - destruct (standard_normal rng3 n) as [e rng4] eqn:He.
    apply Ok_inj in Hbm.
    exists a0, rng1, w, rng2, c, rng3, e, rng4.
    repeat split; try reflexivity; try assumption. now symmetry.
  - destruct (rng_uniform rng3 (-0.5) 0.5 n) as [e rng4] eqn:He.
    apply Ok_inj in Hbm.
    exists a0, rng1, w, rng2, c, rng3, e, rng4.
    repeat split; try reflexivity; try assumption. now symmetry.
Qed.

(** The lengths of the arrays of a batch. *)
Lemma sample_lengths (s : t) n rng bm :
  sample s n rng = Ok bm ->
  length (wavelengths bm) = n /\ length (batch_q bm) = n
  /\ length (criterion bm) = n /\ length (accepted bm) = n
  /\ length (noise bm) = n /\ length (jittered_wavelengths bm) = n.
Proof.
  intros Hbm.
  destruct (sample_anatomy s n rng bm Hbm)
    as (a0 & rng1 & w & rng2 & c & rng3 & e & rng4
        & Ha & Hw & Hc & He & ->).
  pose proof (angular_rvs_length _ _ _ _ _ Ha) as La.
  pose proof (wavelength_rvs_length _ _ _ _ _ Hw) as Lw.
  pose proof (rng_uniform_length rng2 0 1 n) as Lc.
  rewrite Hc in Lc. simpl in *.
  assert (Le : length e = n).
  { destruct (force_gaussian s).
    - pose proof (standard_normal_length rng3 n) as L. now rewrite He in L.
    - pose proof (rng_uniform_length rng3 (-0.5) 0.5 n) as L.
      now rewrite He in L. }
  repeat split; try assumption.
  - rewrite length_zip_with, length_fmap. lia.
  - rewrite length_zip_with, length_fmap, length_zip_with, length_fmap. lia.
  - destruct (force_gaussian s); rewrite length_zip_with; lia.
Qed.

End sampling_facts.

(** ** Acceptance as a probability *)

Section acceptance_frequency.

Lemma count_app {A} (p : A -> bool) (l1 l2 : list A) :
  np.count p (l1 ++ l2) = (np.count p l1 + np.count p l2)%Z.
Proof. induction l1 as [| x l1 IH]; simpl; [| rewrite IH]; lia. Qed.

Lemma count_ext {A} (p p' : A -> bool) (l : list A) :
  (forall x, p x = p' x) -> np.count p l = np.count p' l.
Proof.
  intros Hpp'. induction l as [| x l IH]; simpl; [| rewrite IH, Hpp']; lia.
Qed.

(** Counting the naturals below a threshold. *)
Lemma count_below (x : Q) (M : nat) :
  let c := np.count (fun k : nat => Qltb (inject_Z (Z.of_nat k)) x) (seq 0 M) in
  (0 <= c <= Z.of_nat M)%Z
  /\ ((0 < c)%Z -> inject_Z (c - 1) < x)
  /\ ((c < Z.of_nat M)%Z -> x <= inject_Z c).
Proof.
  induction M as [| M IH]; cbv zeta in *.
  - simpl. repeat split; lia.
  - rewrite seq_S, count_app. simpl.
    set (c := np.count (fun k : nat => Qltb (inject_Z (Z.of_nat k)) x) (seq 0 M))
      in *.
    destruct IH as (Hbound & Hpos & Hlt).
    destruct (Qltb (inject_Z (Z.of_nat M)) x) eqn:E.
    + apply Qltb_lt in E.
      assert (Hc : c = Z.of_nat M).
      { destruct (Z.eq_dec c (Z.of_nat M)) as [Heq | Hne]; [exact Heq |].
        assert (Hcm : (c < Z.of_nat M)%Z) by lia.
        specialize (Hlt Hcm). rewrite Zlt_Qlt in Hcm. lra. }
      rewrite Hc. repeat split; try lia.
      intros _. replace (Z.of_nat M + (1 + 0) - 1)%Z with (Z.of_nat M) by lia.
      exact E.
    + apply Qltb_ge in E.
      replace (c + (0 + 0))%Z with c by lia.
      repeat split; try lia; [exact Hpos |].
      intros Hcm. destruct (Z.eq_dec c (Z.of_nat M)) as [Heq | Hne].
      * rewrite Heq. exact E.
      * apply Hlt. lia.
Qed.

(** On a grid of [N] equally likely draws the accepted fraction is the
    reflectivity, rounded up to the grid. *)
Lemma acceptance_frequency (N : nat) (rv : Q) :
  (0 < N)%nat -> 0 <= rv -> rv <= 1 ->
  rv <= inject_Z (acceptance_count N rv) / inject_Z (Z.of_nat N)
  /\ inject_Z (acceptance_count N rv) / inject_Z (Z.of_nat N)
     < rv + 1 / inject_Z (Z.of_nat N).
Proof.
  intros HN H0 H1. unfold acceptance_count.
  assert (HNq : 0 < inject_Z (Z.of_nat N)).
  { change 0 with (inject_Z 0). rewrite <- Zlt_Qlt. lia. }
  rewrite (count_ext _
             (fun k : nat =>
                Qltb (inject_Z (Z.of_nat k)) (rv * inject_Z (Z.of_nat N)))).
  2:{ intros k.
      destruct (Qltb (inject_Z (Z.of_nat k)) (rv * inject_Z (Z.of_nat N)))
        eqn:E.
      - apply Qltb_lt in E. apply Qltb_lt. apply Qlt_shift_div_r; assumption.
      - apply Qltb_ge in E. apply Qltb_ge. apply Qle_shift_div_l; assumption. }
  destruct (count_below (rv * inject_Z (Z.of_nat N)) N) as (Hbound & Hpos & Hlt).
  set (c := np.count _ _) in *.
  assert (Hlow : rv * inject_Z (Z.of_nat N) <= inject_Z c).
  { destruct (Z.eq_dec c (Z.of_nat N)) as [Heq | Hne].
    - rewrite Heq. nra.
    - apply Hlt. lia. }
  assert (Hhigh : inject_Z c < rv * inject_Z (Z.of_nat N) + 1).
  { destruct (Z.eq_dec c 0%Z) as [Heq | Hne].
    - rewrite Heq. change (inject_Z 0) with 0. nra.
    - assert (Hc : (0 < c)%Z) by lia. specialize (Hpos Hc).
      unfold Z.sub in Hpos. rewrite inject_Z_plus in Hpos.
      change (inject_Z (- (1))) with (- (1)) in Hpos. lra. }
  split.
  - apply Qle_shift_div_l; assumption.
  - apply Qlt_shift_div_r; [assumption |].
    assert (Heq : (rv + 1 / inject_Z (Z.of_nat N)) * inject_Z (Z.of_nat N)
                  == rv * inject_Z (Z.of_nat N) + 1) by (field; lra).
    rewrite Heq. exact Hhigh.
Qed.

End acceptance_frequency.

(** ** Accept/reject and wavelength jitter *)

Section accept_and_jitter.
Context `{Collaborators}.
Import ReflectSimulator.

(** C8. In each [run] call a sample is accepted if and only if its own
    uniform draw on the unit interval is strictly below the value of the
    reflectivity model at its momentum transfer; the accepted samples are
    the ones histogrammed into the reflected beam; and on a grid of equally
    likely draws the accepted fraction is the reflectivity value (rounded up
    to the grid) when that value lies between 0 and 1. *)
Theorem accepted_iff_below_reflectivity (s : t) n rs g :
  match sample s n (check_random_state g rs) with
  | Ok bm =>
      length (accepted bm) = n
      /\ (forall i, (i < n)%nat ->
            exists u qv,
              criterion bm !! i = Some u /\ batch_q bm !! i = Some qv
              /\ 0 <= u /\ u < 1
              /\ accepted bm !! i = Some (Qltb u (model_call (model s) qv))
              /\ (accepted bm !! i = Some true
                  <-> u < model_call (model s) qv))
      /\ match run s n rs g with
         | Ok (s', _) =>
             exists hr,
               np.histogram
                 (np.mask (jittered_wavelengths bm) (accepted bm))
                 (wavelength_bins s) = Ok hr
               /\ reflected_beam s' = zip_with Z.add (reflected_beam s) hr
         | Raise _ => True
         end
  | Raise e => run s n rs g = Raise e
  end
  /\ (forall N rv, (0 < N)%nat -> 0 <= rv -> rv <= 1 ->
        rv <= inject_Z (acceptance_count N rv) / inject_Z (Z.of_nat N)
        /\ inject_Z (acceptance_count N rv) / inject_Z (Z.of_nat N)
           < rv + 1 / inject_Z (Z.of_nat N)).
Proof.
  split; [| intros N rv; apply acceptance_frequency].
  destruct (sample s n (check_random_state g rs)) as [bm | e] eqn:Hsample;
    [| apply run_sample_raises, Hsample].
  destruct (sample_lengths s n _ bm Hsample)
    as (Lw & Lq & Lc & La & Le & Lj).
  destruct (sample_anatomy s n _ bm Hsample)
    as (a0 & rng1 & w & rng2 & c & rng3 & e & rng4
        & _ & _ & Hc & _ & Hbm).
  split; [exact La |]. split.
  - intros i Hi.
    destruct (lookup_lt_is_Some_2 (criterion bm) i) as [u Hu]; [lia |].
    destruct (lookup_lt_is_Some_2 (batch_q bm) i) as [qv Hqv]; [lia |].
    exists u, qv.
    assert (Hrange : 0 <= u /\ u < 1).
    { rewrite Hbm in Hu. simpl in Hu.
      apply (rng_uniform_range rng2 0 1 n); [lra |].
      rewrite Hc. simpl. eapply list_elem_of_lookup_2, Hu. }
    assert (Hacc : accepted bm !! i
                   = Some (Qltb u (model_call (model s) qv))).
    { rewrite Hbm in *. simpl in *.
      rewrite lookup_zip_with, Hu. simpl.
      rewrite list_lookup_fmap, Hqv. reflexivity. }
    repeat split; try tauto; try assumption.
    + rewrite Hacc. intros [= Hlt]. now apply Qltb_lt.
    + rewrite Hacc. intros Hlt. apply Qltb_lt in Hlt. now rewrite Hlt.
  - destruct (run s n rs g) as [[s' g'] | ex] eqn:Hrun; [| exact I].
    apply run_Ok in Hrun as (bm' & Hbm' & hd & hr & _ & Hr & _ & Hr' & _).
    rewrite Hsample in Hbm'. apply Ok_inj in Hbm'. subst bm'.
    exists hr. split; assumption.
Qed.

(** C6. In each [run] call every sampled wavelength [w] is replaced, for
    the purpose of binning, by [w * (1 + dlambda / 2.3548 * g)] with [g] a
    standard normal draw when [force_gaussian] is set, and by
    [w * (1 + dlambda / 0.68 * u)] with [u] a uniform draw between -0.5 and
    0.5 otherwise; [dlambda] is the wavelength resolution as a fraction. *)
Theorem wavelength_jitter (s : t) n rs g :
  match sample s n (check_random_state g rs) with
  | Ok bm =>
      length (wavelengths bm) = n
      /\ length (jittered_wavelengths bm) = n
      /\ (exists rng,
            noise bm = if force_gaussian s then (standard_normal rng n).1
                       else (rng_uniform rng (-0.5) 0.5 n).1)
      /\ (forall i, (i < n)%nat ->
            exists w e,
              wavelengths bm !! i = Some w /\ noise bm !! i = Some e
              /\ (if force_gaussian s then True else -0.5 <= e /\ e < 0.5)
              /\ jittered_wavelengths bm !! i
                 = Some (if force_gaussian s
                         then w * (1 + dlambda s / 2.3548 * e)
                         else w * (1 + dlambda s / 0.68 * e)))
      /\ match run s n rs g with
         | Ok (s', _) =>
             exists hd,
               np.histogram (jittered_wavelengths bm) (wavelength_bins s)
               = Ok hd
               /\ direct_beam s' = zip_with Z.add (direct_beam s) hd
         | Raise _ => True
         end
  | Raise e => run s n rs g = Raise e
  end.
Proof.
  destruct (sample s n (check_random_state g rs)) as [bm | ex] eqn:Hsample;
    [| apply run_sample_raises, Hsample].
  destruct (sample_lengths s n _ bm Hsample)
    as (Lw & Lq & Lc & La & Le & Lj).
  destruct (sample_anatomy s n _ bm Hsample)
    as (a0 & rng1 & w & rng2 & c & rng3 & e & rng4
        & _ & _ & _ & He & Hbm).
  split; [exact Lw |]. split; [exact Lj |]. split; [| split].
  - exists rng3. rewrite Hbm. simpl.
    destruct (force_gaussian s); now rewrite He.
  - intros i Hi.
    destruct (lookup_lt_is_Some_2 (wavelengths bm) i) as [wi Hwi]; [lia |].
    destruct (lookup_lt_is_Some_2 (noise bm) i) as [ei Hei]; [lia |].
    exists wi, ei. split; [exact Hwi |]. split; [exact Hei |].
    rewrite Hbm in *. simpl in *. split.
    + destruct (force_gaussian s); [exact I |].
      apply (rng_uniform_range rng3 (-0.5) 0.5 n); [lra |].
      rewrite He. simpl. eapply list_elem_of_lookup_2, Hei.
    + destruct (force_gaussian s);
        rewrite lookup_zip_with, Hwi; simpl; rewrite Hei; reflexivity.
  - destruct (run s n rs g) as [[s' g'] | ex] eqn:Hrun; [| exact I].
    apply run_Ok in Hrun as (bm' & Hbm' & hd & hr & Hd & _ & Hd' & _).
    rewrite Hsample in Hbm'. apply Ok_inj in Hbm'. subst bm'.
    exists hd. split; assumption.
Qed.

End accept_and_jitter.

(** ** Determinism *)

Section determinism.
Context `{Collaborators}.
Import ReflectSimulator.

Lemma same_configuration_bins (s1 s2 : t) :
  same_configuration s1 s2 -> wavelength_bins s1 = wavelength_bins s2.
Proof. intros Hcfg. exact (f_equal wavelength_bins Hcfg). Qed.

Lemma same_configuration_accept (s1 s2 : t) :
  same_configuration s1 s2 -> rvs_accept s1 = rvs_accept s2.
Proof. intros Hcfg. exact (f_equal rvs_accept Hcfg). Qed.

(** C3. With an integer seed, [run] is a function of the configuration, the
    accumulated state and the sample count alone: the process-wide
    generator plays no part.  Two simulators of the same configuration that
    are given the same seed and sample count either raise the same
    exception or add the same histograms to their direct and reflected
    beams and append the same momentum transfers to their resolution
    kernels (when the cap gates both alike), and leave the generator in the
    same state. *)
Theorem run_deterministic (s1 s2 : t) n seed g1 g2 :
  same_configuration s1 s2 ->
  kernel_full (_res_kernel s1) = kernel_full (_res_kernel s2) ->
  run s1 n (rs_int seed) g1 = run s1 n (rs_int seed) g2
  /\ match run s1 n (rs_int seed) g1, run s2 n (rs_int seed) g2 with
     | Ok (s1', r1), Ok (s2', r2) =>
         r1 = r2
         /\ exists hd hr bin_loc qs,
              direct_beam s1' = zip_with Z.add (direct_beam s1) hd
              /\ direct_beam s2' = zip_with Z.add (direct_beam s2) hd
              /\ reflected_beam s1' = zip_with Z.add (reflected_beam s1) hr
              /\ reflected_beam s2' = zip_with Z.add (reflected_beam s2) hr
              /\ _res_kernel s1' =
                   (if kernel_full (_res_kernel s1) then _res_kernel s1
                    else update_kernel (wavelength_bins s1) bin_loc qs
                           (_res_kernel s1))
              /\ _res_kernel s2' =
                   (if kernel_full (_res_kernel s1) then _res_kernel s2
                    else update_kernel (wavelength_bins s1) bin_loc qs
                           (_res_kernel s2))
     | Raise e1, Raise e2 => e1 = e2
     | _, _ => False
     end.
Proof.
  intros Hcfg Hgate. split; [reflexivity |].
  pose proof (same_configuration_bins _ _ Hcfg) as Hbins.
  pose proof (same_configuration_accept _ _ Hcfg) as Hacc.
  destruct (rvs_accept s1) eqn:Hacc1; symmetry in Hacc.
  - destruct (np.monotonic (wavelength_bins s1)) eqn:Hmono.
    + destruct (run_returns s1 n (rs_int seed) g1 Hacc1 Hmono)
        as (s1' & r1 & Hrun1).
      rewrite Hbins in Hmono.
      destruct (run_returns s2 n (rs_int seed) g2 Hacc Hmono)
        as (s2' & r2 & Hrun2).
      rewrite Hrun1, Hrun2.
      apply run_Ok in Hrun1
        as (bm1 & Hbm1 & hd & hr & Hd & Hr & Hd1 & Hr1 & Hk1 & -> & _).
      apply run_Ok in Hrun2
        as (bm2 & Hbm2 & hd' & hr' & Hd' & Hr' & Hd2 & Hr2 & Hk2 & -> & _).
      simpl in *.
      rewrite <- (sample_configuration s1 s2 n _ Hcfg), Hbm1 in Hbm2.
      apply Ok_inj in Hbm2. subst bm2. rewrite <- Hbins in *.
      rewrite Hd in Hd'. injection Hd' as <-.
      rewrite Hr in Hr'. injection Hr' as <-.
      split; [reflexivity |].
      eexists hd, hr, _, _.
      rewrite <- Hgate in Hk2.
      repeat split; eassumption.
    + rewrite (run_raises s1 n (rs_int seed) g1 Hacc1 Hmono).
      rewrite Hbins in Hmono.
      rewrite (run_raises s2 n (rs_int seed) g2 Hacc Hmono). reflexivity.
  - rewrite (run_refuses s1 n (rs_int seed) g1 Hacc1).
    rewrite (run_refuses s2 n (rs_int seed) g2 Hacc). reflexivity.
Qed.

End determinism.

(** ** The constructor *)

Section constructor_facts.
Context `{Collaborators}.
Import ReflectSimulator.

(** What the constructor stores. *)
Lemma init_fields (p : args) (s : t) :
  __init__ p = Ok s ->
  model s = arg_model p /\ angle s = arg_angle p
  /\ dlambda s = arg_dlambda p / 100 /\ rebin s = arg_rebin p / 100
  /\ dtheta s = arg_dtheta p / 100 /\ footprint s = arg_footprint p
  /\ force_gaussian s = arg_force_gaussian p
  /\ force_uniform_wavelength s = arg_force_uniform_wavelength p
  /\ calculate_wavelength_bins (lo_wavelength p) (hi_wavelength p)
       (arg_rebin p) = Ok (wavelength_bins s)
  /\ q s = general_q (arg_angle p)
             <$> zip_with (fun hi lo => 0.5 * (hi + lo))
                   (tail (wavelength_bins s)) (removelast (wavelength_bins s))
  /\ (arg_force_uniform_wavelength p = true ->
      spectrum_dist s
      = uniform (lo_wavelength p - 1)
          (hi_wavelength p - lo_wavelength p + 1)).
Proof.
  unfold __init__. intros Hinit. bind_inv Hinit.
  injection Hinit as <-. simpl. repeat split; try assumption.
  intros Hforce. rewrite Hforce in E2. now injection E2 as <-.
Qed.

Lemma same_configuration_fields (s1 s2 : t) :
  same_configuration s1 s2 ->
  dlambda s1 = dlambda s2 /\ dtheta s1 = dtheta s2 /\ rebin s1 = rebin s2
  /\ q s1 = q s2 /\ spectrum_dist s1 = spectrum_dist s2.
Proof.
  intros Hcfg. repeat split.
  - exact (f_equal dlambda Hcfg).
  - exact (f_equal dtheta Hcfg).
  - exact (f_equal rebin Hcfg).
  - exact (f_equal q Hcfg).
  - exact (f_equal spectrum_dist Hcfg).
Qed.

(** The two columns of abscissae of the derived dataset. *)
Lemma reflectivity_columns (s : t) rng :
  let d := (reflectivity s rng).1 in
  ReflectDataset.x d = q s
  /\ ReflectDataset.x_err d
     = (fun v => np_sqrt (dlambda s ^ 2 + dtheta s ^ 2
                          + (0.68 * rebin s) ^ 2) * v) <$> q s.
Proof.
  unfold reflectivity, ReflectDataset.synthesise.
  destruct (ErrorProp_EPdiv _ _ _ _) as [ref rerr]. simpl.
  destruct (standard_normal rng (length ref)) as [gnoise rng']. simpl. auto.
Qed.

(** C7. The derived reflectivity dataset reports, for every bin, a
    momentum-transfer resolution width equal to the square root of
    [dlambda^2 + dtheta^2 + (0.68 * rebin)^2] times the nominal momentum
    transfer of the bin, the three resolutions being the configured
    percentages as fractions. *)
Theorem resolution_width (p : args) (s0 : t) g (calls : list call) rng :
  __init__ p = Ok s0 ->
  let s := (runs s0 g calls).1 in
  let d := (reflectivity s rng).1 in
  let dx :=
    np_sqrt ((arg_dlambda p / 100) ^ 2 + (arg_dtheta p / 100) ^ 2
             + (0.68 * (arg_rebin p / 100)) ^ 2) in
  ReflectDataset.x d = q s0
  /\ length (ReflectDataset.x_err d) = length (q s0)
  /\ forall i qv, q s0 !! i = Some qv ->
       ReflectDataset.x d !! i = Some qv
       /\ ReflectDataset.x_err d !! i = Some (dx * qv).
Proof.
  intros Hinit s d dx.
  destruct (init_fields p s0 Hinit)
    as (_ & _ & Hdl & Hrb & Hdt & _).
  destruct (same_configuration_fields s0 s (runs_configuration calls s0 g))
    as (Hdl' & Hdt' & Hrb' & Hq' & _).
  destruct (reflectivity_columns s rng) as [Hx Hxerr]. fold d in Hx, Hxerr.
  rewrite <- Hdl', <- Hdt', <- Hrb', <- Hq', Hdl, Hdt, Hrb in Hxerr.
  rewrite <- Hq' in Hx. fold dx in Hxerr.
  rewrite Hx, Hxerr. split; [reflexivity |]. split.
  - now rewrite length_fmap.
  - intros i qv Hqv. split; [exact Hqv |].
    now rewrite list_lookup_fmap, Hqv.
Qed.

(** C10. With [force_uniform_wavelength] the wavelength distribution is
    uniform with location [lo_wavelength - 1] and width
    [hi_wavelength - lo_wavelength + 1]: its support runs from one unit
    below the configured lower bound up to the configured upper bound, and
    every wavelength it yields lies there; it yields none, raising the
    domain error, when the width is negative. *)
Theorem uniform_wavelength_support (p : args) (s : t) :
  arg_force_uniform_wavelength p = true ->
  __init__ p = Ok s ->
  spectrum_dist s
  = uniform (lo_wavelength p - 1) (hi_wavelength p - lo_wavelength p + 1)
  /\ (support (spectrum_dist s)).1 = lo_wavelength p - 1
  /\ (support (spectrum_dist s)).2 == hi_wavelength p
  /\ (support (spectrum_dist s)).1 < lo_wavelength p
  /\ (forall n rng ws rng' w,
        wavelength_rvs (spectrum_dist s) n rng = Ok (ws, rng') ->
        w ∈ ws ->
        lo_wavelength p - 1 <= w /\ w <= hi_wavelength p)
  /\ forall n rng,
       if Qle_bool (lo_wavelength p - 1) (hi_wavelength p)
       then returned (wavelength_rvs (spectrum_dist s) n rng)
       else wavelength_rvs (spectrum_dist s) n rng = Raise domain_error.
Proof.
  intros Hforce Hinit.
  destruct (init_fields p s Hinit) as (_ & _ & _ & _ & _ & _ & _ & _ & _ & _ & Hsd).
  rewrite (Hsd Hforce). simpl. split; [reflexivity |].
  split; [reflexivity |]. split; [ring |]. split; [lra |].
  set (lo := lo_wavelength p). set (hi := hi_wavelength p).
  split.
  - intros n rng ws rng' w.
    destruct (Qle_bool 0 (hi - lo + 1)) eqn:Escale; [| discriminate].
    apply Qle_bool_iff in Escale. simpl.
    destruct (Qeq_bool (hi - lo + 1) 0) eqn:Ezero.
    + apply Qeq_bool_iff in Ezero. intros [= <- _] Hw.
      apply elem_of_replicate in Hw as [-> _]. split; lra.
    + pose proof (random_sample_range rng n) as Hu.
      unfold rng_uniform.
      destruct (random_sample rng n) as [u rng1]. simpl in *.
      intros [= <- _] Hw.
      apply list_elem_of_fmap in Hw as (v & -> & Hv).
      apply list_elem_of_fmap in Hv as (v0 & -> & Hv0).
      destruct (Hu v0 Hv0) as [H0 H1]. split; nra.
  - intros n rng.
    destruct (Qle_bool (lo - 1) hi) eqn:Erange.
    + apply Qle_bool_iff in Erange.
      assert (Escale : Qle_bool 0 (hi - lo + 1) = true)
        by (apply Qle_bool_iff; lra).
      rewrite Escale. simpl.
      destruct (Qeq_bool (hi - lo + 1) 0); [exact I |].
      destruct (rng_uniform rng 0 1 n). exact I.
    + apply Qle_bool_gt in Erange.
      assert (Escale : Qle_bool 0 (hi - lo + 1) = false)
        by (apply Qle_bool_gt; lra).
      now rewrite Escale.
Qed.

End constructor_facts.

(** ** Malformed configurations *)

Section malformed_configurations.
Context `{Collaborators}.
Import ReflectSimulator.

(** C9, as the code has it.  A zero-length spectrum table does make the
    construction of the spectrum distribution raise (the [ValueError] of
    [np.min]).  The constructor of the simulator validates nothing itself:
    whenever its collaborators return (at least one bin edge, a spectrum,
    slits and a divergence) it returns a simulator that holds the bin edges
    and the footprint as given, whatever their order or sign, and an
    angular distribution built from whatever [general.div] reports.  What
    is malformed is rejected only later, in every [run] and before any
    accumulator is written: by the argument check of [rvs] (the domain
    error) when a distribution has inadmissible parameters, as the
    trapezoid has whenever [alpha] is not positive, and else by
    [np.histogram] when the edges are not monotonic. *)
Theorem constructor_validates_nothing (p : args) bins s1 s2 dv al be :
  calculate_wavelength_bins (lo_wavelength p) (hi_wavelength p) (arg_rebin p)
  = Ok bins ->
  bins <> [] ->
  (arg_force_uniform_wavelength p = true
   \/ exists qs i di sd,
        arg_force_uniform_wavelength p = false
        /\ PN_process "PLP0000711.nx.hdf" 0.5
             (Qmax 0 (lo_wavelength p - 1)) (hi_wavelength p + 1)
           = Ok (qs, i, di)
        /\ SpectrumDist.__init__ qs i = Ok sd) ->
  general_slit_optimiser (arg_footprint p) (arg_dtheta p / 100) (arg_angle p)
    (L2S p) (L12 p) = Ok (s1, s2) ->
  general_div s1 s2 (L12 p) = Ok (dv, al, be) ->
  (exists s,
      __init__ p = Ok s
      /\ wavelength_bins s = bins
      /\ footprint s = arg_footprint p
      /\ angular_dist s
         = (if arg_force_gaussian p then norm (dv / 2.3548)
            else trapz (float_div ((al - be) / 2) al)
                       (float_div ((al + be) / 2) al) (- al) (2 * al))
      /\ (arg_force_gaussian p = false -> al <= 0 -> rvs_accept s = false)
      /\ forall n rs g,
           if rvs_accept s then
             if np.monotonic bins then returned (run s n rs g)
             else run s n rs g
                  = Raise (ValueError
                             "`bins` must increase monotonically, when an array")
           else run s n rs g = Raise domain_error)
  /\ forall y,
       SpectrumDist.__init__ [] y
       = Raise (ValueError
                  "zero-size array to reduction operation minimum which has no identity").
Proof.
  intros Hbins Hne Hspec Hslit Hdiv. split; [| reflexivity].
  assert (Hzeros : np.zeros (Z.of_nat (length bins) - 1)
                   = Ok (replicate (Z.to_nat (Z.of_nat (length bins) - 1)) 0%Z)).
  { unfold np.zeros. destruct bins as [| e bins]; [congruence |].
    destruct (Z.ltb_spec (Z.of_nat (length (e :: bins)) - 1) 0) as [Hlt | _];
      [| reflexivity].
    rewrite length_cons in Hlt. lia. }
  assert (Hrun : forall s : t, wavelength_bins s = bins ->
            forall n rs g,
              if rvs_accept s then
                if np.monotonic bins then returned (run s n rs g)
                else run s n rs g
                     = Raise (ValueError
                                "`bins` must increase monotonically, when an array")
              else run s n rs g = Raise domain_error).
  { intros s Hs n rs g. destruct (rvs_accept s) eqn:Hacc;
      [| apply run_refuses, Hacc].
    destruct (np.monotonic bins) eqn:Hmono.
    - rewrite <- Hs in Hmono.
      destruct (run_returns s n rs g Hacc Hmono) as (s' & g' & ->). exact I.
    - rewrite <- Hs in Hmono. apply run_raises; assumption. }
  assert (Hrefuse : forall wd,
            arg_force_gaussian p = false -> al <= 0 ->
            angular_argcheck
              (if arg_force_gaussian p then norm (dv / 2.3548)
               else trapz (float_div ((al - be) / 2) al)
                          (float_div ((al + be) / 2) al) (- al) (2 * al))
            && wavelength_argcheck wd = false).
  { intros wd Hfg Hal. rewrite Hfg. unfold float_div. simpl.
    destruct (Qeq_bool al 0) eqn:Ezero; [reflexivity |].
    apply Qeq_bool_neq in Ezero.
    assert (Escale : Qle_bool 0 (2 * al) = false)
      by (apply Qle_bool_gt; lra).
    rewrite Escale. now rewrite andb_false_r. }
  unfold __init__. rewrite Hbins. simpl. rewrite Hzeros. simpl.
  destruct Hspec as [Hforce | (qs & i & di & sd & Hforce & Hpn & Hsd)];
    rewrite Hforce; simpl.
  - rewrite Hslit. simpl. rewrite Hdiv. simpl.
    eexists. split; [reflexivity |]. simpl.
    split; [reflexivity |]. split; [reflexivity |]. split; [reflexivity |].
    split; [apply Hrefuse |].
    intros n rs g. now apply Hrun.
  - rewrite Hpn. simpl. rewrite Hsd. simpl.
    rewrite Hslit. simpl. rewrite Hdiv. simpl.
    eexists. split; [reflexivity |]. simpl.
    split; [reflexivity |]. split; [reflexivity |]. split; [reflexivity |].
    split; [apply Hrefuse |].
    intros n rs g. now apply Hrun.
Qed.

End malformed_configurations.

(** A negative footprint is accepted: the constructor returns. *)
Lemma negative_footprint_accepted :
  nonpositive_geometry Scenario.negative_footprint
  /\ ~ raised (ReflectSimulator.__init__ Scenario.negative_footprint)
  /\ exists s,
       ReflectSimulator.__init__ Scenario.negative_footprint = Ok s
       /\ ReflectSimulator.footprint s = -60.
Proof.
  split; [| split].
  - right. left. vm_compute. discriminate.
  - vm_compute. tauto.
  - eexists. split; vm_compute; reflexivity.
Qed.

Lemma constructor_validates_nothing_witness :
  (exists s,
      ReflectSimulator.__init__ Scenario.level = Ok s
      /\ ReflectSimulator.wavelength_bins s = [1; 2; 4; 8; 12]
      /\ ReflectSimulator.footprint s
         = ReflectSimulator.arg_footprint Scenario.level
      /\ ReflectSimulator.angular_dist s
         = trapz (float_div ((0 - 0) / 2) 0) (float_div ((0 + 0) / 2) 0)
             (- 0) (2 * 0)
      /\ (ReflectSimulator.arg_force_gaussian Scenario.level = false ->
          0 <= 0 -> rvs_accept s = false)
      /\ forall n rs g,
           if rvs_accept s then
             if np.monotonic [1; 2; 4; 8; 12]
             then returned (ReflectSimulator.run s n rs g)
             else ReflectSimulator.run s n rs g
                  = Raise (ValueError
                             "`bins` must increase monotonically, when an array")
           else ReflectSimulator.run s n rs g = Raise domain_error)
  /\ forall y,
       SpectrumDist.__init__ [] y
       = Raise (ValueError
                  "zero-size array to reduction operation minimum which has no identity").
Proof.
  eapply (constructor_validates_nothing Scenario.level _ 0 0 0 0 0).
  - vm_compute. reflexivity.
  - discriminate.
  - left. reflexivity.
  - vm_compute. reflexivity.
  - vm_compute. reflexivity.
Defined.

(** ** The resolution kernel *)

Section kernel_facts.
Context `{Collaborators}.
Import ReflectSimulator.

Lemma foldl_min_gt (c l0 : N) (ls : list N) :
  (c < foldl N.min l0 ls)%N <-> (c < l0)%N /\ Forall (fun l => (c < l)%N) ls.
Proof.
  revert l0. induction ls as [| l ls IH]; intros l0; simpl.
  - split; [intros Hc; split; [exact Hc | constructor] | tauto].
  - rewrite IH. rewrite Forall_cons. split.
    + intros [Hmin Hls]. repeat split; try assumption; lia.
    + intros (Hl0 & Hl & Hls). split; [lia | assumption].
Qed.

(** The gate of the kernel update is closed exactly when the kernel has an
    entry and every entry holds more than the cap. *)
Lemma kernel_full_spec (kernel : gmap nat (list Q)) :
  kernel_full kernel = true
  <-> kernel <> ∅
      /\ forall j v, kernel !! j = Some v -> (cap < N.of_nat (length v))%N.
Proof.
  unfold kernel_full. rewrite andb_true_iff, negb_true_iff.
  rewrite Nat.eqb_neq, map_size_non_empty_iff, N.ltb_lt.
  split; intros [Hne Hall]; (split; [exact Hne |]).
  - intros j v Hj. apply elem_of_map_to_list in Hj.
    destruct (map_to_list kernel) as [| [j0 v0] l] eqn:El;
      [inversion Hj |].
    simpl in Hall. apply foldl_min_gt in Hall as [H0 Hrest].
    apply elem_of_cons in Hj as [[= -> ->] | Hj]; [exact H0 |].
    rewrite Forall_forall in Hrest. apply Hrest.
    apply list_elem_of_fmap. exists v. split; [reflexivity |].
    apply list_elem_of_fmap. exists (j, v). split; [reflexivity | exact Hj].
  - destruct (map_to_list kernel) as [| [j0 v0] l] eqn:El.
    + apply map_to_list_empty_iff in El. contradiction.
    + simpl. apply foldl_min_gt. split.
      * apply (Hall j0). apply elem_of_map_to_list. rewrite El. left.
      * rewrite Forall_forall. intros x Hx.
        apply list_elem_of_fmap in Hx as (v & -> & Hv).
        apply list_elem_of_fmap in Hv as ([j v'] & -> & Hjv). simpl.
        apply (Hall j). apply elem_of_map_to_list. rewrite El.
        right. exact Hjv.
Qed.

(** The store of a bin after the update loop. *)
Lemma update_kernel_from (sel : nat -> list Q) (m : nat) :
  forall (start : nat) (kernel : gmap nat (list Q)) (j : nat),
    foldl
      (fun kernel i =>
         <[(i - 1)%nat :=
             float32 <$> (default [] (kernel !! (i - 1)%nat) ++ sel i)]> kernel)
      kernel (seq (S start) m) !! j
    = if decide (start <= j < start + m)%nat
      then Some (float32 <$> (default [] (kernel !! j) ++ sel (S j)))
      else kernel !! j.
Proof.
  induction m as [| m IH]; intros start kernel j; simpl.
  - destruct (decide (start <= j < start + 0)%nat); [lia | reflexivity].
  - rewrite IH. rewrite Nat.sub_0_r.
    destruct (decide (S start <= j < S start + m)%nat) as [Hin | Hout].
    + rewrite lookup_insert_ne by lia.
      destruct (decide (start <= j < start + S m)%nat); [reflexivity | lia].
    + destruct (decide (start = j)) as [<- | Hne].
      * rewrite lookup_insert_eq.
        destruct (decide (start <= start < start + S m)%nat);
          [reflexivity | lia].
      * rewrite lookup_insert_ne by exact Hne.
        destruct (decide (start <= j < start + S m)%nat); [lia | reflexivity].
Qed.

Lemma update_kernel_lookup bins bin_loc qs (kernel : gmap nat (list Q)) j :
  update_kernel bins bin_loc qs kernel !! j
  = if decide (j < length bins - 1)%nat
    then Some (float32
                 <$> (default [] (kernel !! j)
                      ++ np.mask qs ((fun l => l =? S j)%nat <$> bin_loc)))
    else kernel !! j.
Proof.
  unfold update_kernel.
  rewrite (update_kernel_from
             (fun i => np.mask qs ((fun l => l =? i)%nat <$> bin_loc))).
  destruct (decide (0 <= j < 0 + (length bins - 1))%nat),
    (decide (j < length bins - 1)%nat); try reflexivity; lia.
Qed.

(** A call made when every bin holds more than the cap leaves the kernel
    alone. *)
Lemma run_saturated (s : t) n rs g s' g' :
  kernel_full (_res_kernel s) = true ->
  run s n rs g = Ok (s', g') -> _res_kernel s' = _res_kernel s.
Proof.
  intros Hfull Hrun.
  apply run_Ok in Hrun as (bm & Hbm & hd & hr & _ & _ & _ & _ & Hk & _).
  now rewrite Hfull in Hk.
Qed.

Lemma runs_saturated (calls : list call) (s : t) g :
  kernel_full (_res_kernel s) = true ->
  _res_kernel (runs s g calls).1 = _res_kernel s.
Proof.
  revert s g. induction calls as [| c calls IH]; intros s g Hfull; simpl.
  - reflexivity.
  - destruct (run s (call_samples c) (call_random_state c) g)
      as [[s' g'] | e] eqn:Hrun; [| apply IH, Hfull].
    pose proof (run_saturated _ _ _ _ _ _ Hfull Hrun) as Hk.
    rewrite IH; [exact Hk | now rewrite Hk].
Qed.

(** C2, as the code has it.  Once every wavelength bin of the resolution
    kernel holds more than 500000 momentum transfers, no later [run] call
    changes the store of any bin, whereas each such call still adds the
    histograms of its batch to the direct and the reflected beam. *)
Theorem kernel_saturates (s : t) g (calls : list call) :
  _res_kernel s <> ∅ ->
  (forall j v, _res_kernel s !! j = Some v ->
               (500000 < N.of_nat (length v))%N) ->
  (forall j, _res_kernel (runs s g calls).1 !! j = _res_kernel s !! j)
  /\ forall n rs g0,
       match run s n rs g0 with
       | Ok (s', _) =>
           _res_kernel s' = _res_kernel s
           /\ exists bm hd hr,
                sample s n (check_random_state g0 rs) = Ok bm
                /\ np.histogram (jittered_wavelengths bm) (wavelength_bins s)
                   = Ok hd
                /\ np.histogram
                     (np.mask (jittered_wavelengths bm) (accepted bm))
                     (wavelength_bins s) = Ok hr
                /\ direct_beam s' = zip_with Z.add (direct_beam s) hd
                /\ reflected_beam s' = zip_with Z.add (reflected_beam s) hr
       | Raise _ => True
       end.
Proof.
  intros Hne Hall.
  assert (Hfull : kernel_full (_res_kernel s) = true).
  { apply kernel_full_spec. split; assumption. }
  split.
  - intros j. now rewrite runs_saturated.
  - intros n rs g0.
    destruct (run s n rs g0) as [[s' g'] | e] eqn:Hrun; [| exact I].
    split; [eapply run_saturated; eassumption |].
    apply run_Ok in Hrun as (bm & Hbm & hd & hr & Hd & Hr & Hd' & Hr' & _).
    exists bm, hd, hr. auto.
Qed.

End kernel_facts.

(** ** A bin above the cap that keeps growing *)

Section flooded_bin.
Import ReflectSimulator.

Lemma mask_replicate {A} (n : nat) (x : A) (b : bool) :
  np.mask (replicate n x) (replicate n b)
  = if b then replicate n x else [].
Proof.
  induction n as [| n IH]; simpl; [now destruct b |].
  rewrite IH. now destruct b.
Qed.

Lemma play_idle (n : nat) : Scripted.play [] n = (replicate n 8%nat, []).
Proof.
  unfold Scripted.play. simpl. rewrite Nat.sub_0_r, take_replicate.
  rewrite Nat.min_id. now destruct n.
Qed.

Lemma random_sample_idle (n : nat) :
  random_sample Scenario.idle n
  = (replicate n (Scripted.unit_of 8), Scenario.idle).
Proof.
  change (Scripted.random_sample [] n
          = (replicate n (Scripted.unit_of 8), [])).
  unfold Scripted.random_sample. now rewrite play_idle, fmap_replicate.
Qed.

Lemma standard_normal_idle (n : nat) :
  standard_normal Scenario.idle n
  = (replicate n (Scripted.normal_of 8), Scenario.idle).
Proof.
  change (Scripted.standard_normal [] n
          = (replicate n (Scripted.normal_of 8), [])).
  unfold Scripted.standard_normal. now rewrite play_idle, fmap_replicate.
Qed.

(** With nothing scripted every sample of a batch is the same. *)
Lemma idle_batch (s : t) :
  rvs_accept s = true ->
  exists a w qv rv c acc e j,
    forall n,
      sample s n Scenario.idle
      = Ok {| angles := replicate n a; wavelengths := replicate n w;
              batch_q := replicate n qv; r := replicate n rv;
              criterion := replicate n c; accepted := replicate n acc;
              noise := replicate n e; jittered_wavelengths := replicate n j;
              rng_after := Scenario.idle |}.
Proof.
  unfold rvs_accept. intros Hacc. apply andb_prop in Hacc as [Ha Hw].
  unfold sample.
  destruct (angular_dist s) as [scale | [c |] [d |] loc scale];
    try discriminate;
    destruct (spectrum_dist s) as [wloc wscale | sd];
    unfold angular_rvs, wavelength_rvs, SpectrumDist.rvs, rng_uniform;
    rewrite ?Ha, ?Hw; cbn [negb];
    destruct (Qeq_bool scale 0); try destruct (Qeq_bool wscale 0);
    destruct (force_gaussian s);
    do 8 eexists; intros n;
    repeat (rewrite ?random_sample_idle, ?standard_normal_idle;
            cbv beta iota zeta delta [mbind result_bind]);
    repeat (progress rewrite ?fmap_replicate, ?zip_with_replicate);
    reflexivity.
Qed.

(** With nothing scripted every sample of the coarse instrument has the
    wavelength 9/2 and falls into the third bin, from 4 to 8.  After a
    first call of 500001 samples that bin holds more than the cap while the
    other bins are empty, and a second call of one sample makes it grow. *)
Lemma capped_bin_keeps_growing :
  exists s0 s1 s2 g1 g2 v1 v2,
    __init__ Scenario.coarse = Ok s0
    /\ run s0 Scenario.flood (rs_instance Scenario.idle) Scenario.idle
       = Ok (s1, g1)
    /\ _res_kernel s1 !! 2%nat = Some v1
    /\ (500000 < N.of_nat (length v1))%N
    /\ run s1 1 (rs_instance Scenario.idle) Scenario.idle = Ok (s2, g2)
    /\ _res_kernel s2 !! 2%nat = Some v2
    /\ (length v1 < length v2)%nat.
Proof.
  remember Scenario.flood as n eqn:Hn.
  destruct (__init__ Scenario.coarse) as [s0 | ex] eqn:Hinit;
    [| vm_compute in Hinit; discriminate].
  pose proof Hinit as Hs0. vm_compute in Hs0. injection Hs0 as Hs0.
  assert (Hbins : wavelength_bins s0 = [1; 2; 4; 8; 12])
    by (rewrite <- Hs0; reflexivity).
  assert (Hempty : _res_kernel s0 = ∅) by (rewrite <- Hs0; reflexivity).
  assert (Hacc : rvs_accept s0 = true)
    by (rewrite <- Hs0; vm_compute; reflexivity).
  destruct (idle_batch s0 Hacc) as (a & w & qv & rv & c & acc & e & j & Hb).
  assert (Hj : np.digitize j [1; 2; 4; 8; 12] = 3%nat).
  { pose proof (f_equal (fun b => match b with
                                  | Ok b => jittered_wavelengths b
                                  | Raise _ => []
                                  end) (Hb 1%nat)) as H1.
    rewrite <- Hs0 in H1. vm_compute in H1. injection H1 as <-.
    vm_compute. reflexivity. }
  assert (Hmono : np.monotonic (wavelength_bins s0) = true)
    by (rewrite Hbins; vm_compute; reflexivity).
  destruct (run_returns s0 n (rs_instance Scenario.idle) Scenario.idle
              Hacc Hmono) as (s1 & g1 & Hrun1).
  pose proof Hrun1 as Hrun1'.
  apply run_Ok in Hrun1'
    as (bm1 & Hbm1 & _ & _ & _ & _ & _ & _ & Hk1 & _ & Hcfg1).
  simpl check_random_state in Hbm1. rewrite Hb in Hbm1.
  apply Ok_inj in Hbm1. subst bm1. simpl in Hk1.
  rewrite Hempty, Hbins in Hk1.
  change (kernel_full ∅) with false in Hk1.
  rewrite !fmap_replicate, Hj in Hk1.
  assert (Hbin2 : _res_kernel s1 !! 2%nat = Some (replicate n (float32 qv))).
  { rewrite Hk1, update_kernel_lookup. simpl.
    rewrite fmap_replicate, mask_replicate, lookup_empty. simpl.
    now rewrite fmap_replicate. }
  assert (Hbin0 : _res_kernel s1 !! 0%nat = Some []).
  { rewrite Hk1, update_kernel_lookup. simpl.
    rewrite fmap_replicate, mask_replicate, lookup_empty. reflexivity. }
  assert (Hopen : kernel_full (_res_kernel s1) = false).
  { destruct (kernel_full (_res_kernel s1)) eqn:Hfull; [| reflexivity].
    apply kernel_full_spec in Hfull as [_ Hall].
    specialize (Hall _ _ Hbin0). simpl in Hall. unfold cap in Hall. lia. }
  pose proof (same_configuration_bins _ _ Hcfg1) as Hbins1.
  pose proof (same_configuration_accept _ _ Hcfg1) as Hacc1.
  rewrite Hbins1 in Hmono. rewrite Hacc in Hacc1. symmetry in Hacc1.
  destruct (run_returns s1 1 (rs_instance Scenario.idle) Scenario.idle
              Hacc1 Hmono) as (s2 & g2 & Hrun2).
  pose proof Hrun2 as Hrun2'.
  apply run_Ok in Hrun2'
    as (bm2 & Hbm2 & _ & _ & _ & _ & _ & _ & Hk2 & _ & _).
  simpl check_random_state in Hbm2.
  rewrite <- (sample_configuration s0 s1 1 _ Hcfg1), Hb in Hbm2.
  apply Ok_inj in Hbm2. subst bm2.
  simpl in Hk2. rewrite Hopen, <- Hbins1, Hbins in Hk2. rewrite Hj in Hk2.
  assert (Hbin2' : _res_kernel s2 !! 2%nat
                   = Some (float32 <$> (replicate n (float32 qv) ++ [qv]))).
  { rewrite Hk2, update_kernel_lookup. simpl. now rewrite Hbin2. }
  exists s0, s1, s2, g1, g2. eexists. eexists.
  split; [reflexivity |]. split; [exact Hrun1 |]. split; [exact Hbin2 |].
  split; [| split; [exact Hrun2 | split; [exact Hbin2' |]]].
  - rewrite length_replicate, Hn. unfold Scenario.flood.
    rewrite N2Nat.id. reflexivity.
  - rewrite length_fmap, length_app, length_replicate. simpl. lia.
Qed.

End flooded_bin.

(** ** The properties on the scenarios *)

Lemma kernel_saturates_witness :
  exists s0,
    ReflectSimulator.__init__ Scenario.coarse = Ok s0
    /\ let s := ReflectSimulator.set_res_kernel s0 Scenario.saturated_kernel in
       (forall j,
           ReflectSimulator._res_kernel
             (ReflectSimulator.runs s Scenario.idle Scenario.two_calls).1 !! j
           = ReflectSimulator._res_kernel s !! j)
       /\ forall n rs g0,
            match ReflectSimulator.run s n rs g0 with
            | Ok (s', _) =>
                ReflectSimulator._res_kernel s' = ReflectSimulator._res_kernel s
                /\ exists bm hd hr,
                     ReflectSimulator.sample s n (check_random_state g0 rs)
                     = Ok bm
                     /\ np.histogram
                          (ReflectSimulator.jittered_wavelengths bm)
                          (ReflectSimulator.wavelength_bins s) = Ok hd
                     /\ np.histogram
                          (np.mask (ReflectSimulator.jittered_wavelengths bm)
                             (ReflectSimulator.accepted bm))
                          (ReflectSimulator.wavelength_bins s) = Ok hr
                     /\ ReflectSimulator.direct_beam s'
                        = zip_with Z.add (ReflectSimulator.direct_beam s) hd
                     /\ ReflectSimulator.reflected_beam s'
                        = zip_with Z.add (ReflectSimulator.reflected_beam s) hr
            | Raise _ => True
            end.
Proof.
  eexists. split.
  - vm_compute. reflexivity.
  - apply (kernel_saturates
             (ReflectSimulator.set_res_kernel _ Scenario.saturated_kernel)
             Scenario.idle Scenario.two_calls).
    + cbn [ReflectSimulator._res_kernel ReflectSimulator.set_res_kernel].
      unfold Scenario.saturated_kernel. apply insert_non_empty.
    + cbn [ReflectSimulator._res_kernel ReflectSimulator.set_res_kernel].
      unfold Scenario.saturated_kernel.
      assert (Hflood : N.of_nat Scenario.flood = 500001%N)
        by (unfold Scenario.flood; apply N2Nat.id).
      revert Hflood. generalize Scenario.flood as m. intros m Hflood j v Hjv.
      repeat (rewrite lookup_insert in Hjv;
              destruct (decide (_ = j)) as [<- | _];
              [injection Hjv as <-; rewrite length_replicate, Hflood;
               reflexivity |]).
      rewrite lookup_empty in Hjv. discriminate.
Defined.

Lemma run_deterministic_witness :
  exists s0,
    ReflectSimulator.__init__ Scenario.coarse = Ok s0
    /\ let s2 :=
         (ReflectSimulator.runs s0 Scenario.idle Scenario.two_calls).1 in
       ReflectSimulator.run s0 4 (rs_int 11) Scenario.idle
       = ReflectSimulator.run s0 4 (rs_int 11) Scenario.script5
       /\ match ReflectSimulator.run s0 4 (rs_int 11) Scenario.idle,
                ReflectSimulator.run s2 4 (rs_int 11) Scenario.script5 with
          | Ok (s1', r1), Ok (s2', r2) =>
              r1 = r2
              /\ exists hd hr bin_loc qs,
                   ReflectSimulator.direct_beam s1'
                   = zip_with Z.add (ReflectSimulator.direct_beam s0) hd
                   /\ ReflectSimulator.direct_beam s2'
                      = zip_with Z.add (ReflectSimulator.direct_beam s2) hd
                   /\ ReflectSimulator.reflected_beam s1'
                      = zip_with Z.add (ReflectSimulator.reflected_beam s0) hr
                   /\ ReflectSimulator.reflected_beam s2'
                      = zip_with Z.add (ReflectSimulator.reflected_beam s2) hr
                   /\ ReflectSimulator._res_kernel s1' =
                        (if ReflectSimulator.kernel_full
                              (ReflectSimulator._res_kernel s0)
                         then ReflectSimulator._res_kernel s0
                         else ReflectSimulator.update_kernel
                                (ReflectSimulator.wavelength_bins s0)
                                bin_loc qs (ReflectSimulator._res_kernel s0))
                   /\ ReflectSimulator._res_kernel s2' =
                        (if ReflectSimulator.kernel_full
                              (ReflectSimulator._res_kernel s0)
                         then ReflectSimulator._res_kernel s2
                         else ReflectSimulator.update_kernel
                                (ReflectSimulator.wavelength_bins s0)
                                bin_loc qs (ReflectSimulator._res_kernel s2))
          | Raise e1, Raise e2 => e1 = e2
          | _, _ => False
          end.
Proof.
  eexists. split.
  - vm_compute. reflexivity.
  - apply (run_deterministic _ _ 4 11 Scenario.idle Scenario.script5).
    + vm_compute. reflexivity.
    + vm_compute. reflexivity.
Defined.

Lemma accepted_iff_below_reflectivity_witness :
  exists s0,
    ReflectSimulator.__init__ Scenario.coarse = Ok s0
    /\ match ReflectSimulator.sample s0 5
               (check_random_state Scenario.idle
                  (rs_instance Scenario.script5)) with
       | Ok bm => ReflectSimulator.accepted bm
       | Raise _ => []
       end = [true; true; false; false; true]
    /\ match ReflectSimulator.sample s0 5
               (check_random_state Scenario.idle
                  (rs_instance Scenario.script5)) with
       | Ok bm =>
           length (ReflectSimulator.accepted bm) = 5%nat
           /\ (forall i, (i < 5)%nat ->
                 exists u qv,
                   ReflectSimulator.criterion bm !! i = Some u
                   /\ ReflectSimulator.batch_q bm !! i = Some qv
                   /\ 0 <= u /\ u < 1
                   /\ ReflectSimulator.accepted bm !! i
                      = Some (Qltb u
                                (model_call (ReflectSimulator.model s0) qv))
                   /\ (ReflectSimulator.accepted bm !! i = Some true
                       <-> u < model_call (ReflectSimulator.model s0) qv))
           /\ match ReflectSimulator.run s0 5 (rs_instance Scenario.script5)
                      Scenario.idle with
              | Ok (s', _) =>
                  exists hr,
                    np.histogram
                      (np.mask (ReflectSimulator.jittered_wavelengths bm)
                         (ReflectSimulator.accepted bm))
                      (ReflectSimulator.wavelength_bins s0) = Ok hr
                    /\ ReflectSimulator.reflected_beam s'
                       = zip_with Z.add (ReflectSimulator.reflected_beam s0)
                           hr
              | Raise _ => True
              end
       | Raise e =>
           ReflectSimulator.run s0 5 (rs_instance Scenario.script5)
             Scenario.idle = Raise e
       end.
Proof.
  eexists. split; [vm_compute; reflexivity |].
  split; [vm_compute; reflexivity |].
  apply (accepted_iff_below_reflectivity _ 5
           (rs_instance Scenario.script5) Scenario.idle).
Defined.

Lemma wavelength_jitter_witness :
  exists s0,
    ReflectSimulator.__init__ Scenario.coarse = Ok s0
    /\ match ReflectSimulator.sample s0 5
               (check_random_state Scenario.idle
                  (rs_instance Scenario.script5)) with
       | Ok bm => length (ReflectSimulator.jittered_wavelengths bm)
       | Raise _ => 0%nat
       end = 5%nat
    /\ match ReflectSimulator.sample s0 5
               (check_random_state Scenario.idle
                  (rs_instance Scenario.script5)) with
       | Ok bm =>
           length (ReflectSimulator.wavelengths bm) = 5%nat
           /\ length (ReflectSimulator.jittered_wavelengths bm) = 5%nat
           /\ (exists rng,
                 ReflectSimulator.noise bm
                 = if ReflectSimulator.force_gaussian s0
                   then (standard_normal rng 5).1
                   else (rng_uniform rng (-0.5) 0.5 5).1)
           /\ (forall i, (i < 5)%nat ->
                 exists w e,
                   ReflectSimulator.wavelengths bm !! i = Some w
                   /\ ReflectSimulator.noise bm !! i = Some e
                   /\ (if ReflectSimulator.force_gaussian s0 then True
                       else -0.5 <= e /\ e < 0.5)
                   /\ ReflectSimulator.jittered_wavelengths bm !! i
                      = Some (if ReflectSimulator.force_gaussian s0
                              then w * (1 + ReflectSimulator.dlambda s0
                                            / 2.3548 * e)
                              else w * (1 + ReflectSimulator.dlambda s0
                                            / 0.68 * e)))
           /\ match ReflectSimulator.run s0 5 (rs_instance Scenario.script5)
                      Scenario.idle with
              | Ok (s', _) =>
                  exists hd,
                    np.histogram (ReflectSimulator.jittered_wavelengths bm)
                      (ReflectSimulator.wavelength_bins s0) = Ok hd
                    /\ ReflectSimulator.direct_beam s'
                       = zip_with Z.add (ReflectSimulator.direct_beam s0) hd
              | Raise _ => True
              end
       | Raise e =>
           ReflectSimulator.run s0 5 (rs_instance Scenario.script5)
             Scenario.idle = Raise e
       end.
Proof.
  eexists. split; [vm_compute; reflexivity |].
  split; [vm_compute; reflexivity |].
  apply (wavelength_jitter _ 5 (rs_instance Scenario.script5) Scenario.idle).
Defined.

Lemma resolution_width_witness :
  exists s0,
    ReflectSimulator.__init__ Scenario.coarse = Ok s0
    /\ let s :=
         (ReflectSimulator.runs s0 Scenario.idle Scenario.two_calls).1 in
       let d := (ReflectSimulator.reflectivity s Scenario.idle).1 in
       let dx :=
         np_sqrt ((0 / 100) ^ 2 + (3.3 / 100) ^ 2 + (0.68 * (100 / 100)) ^ 2) in
       ReflectDataset.x d = ReflectSimulator.q s0
       /\ length (ReflectDataset.x_err d) = length (ReflectSimulator.q s0)
       /\ forall i qv,
            ReflectSimulator.q s0 !! i = Some qv ->
            ReflectDataset.x d !! i = Some qv
            /\ ReflectDataset.x_err d !! i = Some (dx * qv).
Proof.
  eexists. split; [vm_compute; reflexivity |].
  apply (resolution_width Scenario.coarse _ Scenario.idle Scenario.two_calls
           Scenario.idle).
  vm_compute. reflexivity.
Defined.

Lemma uniform_wavelength_support_witness :
  exists s,
    ReflectSimulator.__init__ Scenario.coarse = Ok s
    /\ ReflectSimulator.spectrum_dist s = uniform (2 - 1) (8 - 2 + 1)
    /\ (support (ReflectSimulator.spectrum_dist s)).1 = 2 - 1
    /\ (support (ReflectSimulator.spectrum_dist s)).2 == 8
    /\ (support (ReflectSimulator.spectrum_dist s)).1 < 2
    /\ (forall n rng ws rng' w,
          wavelength_rvs (ReflectSimulator.spectrum_dist s) n rng
          = Ok (ws, rng') ->
          w ∈ ws -> 2 - 1 <= w /\ w <= 8)
    /\ forall n rng,
         if Qle_bool (2 - 1) 8
         then returned
                (wavelength_rvs (ReflectSimulator.spectrum_dist s) n rng)
         else wavelength_rvs (ReflectSimulator.spectrum_dist s) n rng
              = Raise domain_error.
Proof.
  eexists. split; [vm_compute; reflexivity |].
  apply (uniform_wavelength_support Scenario.coarse).
  - reflexivity.
  - vm_compute. reflexivity.
Defined.

(** ** The spectrum distribution *)

Section spectrum_facts.
Context `{Collaborators}.

Lemma foldl_min_le_max (l : list Q) (u v : Q) :
  u <= v -> foldl Qmin u l <= foldl Qmax v l.
Proof.
  revert u v. induction l as [| x l IH]; intros u v Huv; simpl.
  - exact Huv.
  - apply IH. pose proof (Q.le_min_r u x). pose proof (Q.le_max_r v x). lra.
Qed.

(** What the constructor of the distribution stores. *)
Lemma spectrum_init (x y : list Q) (sd : SpectrumDist.t) :
  SpectrumDist.__init__ x y = Ok sd ->
  np.min x = Ok (SpectrumDist.a sd)
  /\ np.max x = Ok (SpectrumDist.b sd)
  /\ SpectrumDist.a sd <= SpectrumDist.b sd
  /\ IUS x ((fun v => v / simps y x) <$> y) = Ok (SpectrumDist.spl sd)
  /\ SpectrumDist.fudge_factor sd
     = spl_integral (SpectrumDist.spl sd)
         (SpectrumDist.a sd) (SpectrumDist.b sd)
  /\ SpectrumDist._x_interpolated_cdf sd
     = np.linspace (SpectrumDist.a sd) (SpectrumDist.b sd) 1000
  /\ SpectrumDist._interpolated_cdf sd
     = SpectrumDist.cdf sd
         <$> np.linspace (SpectrumDist.a sd) (SpectrumDist.b sd) 1000.
Proof.
  unfold SpectrumDist.__init__. intros Hinit. bind_inv Hinit.
  rewrite E in E2. apply Ok_inj in E2 as <-.
  rewrite E0 in E3. apply Ok_inj in E3 as <-.
  apply Ok_inj in Hinit.
  assert (Ha : SpectrumDist.a sd = u) by (rewrite <- Hinit; reflexivity).
  assert (Hb : SpectrumDist.b sd = u0) by (rewrite <- Hinit; reflexivity).
  assert (Hs : SpectrumDist.spl sd = u1) by (rewrite <- Hinit; reflexivity).
  rewrite Ha, Hb, Hs.
  split; [exact E |]. split; [exact E0 |]. split; [| split; [exact E1 |]].
  - destruct x as [| x0 x]; [discriminate |].
    apply Ok_inj in E as <-. apply Ok_inj in E0 as <-.
    apply foldl_min_le_max. lra.
  - split; [| split].
    + rewrite <- Hinit. reflexivity.
    + rewrite <- Hinit. reflexivity.
    + rewrite <- Hinit at 1.
      change (SpectrumDist.cdf
                {| SpectrumDist.a := u; SpectrumDist.b := u0;
                   SpectrumDist._x := x;
                   SpectrumDist._y := (fun v => v / simps y x) <$> y;
                   SpectrumDist.spl := u1;
                   SpectrumDist.fudge_factor := spl_integral u1 u u0;
                   SpectrumDist._x_interpolated_cdf := np.linspace u u0 1000;
                   SpectrumDist._interpolated_cdf := [] |}
                <$> np.linspace u u0 1000
              = SpectrumDist.cdf sd <$> np.linspace u u0 1000).
      f_equal. unfold SpectrumDist.cdf, SpectrumDist._cdf.
      rewrite Ha, Hb, Hs.
      assert (Hf : SpectrumDist.fudge_factor sd = spl_integral u1 u u0)
        by (rewrite <- Hinit; reflexivity).
      now rewrite Hf.
Qed.







End spectrum_facts.

(** ** Interpolating into an increasing table *)

Section interpolation.

Lemma climbs_le (h hi : Q) (grid : list Q) :
  forall x0, climbs h hi x0 grid -> x0 <= hi.
Proof.
  induction grid as [| x1 rest IH]; intros x0; simpl.
  - intros ->. lra.
  - intros (Hle & _ & Hrest). specialize (IH x1 Hrest). lra.
Qed.

(** Looking up [F w] in the table of [F] over a climbing grid lands within
    one step of [w], when [F] is increasing on the span of the grid. *)
Lemma interp_search_climbs (F : Q -> Q) (lo hi h : Q) :
  0 <= h ->
  (forall u v, lo <= u -> u <= v -> v <= hi -> F u <= F v) ->
  (forall u v, lo <= u -> u < v -> v <= hi -> F u < F v) ->
  forall grid x0 w,
    lo <= x0 -> x0 <= w -> w <= hi -> climbs h hi x0 grid ->
    Qabs (np.interp_search (F w) (F x0) x0 (F <$> grid) grid - w) <= h.
Proof.
  intros Hh Hmono Hstrict.
  induction grid as [| x1 rest IH]; intros x0 w Hlo Hx0 Hhi Hclimb.
  - simpl in Hclimb. cbn [np.interp_search fmap list_fmap].
    apply Qabs_Qle_condition. rewrite Hclimb in *. split; lra.
  - rewrite fmap_cons. cbn [np.interp_search].
    destruct Hclimb as (Hstep & Hgap & Hrest).
    pose proof (climbs_le _ _ _ _ Hrest) as Hx1.
    destruct (Qle_bool (F x1) (F w)) eqn:E1.
    + apply Qle_bool_iff in E1.
      assert (Hx1w : x1 <= w).
      { destruct (Qlt_le_dec w x1) as [Hlt | Hle]; [| exact Hle].
        assert (F w < F x1) by (apply Hstrict; lra). lra. }
      apply IH; try assumption. lra.
    + apply Qle_bool_gt in E1.
      assert (Hwx1 : w < x1).
      { destruct (Qlt_le_dec w x1) as [Hlt | Hle]; [exact Hlt |].
        assert (F x1 <= F w) by (apply Hmono; lra). lra. }
      destruct (Qeq_bool (F x0) (F w)) eqn:E2.
      * apply Qabs_Qle_condition. split; lra.
      * assert (H0w : F x0 <= F w) by (apply Hmono; lra).
        set (t := (F w - F x0) / (F x1 - F x0)).
        assert (Ht0 : 0 <= t).
        { unfold t. apply Qle_shift_div_l; lra. }
        assert (Ht1 : t <= 1).
        { unfold t. apply Qle_shift_div_r; lra. }
        assert (Hres : (x1 - x0) / (F x1 - F x0) * (F w - F x0) + x0
                       == (x1 - x0) * t + x0).
        { unfold t. field. lra. }
        rewrite Hres. apply Qabs_Qle_condition. split; nra.
Qed.

Lemma linspace_unfold (lo hi : Q) (n : nat) :
  np.linspace lo hi (S (S n))
  = (inject_Z 0 * ((hi - lo) / inject_Z (Z.of_nat (S n))) + lo)
    :: ((fun i : nat =>
           inject_Z (Z.of_nat i) * ((hi - lo) / inject_Z (Z.of_nat (S n)))
           + lo) <$> seq 1 n)
       ++ [hi].
Proof. reflexivity. Qed.

(** The evenly spaced grid climbs from its first point to [hi] in steps of
    [(hi - lo) / n]. *)
Lemma climbs_linspace_from (lo hi : Q) (T : nat) :
  lo <= hi -> (0 < T)%nat ->
  forall m k,
    (k + m + 1 = T)%nat ->
    climbs ((hi - lo) / inject_Z (Z.of_nat T)) hi
      (inject_Z (Z.of_nat k) * ((hi - lo) / inject_Z (Z.of_nat T)) + lo)
      (((fun i : nat =>
           inject_Z (Z.of_nat i) * ((hi - lo) / inject_Z (Z.of_nat T)) + lo)
          <$> seq (S k) m)
         ++ [hi]).
Proof.
  intros Hlh HT.
  assert (HTq : 0 < inject_Z (Z.of_nat T)).
  { change 0 with (inject_Z 0). rewrite <- Zlt_Qlt. lia. }
  set (step := (hi - lo) / inject_Z (Z.of_nat T)).
  set (g := fun i : nat => inject_Z (Z.of_nat i) * step + lo).
  assert (Hstep : 0 <= step).
  { unfold step. apply Qle_shift_div_l; lra. }
  assert (Hsucc : forall k : nat,
             inject_Z (Z.of_nat (S k)) == inject_Z (Z.of_nat k) + 1).
  { intros k. rewrite Nat2Z.inj_succ. unfold Z.succ.
    rewrite inject_Z_plus. reflexivity. }
  assert (Hg : forall k : nat, g (S k) == g k + step).
  { intros k. unfold g. rewrite (Hsucc k). ring. }
  assert (Hend : hi == g T).
  { unfold g, step. field. lra. }
  change (forall m k, (k + m + 1 = T)%nat ->
            climbs step hi (g k) ((g <$> seq (S k) m) ++ [hi])).
  induction m as [| m IH]; intros k Hk.
  - cbn [seq fmap list_fmap app climbs].
    assert (HkT : hi == g k + step).
    { rewrite <- Hg. replace (S k) with T by lia. exact Hend. }
    split; [lra |]. split; [lra | reflexivity].
  - cbn [seq fmap list_fmap app climbs]. pose proof (Hg k) as Hgk.
    split; [lra |]. split; [lra |].
    apply IH. lia.
Qed.

End interpolation.

(** ** The approximate quantile *)

Section quantile.
Context `{Collaborators}.

(** C4, as the code has it.  When the cumulative function of a constructed
    distribution is increasing on the support (non-decreasing, and strictly
    increasing between distinct points), the quantile of the cumulative of
    any point [w] of the support is within one spacing of the 1000-point
    grid of [w]: the error is at most the support range divided by 999. *)
Theorem quantile_of_cumulative (x y : list Q) (sd : SpectrumDist.t) :
  SpectrumDist.__init__ x y = Ok sd ->
  (forall u v, SpectrumDist.a sd <= u -> u <= v -> v <= SpectrumDist.b sd ->
               SpectrumDist.cdf sd u <= SpectrumDist.cdf sd v) ->
  (forall u v, SpectrumDist.a sd <= u -> u < v -> v <= SpectrumDist.b sd ->
               SpectrumDist.cdf sd u < SpectrumDist.cdf sd v) ->
  forall w,
    SpectrumDist.a sd <= w -> w <= SpectrumDist.b sd ->
    Qabs (SpectrumDist._ppf sd (SpectrumDist.cdf sd w) - w)
    <= (SpectrumDist.b sd - SpectrumDist.a sd) / 999.
Proof.
  intros Hinit Hmono Hstrict w Hwa Hwb.
  destruct (spectrum_init x y sd Hinit) as (_ & _ & Hab & _ & _ & Hgrid & Hicdf).
  unfold SpectrumDist._ppf. rewrite Hgrid, Hicdf.
  rewrite (linspace_unfold (SpectrumDist.a sd) (SpectrumDist.b sd) 998).
  rewrite fmap_cons. cbn [np.interp].
  set (F := SpectrumDist.cdf sd) in *.
  set (lo := SpectrumDist.a sd) in *. set (hi := SpectrumDist.b sd) in *.
  set (step := (hi - lo) / inject_Z (Z.of_nat 999)).
  set (g0 := inject_Z 0 * step + lo).
  assert (Hg0 : g0 == lo) by (unfold g0; change (inject_Z 0) with 0; ring).
  assert (Hstep : 0 <= step).
  { unfold step. apply Qle_shift_div_l; [reflexivity | lra]. }
  destruct (Qltb (F w) (F g0)) eqn:E.
  - apply Qltb_lt in E.
    assert (F g0 <= F w) by (apply Hmono; lra). lra.
  - change ((hi - lo) / 999) with step.
    apply (interp_search_climbs F lo hi step Hstep Hmono Hstrict);
      try lra.
    apply (climbs_linspace_from lo hi 999 Hab ltac:(lia) 998 0 ltac:(lia)).
Qed.

End quantile.

(** ** The spectrum distribution on the scripted spline *)

Section scripted_spectrum.

Lemma spectrum_returns `{Collaborators} (x y : list Q) lo hi spl :
  np.min x = Ok lo -> np.max x = Ok hi ->
  IUS x ((fun v => v / simps y x) <$> y) = Ok spl ->
  exists sd, SpectrumDist.__init__ x y = Ok sd.
Proof.
  intros Hmin Hmax Hspl. unfold SpectrumDist.__init__.
  rewrite Hmin, Hmax, Hspl.
  repeat (rewrite bind_ret; cbv beta).
  eexists. reflexivity.
Qed.

(** A distribution built from a table over 0, 1, 2, 3 by the scripted
    collaborators. *)
Lemma scripted_spectrum (y0 y1 y2 y3 : Q) :
  let area := Scripted.simps [y0; y1; y2; y3] Scenario.table_wavelengths in
  let p := Scripted.cubic 0 1 2 3 (y0 / area) (y1 / area) (y2 / area)
             (y3 / area) in
  exists sd,
    SpectrumDist.__init__ Scenario.table_wavelengths [y0; y1; y2; y3] = Ok sd
    /\ SpectrumDist.a sd = 0 /\ SpectrumDist.b sd = 3
    /\ SpectrumDist.fudge_factor sd = Scripted.integral p 0 3
    /\ (forall u, SpectrumDist._cdf sd u
                  = Scripted.integral p 0 u / Scripted.integral p 0 3)
    /\ SpectrumDist._x_interpolated_cdf sd = np.linspace 0 3 1000
    /\ SpectrumDist._interpolated_cdf sd
       = SpectrumDist.cdf sd <$> np.linspace 0 3 1000.
Proof.
  intros area p.
  assert (Hspl : IUS Scenario.table_wavelengths
                   ((fun v => v / simps [y0; y1; y2; y3]
                                    Scenario.table_wavelengths)
                      <$> [y0; y1; y2; y3])
                 = Ok (Scripted.polynomial_spline p)) by reflexivity.
  destruct (spectrum_returns Scenario.table_wavelengths [y0; y1; y2; y3]
              0 3 _ eq_refl eq_refl Hspl) as [sd Hsd].
  exists sd. split; [exact Hsd |].
  destruct (spectrum_init _ _ _ Hsd) as (Ha & Hb & _ & Hs & Hf & Hg & Hi).
  apply Ok_inj in Ha. apply Ok_inj in Hb.
  rewrite Hspl in Hs. apply Ok_inj in Hs.
  rewrite <- Ha, <- Hb, <- Hs in Hf. rewrite <- Ha, <- Hb in Hg, Hi.
  repeat split; try (symmetry; assumption); try assumption.
  intros u. unfold SpectrumDist._cdf. now rewrite Hf, <- Hs, <- Ha.
Qed.

End scripted_spectrum.

(** The cubic through the peaked table dips below zero between the
    wavelengths 0 and 1, so the cumulative function is negative at
    wavelength 1 (it is -5/27); the table lookup clamps that to the lower
    support bound, and the quantile of the cumulative of 1 is 0: an error
    of a third of the support range. *)
Lemma undershoot_breaks_quantile :
  valid_table Scenario.table_wavelengths Scenario.peaked_intensities
  /\ exists sd,
       SpectrumDist.__init__ Scenario.table_wavelengths
         Scenario.peaked_intensities = Ok sd
       /\ SpectrumDist.a sd <= 1 /\ 1 <= SpectrumDist.b sd
       /\ SpectrumDist.b sd - SpectrumDist.a sd == 3
       /\ SpectrumDist.cdf sd 1 == - (5 # 27)
       /\ SpectrumDist._ppf sd (SpectrumDist.cdf sd 1) == 0
       /\ ~ Qabs (SpectrumDist._ppf sd (SpectrumDist.cdf sd 1) - 1)
            <= 0.001 * (SpectrumDist.b sd - SpectrumDist.a sd).
Proof.
  split.
  - split; [reflexivity |]. split.
    + simpl. repeat split; reflexivity.
    + repeat constructor; discriminate.
  - destruct (scripted_spectrum 0 0 1 0)
      as (sd & Hsd & Ha & Hb & Hf & Hcdf & Hg & Hi).
    exists sd. split; [exact Hsd |].
    assert (Hc : SpectrumDist.cdf sd 1 == - (5 # 27)).
    { unfold SpectrumDist.cdf. rewrite Ha, Hb, Hcdf.
      vm_compute. reflexivity. }
    assert (Hq : SpectrumDist._ppf sd (SpectrumDist.cdf sd 1) == 0).
    { unfold SpectrumDist._ppf. rewrite Hg, Hi.
      rewrite (linspace_unfold 0 3 998), fmap_cons. cbn [np.interp].
      set (g0 := inject_Z 0 * ((3 - 0) / inject_Z (Z.of_nat 999)) + 0).
      assert (H0 : SpectrumDist.cdf sd g0 = 0).
      { unfold SpectrumDist.cdf. rewrite Ha, Hb. reflexivity. }
      assert (E : Qltb (SpectrumDist.cdf sd 1) (SpectrumDist.cdf sd g0) = true).
      { apply Qltb_lt. rewrite H0, Hc. reflexivity. }
      rewrite E. reflexivity. }
    rewrite Ha, Hb. split; [lra |]. split; [lra |]. split; [ring |].
    split; [exact Hc |]. split; [exact Hq |].
    rewrite Hq. intros Hle. vm_compute in Hle. apply Hle. reflexivity.
Qed.

Lemma quantile_of_cumulative_witness :
  exists sd,
    SpectrumDist.__init__ Scenario.table_wavelengths Scenario.flat_intensities
    = Ok sd
    /\ forall w,
         SpectrumDist.a sd <= w -> w <= SpectrumDist.b sd ->
         Qabs (SpectrumDist._ppf sd (SpectrumDist.cdf sd w) - w)
         <= (SpectrumDist.b sd - SpectrumDist.a sd) / 999.
Proof.
  destruct (scripted_spectrum 1 1 1 1)
    as (sd & Hsd & Ha & Hb & Hf & Hcdf & Hg & Hi).
  exists sd. split; [exact Hsd |].
  assert (Hline : forall u, 0 <= u -> u <= 3 -> SpectrumDist.cdf sd u == u / 3).
  { intros u H0 H3. unfold SpectrumDist.cdf. rewrite Ha, Hb.
    destruct (Qle_bool 3 u) eqn:E3.
    - apply Qle_bool_iff in E3. assert (Hu : u == 3) by lra.
      rewrite Hu. reflexivity.
    - destruct (Qltb 0 u) eqn:E0.
      + rewrite Hcdf. unfold Scripted.integral, Scripted.cubic.
        assert (Harea : Scripted.simps [1; 1; 1; 1] Scenario.table_wavelengths
                        == 3) by (vm_compute; reflexivity).
        set (area := Scripted.simps [1; 1; 1; 1] Scenario.table_wavelengths)
          in *.
        field. lra.
      + apply Qltb_ge in E0. assert (Hu : u == 0) by lra.
        rewrite Hu. reflexivity. }
  apply (quantile_of_cumulative Scenario.table_wavelengths
           Scenario.flat_intensities sd Hsd).
  - intros u v Hu Huv Hv. rewrite Ha in Hu. rewrite Hb in Hv.
    rewrite !Hline by lra. unfold Qdiv.
    apply Qmult_le_compat_r; [exact Huv | discriminate].
  - intros u v Hu Huv Hv. rewrite Ha in Hu. rewrite Hb in Hv.
    rewrite !Hline by lra. unfold Qdiv.
    apply Qmult_lt_compat_r; [reflexivity | exact Huv].
Defined.



(** ** Totals and shapes of the accumulators *)

Section histogram_totals.

Lemma length_cum_n (a bins : list Q) :
  length (np.cum_n a bins) = length bins.
Proof.
  induction bins as [| e0 [| e1 rest] IH]; [reflexivity | reflexivity |].
  change (np.cum_n a (e0 :: e1 :: rest))
    with (np.searchsorted_left a e0 :: np.cum_n a (e1 :: rest)).
  rewrite !length_cons in *. now rewrite IH.
Qed.

Lemma length_diff (c : list Z) : length (np.diff c) = (length c - 1)%nat.
Proof.
  induction c as [| c0 [| c1 rest] IH]; [reflexivity | reflexivity |].
  change (np.diff (c0 :: c1 :: rest))
    with ((c1 - c0)%Z :: np.diff (c1 :: rest)).
  rewrite !length_cons in *. rewrite IH. lia.
Qed.

Lemma length_histogram (a bins : list Q) (hist : list Z) :
  np.histogram a bins = Ok hist -> length hist = (length bins - 1)%nat.
Proof.
  unfold np.histogram. destruct (np.monotonic bins); [| discriminate].
  intros [= <-]. now rewrite length_diff, length_cum_n.
Qed.

(** The counts of a histogram telescope. *)
Lemma total_diff (c0 : Z) (c : list Z) (cl : Z) :
  last (c0 :: c) = Some cl -> total (np.diff (c0 :: c)) = (cl - c0)%Z.
Proof.
  revert c0. induction c as [| c1 c IH]; intros c0 Hlast.
  - injection Hlast as <-. simpl. lia.
  - rewrite last_cons_cons in Hlast.
    change (total (np.diff (c0 :: c1 :: c)))
      with ((c1 - c0) + total (np.diff (c1 :: c)))%Z.
    rewrite (IH c1 Hlast). lia.
Qed.

Lemma cum_n_ends (a : list Q) (e0 e1 : Q) (rest : list Q) (hi : Q) :
  last (e0 :: e1 :: rest) = Some hi ->
  exists c,
    np.cum_n a (e0 :: e1 :: rest) = np.searchsorted_left a e0 :: c
    /\ last (np.searchsorted_left a e0 :: c)
       = Some (np.searchsorted_right a hi).
Proof.
  revert e0 e1. induction rest as [| e2 rest IH]; intros e0 e1 Hlast.
  - injection Hlast as <-. eexists. split; reflexivity.
  - rewrite last_cons_cons in Hlast.
    destruct (IH e1 e2 Hlast) as (c & Hc & Hl).
    exists (np.cum_n a (e1 :: e2 :: rest)). split; [reflexivity |].
    rewrite Hc, last_cons_cons. exact Hl.
Qed.

Lemma monotonic_ends (e0 : Q) (rest : list Q) (hi : Q) :
  np.monotonic (e0 :: rest) = true -> last (e0 :: rest) = Some hi ->
  e0 <= hi.
Proof.
  revert e0. induction rest as [| e1 rest IH]; intros e0 Hmono Hlast.
  - injection Hlast as <-. lra.
  - change (np.monotonic (e0 :: e1 :: rest))
      with (Qle_bool e0 e1 && np.monotonic (e1 :: rest)) in Hmono.
    apply andb_prop in Hmono as [He Hrest]. apply Qle_bool_iff in He.
    rewrite last_cons_cons in Hlast. specialize (IH e1 Hrest Hlast). lra.
Qed.

Lemma count_within (lo hi : Q) (a : list Q) :
  lo <= hi ->
  (np.searchsorted_right a hi - np.searchsorted_left a lo)%Z
  = np.count (within lo hi) a.
Proof.
  intros Hle. unfold np.searchsorted_right, np.searchsorted_left, within.
  induction a as [| x a IH]; [reflexivity |]. simpl.
  destruct (Qle_bool x hi) eqn:Ehi, (Qltb x lo) eqn:Elo,
    (Qle_bool lo x) eqn:Ex; simpl;
    try apply Qle_bool_iff in Ehi; try apply Qle_bool_gt in Ehi;
    try apply Qltb_lt in Elo; try apply Qltb_ge in Elo;
    try apply Qle_bool_iff in Ex; try apply Qle_bool_gt in Ex;
    try lia; exfalso; lra.
Qed.

(** A histogram over at least two edges counts exactly the values between
    its outermost edges, both included. *)
Lemma total_histogram (a bins : list Q) (hist : list Z) (lo hi : Q) :
  np.histogram a bins = Ok hist ->
  (2 <= length bins)%nat -> head bins = Some lo -> last bins = Some hi ->
  total hist = np.count (within lo hi) a.
Proof.
  unfold np.histogram. destruct (np.monotonic bins) eqn:Hmono; [| discriminate].
  intros [= <-] Hlen Hhead Hlast.
  destruct bins as [| e0 [| e1 rest]]; simpl in Hlen; try lia.
  injection Hhead as ->.
  destruct (cum_n_ends a lo e1 rest hi Hlast) as (c & -> & Hl).
  rewrite (total_diff _ _ _ Hl).
  apply count_within. eapply monotonic_ends; eassumption.
Qed.

Lemma count_le_length {A} (p : A -> bool) (a : list A) :
  (np.count p a <= Z.of_nat (length a))%Z.
Proof.
  induction a as [| x a IH]; simpl; [lia |]. destruct (p x); lia.
Qed.

Lemma diff_cum_n_nonneg (a bins : list Q) :
  np.monotonic bins = true -> Forall (Z.le 0) (np.diff (np.cum_n a bins)).
Proof.
  intros Hmono.
  pose proof (diff_cum_n_mask a [] bins Hmono) as Hle.
  rewrite mask_nil in Hle.
  assert (Hzero : forall c, Forall (fun z => z = 0%Z)
                              (np.diff (np.cum_n [] c))).
  { clear. intros c. induction c as [| e0 [| e1 rest] IH];
      [constructor | constructor |].
    change (np.cum_n [] (e0 :: e1 :: rest))
      with (np.searchsorted_left [] e0 :: np.cum_n [] (e1 :: rest)).
    destruct (np.cum_n [] (e1 :: rest)) as [| c1 cs] eqn:Ec.
    - constructor.
    - change (np.diff (np.searchsorted_left [] e0 :: c1 :: cs))
        with ((c1 - np.searchsorted_left [] e0)%Z :: np.diff (c1 :: cs)).
      constructor; [| exact IH].
      destruct rest; simpl in Ec; injection Ec as <- _; reflexivity. }
  specialize (Hzero bins).
  revert Hle Hzero. generalize (np.diff (np.cum_n [] bins)).
  induction (np.diff (np.cum_n a bins)) as [| h hs IH]; intros zs Hle Hz.
  - constructor.
  - inversion Hle as [| z ? zs' ? Hzh Hrest]; subst.
    inversion Hz as [| ? ? Hz0 Hzs]; subst.
    constructor; [lia | eapply IH; eassumption].
Qed.

Lemma histogram_nonneg (a bins : list Q) (hist : list Z) :
  np.histogram a bins = Ok hist -> Forall (Z.le 0) hist.
Proof.
  unfold np.histogram. destruct (np.monotonic bins) eqn:Hmono; [| discriminate].
  intros [= <-]. apply diff_cum_n_nonneg, Hmono.
Qed.

Lemma total_zip_add (d h : list Z) :
  length d = length h -> total (zip_with Z.add d h) = (total d + total h)%Z.
Proof.
  revert h. induction d as [| x d IH]; intros [| y h] Hlen;
    simpl in *; try lia.
  rewrite IH by lia. lia.
Qed.

Lemma total_nonneg (c : list Z) : Forall (Z.le 0) c -> (0 <= total c)%Z.
Proof. induction 1; simpl; lia. Qed.

Lemma total_le (c d : list Z) : Forall2 Z.le c d -> (total c <= total d)%Z.
Proof. induction 1; simpl; lia. Qed.

Lemma zip_add_grows (d h : list Z) :
  length d = length h -> Forall (Z.le 0) h ->
  Forall2 Z.le d (zip_with Z.add d h).
Proof.
  revert h. induction d as [| x d IH]; intros [| y h] Hlen Hh;
    simpl in *; try lia; [constructor |].
  inversion Hh; subst. constructor; [lia | apply IH; [lia | assumption]].
Qed.

End histogram_totals.

Section accumulator_facts.
Context `{Collaborators}.
Import ReflectSimulator.

Lemma init_aligned (p : args) (s : t) :
  __init__ p = Ok s ->
  aligned s /\ (1 <= length (wavelength_bins s))%nat.
Proof.
  intros Hinit.
  pose proof (init_beams p s Hinit) as (Hd & Hr & _).
  pose proof (init_fields p s Hinit)
    as (_ & _ & _ & _ & _ & _ & _ & _ & _ & Hq & _).
  assert (Hpos : (1 <= length (wavelength_bins s))%nat).
  { unfold __init__, np.zeros in Hinit. bind_inv Hinit.
    injection Hinit as <-. simpl.
    destruct (Z.of_nat (length u) - 1 <? 0)%Z eqn:Eneg; [discriminate |].
    apply Z.ltb_ge in Eneg. lia. }
  split; [| exact Hpos].
  unfold aligned. cbv zeta. rewrite Hr, Hd, Hq.
  rewrite length_replicate, length_fmap, length_zip_with, length_tl.
  assert (Hrl : forall l : list Q, length (removelast l) = (length l - 1)%nat).
  { clear. induction l as [| x [| y l] IH]; [reflexivity | reflexivity |].
    change (removelast (x :: y :: l)) with (x :: removelast (y :: l)).
    rewrite !length_cons in *. rewrite IH. lia. }
  rewrite Hrl. lia.
Qed.

Lemma run_aligned (s : t) n rs g s' g' :
  aligned s -> run s n rs g = Ok (s', g') -> aligned s'.
Proof.
  intros (Hq & Hd & Hr) Hrun.
  apply run_Ok in Hrun as (bm & Hbm & hd & hr & Ehd & Ehr & Ed & Er & _ & _ & Hcfg).
  apply length_histogram in Ehd, Ehr.
  pose proof (same_configuration_bins _ _ Hcfg) as Hbins.
  pose proof (same_configuration_fields _ _ Hcfg) as (_ & _ & _ & Hqq & _).
  unfold aligned. cbv zeta in *. rewrite <- Hbins, <- Hqq, Ed, Er.
  rewrite !length_zip_with. lia.
Qed.

Lemma runs_aligned (calls : list call) (s : t) g :
  aligned s -> aligned (runs s g calls).1.
Proof.
  revert s g. induction calls as [| c calls IH]; intros s g Hal; simpl.
  - exact Hal.
  - destruct (run s (call_samples c) (call_random_state c) g)
      as [[s' g'] | e] eqn:Hrun; [| apply IH, Hal].
    apply IH. eapply run_aligned; eassumption.
Qed.

(** X1. For the whole life of a constructed simulator the momentum
    transfers, the direct-beam counts and the reflected-beam counts hold
    one entry per wavelength bin, that is one fewer than there are bin
    edges, and there is at least one edge. *)
Theorem arrays_stay_aligned (p : args) (s0 : t) g (calls : list call) :
  __init__ p = Ok s0 ->
  let s := (runs s0 g calls).1 in
  let nbins := (length (wavelength_bins s0) - 1)%nat in
  (1 <= length (wavelength_bins s0))%nat
  /\ wavelength_bins s = wavelength_bins s0
  /\ length (q s) = nbins
  /\ length (direct_beam s) = nbins
  /\ length (reflected_beam s) = nbins
  /\ length (ReflectDataset.x (reflectivity s g).1) = nbins.
Proof.
  intros Hinit s nbins.
  destruct (init_aligned p s0 Hinit) as [Hal Hpos].
  pose proof (runs_aligned calls s0 g Hal) as (Hq & Hd & Hr).
  pose proof (same_configuration_bins _ _ (runs_configuration calls s0 g))
    as Hbins.
  fold s in Hq, Hd, Hr, Hbins. cbv zeta in Hq, Hd, Hr.
  destruct (reflectivity_columns s g) as [Hx _]. cbv zeta in Hx.
  rewrite Hx. unfold nbins. repeat split; assumption || congruence.
Qed.

(** *** Counts only grow *)

Lemma run_grows (s : t) n rs g s' g' :
  aligned s -> run s n rs g = Ok (s', g') ->
  Forall2 Z.le (direct_beam s) (direct_beam s')
  /\ Forall2 Z.le (reflected_beam s) (reflected_beam s').
Proof.
  intros (Hq & Hd & Hr) Hrun.
  apply run_Ok in Hrun as (bm & Hbm & hd & hr & Ehd & Ehr & -> & -> & _).
  pose proof (length_histogram _ _ _ Ehd) as Lhd.
  pose proof (length_histogram _ _ _ Ehr) as Lhr.
  apply histogram_nonneg in Ehd, Ehr. cbv zeta in *.
  split; apply zip_add_grows; congruence || assumption.
Qed.

Lemma Forall2_le_refl (c : list Z) : Forall2 Z.le c c.
Proof. induction c; constructor; [lia | assumption]. Qed.

Lemma Forall2_le_trans (c d e : list Z) :
  Forall2 Z.le c d -> Forall2 Z.le d e -> Forall2 Z.le c e.
Proof.
  intros Hcd. revert e. induction Hcd; intros e He; inversion He; subst;
    constructor; [lia | auto].
Qed.

Lemma runs_grow (calls : list call) (s : t) g :
  aligned s ->
  Forall2 Z.le (direct_beam s) (direct_beam (runs s g calls).1)
  /\ Forall2 Z.le (reflected_beam s) (reflected_beam (runs s g calls).1).
Proof.
  revert s g. induction calls as [| c calls IH]; intros s g Hal; simpl.
  - split; apply Forall2_le_refl.
  - destruct (run s (call_samples c) (call_random_state c) g)
      as [[s' g'] | e] eqn:Hrun; [| apply IH, Hal].
    destruct (run_grows _ _ _ _ _ _ Hal Hrun) as [Hd Hr].
    destruct (IH s' (match call_random_state c with
                     | rs_None => g' | _ => g end)
                (run_aligned _ _ _ _ _ _ Hal Hrun)) as [Hd' Hr'].
    split; eapply Forall2_le_trans; eassumption.
Qed.

(** X2. The accumulators of a constructed simulator never count down:
    whatever calls were made before, further calls leave in every bin a
    direct-beam count and a reflected-beam count at least as large as
    before, and no count is ever negative. *)
Theorem counts_never_decrease (p : args) (s0 : t) g g'
    (calls more : list call) :
  __init__ p = Ok s0 ->
  let s := (runs s0 g calls).1 in
  let s' := (runs s g' more).1 in
  forall i,
    (forall d, direct_beam s !! i = Some d ->
       exists d', direct_beam s' !! i = Some d' /\ (0 <= d <= d')%Z)
    /\ (forall r, reflected_beam s !! i = Some r ->
          exists r', reflected_beam s' !! i = Some r' /\ (0 <= r <= r')%Z).
Proof.
  intros Hinit s s' i.
  destruct (init_aligned p s0 Hinit) as [Hal0 _].
  pose proof (runs_aligned calls s0 g Hal0) as Hal. fold s in Hal.
  destruct (runs_grow more s g' Hal) as [Hd Hr]. fold s' in Hd, Hr.
  destruct (runs_grow calls s0 g Hal0) as [Hd0 Hr0]. fold s in Hd0, Hr0.
  destruct (init_beams p s0 Hinit) as (Ed & Er & _).
  rewrite Er, Ed in Hr0. rewrite Ed in Hd0.
  split.
  - intros d Hi.
    destruct (Forall2_lookup_l _ _ _ _ _ Hd Hi) as (d' & Hd' & Hle).
    destruct (Forall2_lookup_r _ _ _ _ _ Hd0 Hi) as (z & Hz & Hzd).
    apply lookup_replicate in Hz as [-> _]. exists d'. split; [exact Hd' | lia].
  - intros r Hi.
    destruct (Forall2_lookup_l _ _ _ _ _ Hr Hi) as (r' & Hr' & Hle).
    destruct (Forall2_lookup_r _ _ _ _ _ Hr0 Hi) as (z & Hz & Hzd).
    apply lookup_replicate in Hz as [-> _]. exists r'. split; [exact Hr' | lia].
Qed.

(** *** Totals *)

(** X3. One returning call on an instrument with at least one bin adds to
    the direct-beam counts, in total, exactly the number of samples whose
    jittered wavelength lies between the first and the last bin edge, both
    included; samples outside the edges are dropped, and the reflected-beam
    counts gain the accepted ones among those inside. *)
Theorem run_counts_samples_within (p : args) (s0 : t) g (calls : list call)
    n rs g1 s' g' lo hi :
  __init__ p = Ok s0 ->
  let s := (runs s0 g calls).1 in
  run s n rs g1 = Ok (s', g') ->
  (2 <= length (wavelength_bins s))%nat ->
  head (wavelength_bins s) = Some lo ->
  last (wavelength_bins s) = Some hi ->
  exists bm,
    sample s n (check_random_state g1 rs) = Ok bm
    /\ total (direct_beam s')
       = (total (direct_beam s)
          + np.count (within lo hi) (jittered_wavelengths bm))%Z
    /\ total (reflected_beam s')
       = (total (reflected_beam s)
          + np.count (within lo hi)
              (np.mask (jittered_wavelengths bm) (accepted bm)))%Z.
Proof.
  intros Hinit s Hrun Hlen Hhead Hlast.
  destruct (init_aligned p s0 Hinit) as [Hal0 _].
  pose proof (runs_aligned calls s0 g Hal0) as (_ & Hd & Hr).
  fold s in Hd, Hr. cbv zeta in Hd, Hr.
  apply run_Ok in Hrun as (bm & Hbm & hd & hr & Ehd & Ehr & -> & -> & _).
  exists bm. split; [exact Hbm |].
  pose proof (length_histogram _ _ _ Ehd) as Lhd.
  pose proof (length_histogram _ _ _ Ehr) as Lhr.
  rewrite !total_zip_add by congruence.
  rewrite (total_histogram _ _ _ lo hi Ehd Hlen Hhead Hlast).
  rewrite (total_histogram _ _ _ lo hi Ehr Hlen Hhead Hlast).
  split; reflexivity.
Qed.

Lemma run_total (s : t) n rs g s' g' :
  aligned s -> run s n rs g = Ok (s', g') ->
  (total (direct_beam s') <= total (direct_beam s) + Z.of_nat n)%Z.
Proof.
  intros (_ & Hd & _) Hrun. cbv zeta in Hd.
  apply run_Ok in Hrun as (bm & Hbm & hd & hr & Ehd & _ & -> & _).
  pose proof (length_histogram _ _ _ Ehd) as Lhd.
  rewrite total_zip_add by congruence.
  destruct (sample_lengths s n _ bm Hbm) as (_ & _ & _ & _ & _ & Hj).
  destruct (wavelength_bins s) as [| e0 [| e1 rest]] eqn:Ebins.
  - destruct hd; [simpl; lia | discriminate].
  - destruct hd; [simpl; lia | discriminate].
  - destruct (last (e0 :: e1 :: rest)) as [hi |] eqn:Elast;
      [| rewrite last_cons_cons in Elast; apply last_None in Elast;
         discriminate ].
    rewrite (total_histogram _ _ _ e0 hi Ehd ltac:(simpl; lia) eq_refl Elast).
    pose proof (count_le_length (within e0 hi) (jittered_wavelengths bm)).
    lia.
Qed.

Lemma runs_total (calls : list call) (s : t) g :
  aligned s ->
  (total (direct_beam (runs s g calls).1)
   <= total (direct_beam s) + requested calls)%Z.
Proof.
  revert s g. induction calls as [| c calls IH]; intros s g Hal.
  - unfold requested. simpl. lia.
  - assert (Hreq : requested (c :: calls)
                   = (Z.of_nat (call_samples c) + requested calls)%Z)
      by reflexivity.
    assert (Hnn : (0 <= Z.of_nat (call_samples c))%Z) by lia.
    cbn [runs].
    destruct (run s (call_samples c) (call_random_state c) g)
      as [[s' g'] | e] eqn:Hrun.
    + pose proof (run_total _ _ _ _ _ _ Hal Hrun) as Hstep.
      pose proof (IH s' (match call_random_state c with
                         | rs_None => g' | _ => g end)
                    (run_aligned _ _ _ _ _ _ Hal Hrun)) as Hrest.
      lia.
    + pose proof (IH s g Hal). lia.
Qed.

(** X4. The counts of a constructed simulator never exceed what was asked
    for: after any sequence of calls the reflected-beam total is at most
    the direct-beam total, which is at most the number of samples
    requested by all the calls together. *)
Theorem totals_bounded_by_requests (p : args) (s0 : t) g
    (calls : list call) :
  __init__ p = Ok s0 ->
  let s := (runs s0 g calls).1 in
  (0 <= total (reflected_beam s) <= total (direct_beam s))%Z
  /\ (total (direct_beam s) <= requested calls)%Z.
Proof.
  intros Hinit s.
  destruct (init_aligned p s0 Hinit) as [Hal0 _].
  destruct (init_beams p s0 Hinit) as (Ed & Er & _).
  pose proof (runs_total calls s0 g Hal0) as Htot. fold s in Htot.
  assert (Hz : total (direct_beam s0) = 0%Z).
  { rewrite Ed. generalize (Z.to_nat (Z.of_nat (length (wavelength_bins s0)) - 1)).
    intros m. induction m as [| m IH]; [reflexivity |]. simpl. rewrite IH.
    reflexivity. }
  assert (Hle : Forall2 Z.le (reflected_beam s) (direct_beam s)).
  { apply runs_conserve. rewrite Er. apply Forall2_le_refl. }
  destruct (runs_grow calls s0 g Hal0) as [_ Hr0]. fold s in Hr0.
  apply total_le in Hle, Hr0. rewrite Er, Hz in Hr0. lia.
Qed.

End accumulator_facts.

(** ** Extreme samples *)

Section extreme_models.
Context `{Collaborators}.
Import ReflectSimulator.

Lemma mask_none {A} (a : list A) (m : list bool) :
  Forall (fun b => b = false) m -> np.mask a m = [].
Proof.
  intros Hm. revert a. induction Hm as [| b m -> Hm IH]; intros [| x a];
    simpl; auto.
Qed.

Lemma mask_all {A} (a : list A) (m : list bool) :
  length a = length m -> Forall (fun b => b = true) m -> np.mask a m = a.
Proof.
  intros Hlen Hm. revert a Hlen.
  induction Hm as [| b m -> Hm IH]; intros [| x a] Hlen;
    simpl in *; try lia; [reflexivity |].
  rewrite IH by lia. reflexivity.
Qed.

(** The acceptance draws of a batch are uniform variates. *)
Lemma criterion_range (s : t) n rng bm v :
  sample s n rng = Ok bm -> v ∈ criterion bm -> 0 <= v /\ v < 1.
Proof.
  intros Hbm.
  destruct (sample_anatomy s n rng bm Hbm)
    as (a0 & rng1 & w & rng2 & c & rng3 & e & rng4 & _ & _ & Hc & _ & ->).
  simpl. intros Hv.
  apply (rng_uniform_range rng2 0 1 n v); [reflexivity |].
  rewrite Hc. exact Hv.
Qed.

Lemma accepted_anatomy (s : t) n rng bm :
  sample s n rng = Ok bm ->
  exists qs,
    accepted bm = zip_with Qltb (criterion bm) (model_call (model s) <$> qs).
Proof.
  intros Hbm.
  destruct (sample_anatomy s n rng bm Hbm)
    as (a0 & rng1 & w & rng2 & c & rng3 & e & rng4 & _ & _ & _ & _ & ->).
  simpl. eauto.
Qed.

Lemma zip_Qltb_none (f : Q -> Q) (c qs : list Q) :
  (forall v, v ∈ c -> 0 <= v /\ v < 1) -> (forall qv, f qv <= 0) ->
  Forall (fun b => b = false) (zip_with Qltb c (f <$> qs)).
Proof.
  intros Hc Hf. revert qs.
  induction c as [| v c IH]; intros [| qv qs]; simpl; try constructor.
  - apply Qltb_ge. specialize (Hf qv).
    destruct (Hc v ltac:(left)) as [Hv _]. lra.
  - apply IH. intros v' Hv'. apply Hc. now right.
Qed.

Lemma zip_Qltb_all (f : Q -> Q) (c qs : list Q) :
  (forall v, v ∈ c -> 0 <= v /\ v < 1) -> (forall qv, 1 <= f qv) ->
  Forall (fun b => b = true) (zip_with Qltb c (f <$> qs)).
Proof.
  intros Hc Hf. revert qs.
  induction c as [| v c IH]; intros [| qv qs]; simpl; try constructor.
  - apply Qltb_lt. specialize (Hf qv).
    destruct (Hc v ltac:(left)) as [_ Hv]. lra.
  - apply IH. intros v' Hv'. apply Hc. now right.
Qed.

Lemma histogram_of_nothing (bins : list Q) (hist : list Z) :
  np.histogram [] bins = Ok hist -> Forall (fun z => z = 0%Z) hist.
Proof.
  unfold np.histogram. destruct (np.monotonic bins); [| discriminate].
  intros [= <-].
  induction bins as [| e0 [| e1 rest] IH]; [constructor | constructor |].
  change (np.cum_n [] (e0 :: e1 :: rest))
    with (np.searchsorted_left [] e0 :: np.cum_n [] (e1 :: rest)).
  destruct (np.cum_n [] (e1 :: rest)) as [| c1 cs] eqn:Ec.
  - constructor.
  - change (np.diff (np.searchsorted_left [] e0 :: c1 :: cs))
      with ((c1 - np.searchsorted_left [] e0)%Z :: np.diff (c1 :: cs)).
    constructor; [| exact IH].
    destruct rest; simpl in Ec; injection Ec as <- _; reflexivity.
Qed.

Lemma zip_add_zero (d h : list Z) :
  length d = length h -> Forall (fun z => z = 0%Z) h ->
  zip_with Z.add d h = d.
Proof.
  intros Hlen Hh. revert d Hlen.
  induction Hh as [| z h -> Hh IH]; intros [| x d] Hlen;
    simpl in *; try lia; [reflexivity |].
  rewrite IH by lia. f_equal. lia.
Qed.

Lemma runs_model (calls : list call) (s : t) g :
  model (runs s g calls).1 = model s.
Proof.
  symmetry. exact (f_equal model (runs_configuration calls s g)).
Qed.

Lemma run_reflects_nothing (s : t) n rs g s' g' :
  aligned s -> (forall qv, model_call (model s) qv <= 0) ->
  run s n rs g = Ok (s', g') -> reflected_beam s' = reflected_beam s.
Proof.
  intros (_ & _ & Hr) Hzero Hrun. cbv zeta in Hr.
  apply run_Ok in Hrun as (bm & Hbm & hd & hr & _ & Ehr & _ & -> & _).
  destruct (accepted_anatomy s n _ bm Hbm) as [qs Hacc].
  rewrite mask_none in Ehr.
  - pose proof (length_histogram _ _ _ Ehr) as Lhr.
    apply zip_add_zero; [congruence |].
    eapply histogram_of_nothing, Ehr.
  - rewrite Hacc. apply zip_Qltb_none; [| exact Hzero].
    intros v Hv. eapply criterion_range; eassumption.
Qed.

Lemma run_reflects_all (s : t) n rs g s' g' :
  (forall qv, 1 <= model_call (model s) qv) ->
  run s n rs g = Ok (s', g') ->
  reflected_beam s = direct_beam s -> reflected_beam s' = direct_beam s'.
Proof.
  intros Hone Hrun Heq.
  apply run_Ok in Hrun as (bm & Hbm & hd & hr & Ehd & Ehr & -> & -> & _).
  destruct (accepted_anatomy s n _ bm Hbm) as [qs Hacc].
  destruct (sample_lengths s n _ bm Hbm) as (_ & _ & _ & La & _ & Lj).
  rewrite mask_all in Ehr.
  - rewrite Heq. congruence.
  - congruence.
  - rewrite Hacc. apply zip_Qltb_all; [| exact Hone].
    intros v Hv. eapply criterion_range; eassumption.
Qed.

(** X5. A sample whose reflectivity is nowhere positive reflects nothing:
    after any sequence of calls every reflected-beam count of the
    simulator is still zero, whatever the generators drew. *)
Theorem dark_sample_reflects_nothing (p : args) (s0 : t) g
    (calls : list call) :
  __init__ p = Ok s0 ->
  (forall qv, model_call (arg_model p) qv <= 0) ->
  reflected_beam (runs s0 g calls).1
  = replicate (length (wavelength_bins s0) - 1) 0%Z.
Proof.
  intros Hinit Hzero.
  destruct (init_aligned p s0 Hinit) as [Hal0 _].
  destruct (init_beams p s0 Hinit) as (Ed & Er & _).
  destruct (init_fields p s0 Hinit) as (Hm & _).
  assert (Hkeep : forall calls s g,
             aligned s -> model s = arg_model p ->
             reflected_beam (runs s g calls).1 = reflected_beam s).
  { clear - Hzero. induction calls as [| c calls IH]; intros s g Hal Hm.
    - reflexivity.
    - cbn [runs].
      destruct (run s (call_samples c) (call_random_state c) g)
        as [[s' g'] | e] eqn:Hrun; [| apply IH; assumption].
      assert (Hz : forall qv, model_call (model s) qv <= 0)
        by (rewrite Hm; exact Hzero).
      rewrite IH.
      + eapply run_reflects_nothing; eassumption.
      + eapply run_aligned; eassumption.
      + apply run_Ok in Hrun as (bm & Hbm & _ & _ & _ & _ & _ & _ & _ & _ & Hcfg).
        rewrite <- Hm. symmetry. exact (f_equal model Hcfg). }
  rewrite (Hkeep calls s0 g Hal0 Hm), Er, Ed. f_equal. lia.
Qed.

(** X6. A sample whose reflectivity is at least one everywhere reflects
    every neutron: after any sequence of calls the reflected-beam counts
    equal the direct-beam counts, bin by bin. *)
Theorem perfect_mirror_reflects_all (p : args) (s0 : t) g
    (calls : list call) :
  __init__ p = Ok s0 ->
  (forall qv, 1 <= model_call (arg_model p) qv) ->
  reflected_beam (runs s0 g calls).1 = direct_beam (runs s0 g calls).1.
Proof.
  intros Hinit Hone.
  destruct (init_beams p s0 Hinit) as (_ & Er & _).
  destruct (init_fields p s0 Hinit) as (Hm & _).
  revert Er Hm. generalize s0 g. clear Hinit s0 g.
  induction calls as [| c calls IH]; intros s g Er Hm.
  - exact Er.
  - cbn [runs].
    destruct (run s (call_samples c) (call_random_state c) g)
      as [[s' g'] | e] eqn:Hrun; [| apply IH; assumption].
    apply IH.
    + eapply run_reflects_all; [| exact Hrun | exact Er].
      rewrite Hm. exact Hone.
    + apply run_Ok in Hrun as (bm & Hbm & _ & _ & _ & _ & _ & _ & _ & _ & Hcfg).
      rewrite <- Hm. symmetry. exact (f_equal model Hcfg).
Qed.

(** X7. Bin edges that do not increase stop the simulator for good: every
    call raises before any accumulator is written (the domain error of
    [rvs] when a distribution has inadmissible parameters, and else the
    [ValueError] of [np.histogram]), so a simulator holding such edges is
    the same after any sequence of calls. *)
Theorem crossed_edges_freeze (s : t) g (calls : list call) :
  np.monotonic (wavelength_bins s) = false ->
  (forall n rs g1, raised (run s n rs g1)) /\ (runs s g calls).1 = s.
Proof.
  intros Hmono.
  assert (Hraised : forall n rs g1, raised (run s n rs g1)).
  { intros n rs g1. destruct (rvs_accept s) eqn:Hacc.
    - rewrite run_raises by assumption. exact I.
    - rewrite run_refuses by assumption. exact I. }
  split; [exact Hraised |].
  revert g. induction calls as [| c calls IH]; intros g; [reflexivity |].
  cbn [runs]. specialize (Hraised (call_samples c) (call_random_state c) g).
  destruct (run s (call_samples c) (call_random_state c) g)
    as [[s' g'] | e]; [contradiction | apply IH].
Qed.

End extreme_models.

(** ** The stores of the resolution kernel *)

Section digitize_facts.

Lemma count_le_zero (x e0 : Q) (rest : list Q) :
  np.monotonic (e0 :: rest) = true -> x < e0 ->
  np.count (fun e => Qle_bool e x) (e0 :: rest) = 0%Z.
Proof.
  revert e0. induction rest as [| e1 rest IH]; intros e0 Hmono Hx.
  - simpl. apply Qle_bool_gt in Hx. rewrite Hx. reflexivity.
  - change (np.monotonic (e0 :: e1 :: rest))
      with (Qle_bool e0 e1 && np.monotonic (e1 :: rest)) in Hmono.
    apply andb_prop in Hmono as [He Hrest]. apply Qle_bool_iff in He.
    assert (Hx1 : x < e1) by lra.
    change (np.count (fun e => Qle_bool e x) (e0 :: e1 :: rest))
      with ((if Qle_bool e0 x then 1 else 0)
            + np.count (fun e => Qle_bool e x) (e1 :: rest))%Z.
    rewrite (IH e1 Hrest Hx1).
    apply Qle_bool_gt in Hx. rewrite Hx. reflexivity.
Qed.

Lemma digitize_cons (x e0 : Q) (rest : list Q) :
  np.digitize x (e0 :: rest)
  = if Qle_bool e0 x then S (np.digitize x rest) else np.digitize x rest.
Proof.
  unfold np.digitize. simpl.
  pose proof (count_nonneg (fun e => Qle_bool e x) rest) as Hnn.
  destruct (Qle_bool e0 x); [| reflexivity].
  rewrite Z2Nat.inj_add by lia. reflexivity.
Qed.

Lemma digitize_below (x e0 : Q) (rest : list Q) :
  np.monotonic (e0 :: rest) = true -> x < e0 ->
  np.digitize x (e0 :: rest) = 0%nat.
Proof.
  intros Hmono Hx. unfold np.digitize.
  now rewrite (count_le_zero x e0 rest Hmono Hx).
Qed.

(** In the first bin [np.digitize] and [np.histogram] agree unless the bin
    is also the last one, which the histogram closes on the right. *)
Lemma digitize_first (x e0 e1 : Q) (rest : list Q) :
  np.monotonic (e0 :: e1 :: rest) = true ->
  (np.digitize x (e0 :: e1 :: rest) =? 1)%nat
  = Qle_bool e0 x && Qltb x e1.
Proof.
  intros Hmono.
  change (np.monotonic (e0 :: e1 :: rest))
    with (Qle_bool e0 e1 && np.monotonic (e1 :: rest)) in Hmono.
  apply andb_prop in Hmono as [He Hrest].
  rewrite digitize_cons.
  destruct (Qle_bool e0 x) eqn:E0; simpl.
  - destruct (Qltb x e1) eqn:E1.
    + apply Qltb_lt in E1. now rewrite (digitize_below x e1 rest Hrest E1).
    + apply Qltb_ge, Qle_bool_iff in E1. rewrite digitize_cons, E1.
      reflexivity.
  - apply Qle_bool_gt in E0. apply Qle_bool_iff in He.
    rewrite (digitize_below x e1 rest Hrest) by lra. reflexivity.
Qed.

Lemma digitize_later (x e0 e1 : Q) (rest : list Q) (j : nat) :
  np.monotonic (e0 :: e1 :: rest) = true ->
  (np.digitize x (e0 :: e1 :: rest) =? S (S j))%nat
  = (np.digitize x (e1 :: rest) =? S j)%nat.
Proof.
  intros Hmono.
  change (np.monotonic (e0 :: e1 :: rest))
    with (Qle_bool e0 e1 && np.monotonic (e1 :: rest)) in Hmono.
  apply andb_prop in Hmono as [He Hrest].
  rewrite (digitize_cons x e0).
  destruct (Qle_bool e0 x) eqn:E0; [reflexivity |].
  apply Qle_bool_gt in E0. apply Qle_bool_iff in He.
  rewrite (digitize_below x e1 rest Hrest) by lra. reflexivity.
Qed.

Lemma count_first_open (e0 e1 : Q) (a : list Q) :
  e0 <= e1 ->
  np.count (fun x => Qle_bool e0 x && Qltb x e1) a
  = (np.searchsorted_left a e1 - np.searchsorted_left a e0)%Z.
Proof.
  intros He. unfold np.searchsorted_left.
  induction a as [| x a IH]; [reflexivity |]. simpl. rewrite IH.
  destruct (Qle_bool e0 x) eqn:E0, (Qltb x e1) eqn:E1, (Qltb x e0) eqn:E2;
    simpl;
    try apply Qle_bool_iff in E0; try apply Qle_bool_gt in E0;
    try apply Qltb_lt in E1; try apply Qltb_ge in E1;
    try apply Qltb_lt in E2; try apply Qltb_ge in E2;
    try lia; exfalso; lra.
Qed.

Lemma count_first_closed (e0 e1 : Q) (a : list Q) :
  e0 <= e1 ->
  (np.count (fun x => Qle_bool e0 x && Qltb x e1) a
   <= np.searchsorted_right a e1 - np.searchsorted_left a e0)%Z.
Proof.
  intros He. unfold np.searchsorted_left, np.searchsorted_right.
  induction a as [| x a IH]; [reflexivity |]. simpl.
  destruct (Qle_bool e0 x) eqn:E0, (Qltb x e1) eqn:E1, (Qltb x e0) eqn:E2,
    (Qle_bool x e1) eqn:E3; simpl;
    try apply Qle_bool_iff in E0; try apply Qle_bool_gt in E0;
    try apply Qltb_lt in E1; try apply Qltb_ge in E1;
    try apply Qltb_lt in E2; try apply Qltb_ge in E2;
    try apply Qle_bool_iff in E3; try apply Qle_bool_gt in E3;
    try lia; exfalso; lra.
Qed.

(** Bin by bin, [np.digitize] files under index [j + 1] no more values
    than [np.histogram] counts in bin [j], and exactly as many in every
    bin but the last. *)
Lemma digitize_histogram (a : list Q) (bins : list Q) :
  np.monotonic bins = true ->
  forall j h,
    np.diff (np.cum_n a bins) !! j = Some h ->
    (np.count (fun x => (np.digitize x bins =? S j)%nat) a <= h)%Z
    /\ ((j + 2 < length bins)%nat ->
        np.count (fun x => (np.digitize x bins =? S j)%nat) a = h).
Proof.
  induction bins as [| e0 [| e1 rest] IH]; intros Hmono j h Hj;
    [discriminate | discriminate |].
  pose proof Hmono as Hmono'.
  change (np.monotonic (e0 :: e1 :: rest))
    with (Qle_bool e0 e1 && np.monotonic (e1 :: rest)) in Hmono'.
  apply andb_prop in Hmono' as [He Hrest]. apply Qle_bool_iff in He.
  destruct j as [| j].
  - rewrite (count_ext _ (fun x => Qle_bool e0 x && Qltb x e1))
      by (intros x; apply digitize_first, Hmono).
    destruct rest as [| e2 rest].
    + simpl in Hj. injection Hj as <-. split.
      * apply count_first_closed, He.
      * simpl. lia.
    + change (np.cum_n a (e0 :: e1 :: e2 :: rest))
        with (np.searchsorted_left a e0
              :: np.searchsorted_left a e1 :: np.cum_n a (e2 :: rest)) in Hj.
      simpl in Hj. injection Hj as <-.
      rewrite count_first_open by exact He. split; [lia | reflexivity].
  - rewrite (count_ext _ (fun x => (np.digitize x (e1 :: rest) =? S j)%nat))
      by (intros x; apply digitize_later, Hmono).
    assert (Htail : np.diff (np.cum_n a (e0 :: e1 :: rest)) !! S j
                    = np.diff (np.cum_n a (e1 :: rest)) !! j).
    { change (np.cum_n a (e0 :: e1 :: rest))
        with (np.searchsorted_left a e0 :: np.cum_n a (e1 :: rest)).
      destruct (np.cum_n a (e1 :: rest)) as [| c1 cs] eqn:Ec.
      - destruct rest; discriminate.
      - reflexivity. }
    rewrite Htail in Hj.
    destruct (IH Hrest j h Hj) as [Hle Heq]. split; [exact Hle |].
    intros Hlen. apply Heq. simpl in *. lia.
Qed.

Lemma length_mask_count {A B} (p : B -> bool) (a : list A) (l : list B) :
  length a = length l ->
  Z.of_nat (length (np.mask a (p <$> l))) = np.count p l.
Proof.
  revert l. induction a as [| x a IH]; intros [| y l] Hlen;
    simpl in *; try lia.
  specialize (IH l ltac:(lia)). unfold fmap in IH.
  destruct (p y); simpl; lia.
Qed.

End digitize_facts.

Section kernel_facts.
Context `{Collaborators}.
Import ReflectSimulator.

(** X8. A call that returns while the kernel is not full leaves one store
    for every wavelength bin, and the store of bin [j] has grown by the
    number of samples of the call that [np.digitize] files under that bin.
    That number is the count which the call adds to the direct-beam
    histogram in every bin but the last; in the last bin, whose right edge
    the histogram includes and [np.digitize] does not, it is at most that
    count. *)
Theorem kernel_growth_matches_histogram (p : args) (s0 : t) g
    (calls : list call) n rs g1 s' g' :
  __init__ p = Ok s0 ->
  let s := (runs s0 g calls).1 in
  run s n rs g1 = Ok (s', g') ->
  kernel_full (_res_kernel s) = false ->
  forall j d,
    direct_beam s !! j = Some d ->
    exists d' v',
      direct_beam s' !! j = Some d'
      /\ _res_kernel s' !! j = Some v'
      /\ (Z.of_nat (length v')
          - Z.of_nat (length (default [] (_res_kernel s !! j)))
          <= d' - d)%Z
      /\ ((j + 2 < length (wavelength_bins s))%nat ->
          (Z.of_nat (length v')
           - Z.of_nat (length (default [] (_res_kernel s !! j)))
           = d' - d)%Z).
Proof.
  intros Hinit s Hrun Hfull j d Hd.
  destruct (init_aligned p s0 Hinit) as [Hal0 _].
  pose proof (runs_aligned calls s0 g Hal0) as (_ & Ld & _).
  fold s in Ld. cbv zeta in Ld.
  apply run_Ok in Hrun as (bm & Hbm & hd & hr & Ehd & _ & Ed & _ & Ek & _).
  rewrite Hfull in Ek.
  pose proof (length_histogram _ _ _ Ehd) as Lhd.
  assert (Hj : (j < length (wavelength_bins s) - 1)%nat).
  { rewrite <- Ld. eapply lookup_lt_Some, Hd. }
  destruct (lookup_lt_is_Some_2 hd j ltac:(lia)) as [h Hh].
  exists (d + h)%Z. eexists.
  split.
  { rewrite Ed, lookup_zip_with, Hd. simpl. rewrite Hh. reflexivity. }
  split.
  { rewrite Ek, update_kernel_lookup.
    destruct (decide (j < length (wavelength_bins s) - 1)%nat);
      [reflexivity | contradiction]. }
  rewrite length_fmap, length_app, <- list_fmap_compose.
  destruct (sample_lengths s n _ bm Hbm) as (_ & Lq & _ & _ & _ & Lj).
  pose proof (length_mask_count
                (fun w => (np.digitize w (wavelength_bins s) =? S j)%nat)
                (batch_q bm) (jittered_wavelengths bm) ltac:(congruence))
    as Hcount.
  unfold compose.
  unfold np.histogram in Ehd.
  destruct (np.monotonic (wavelength_bins s)) eqn:Hmono; [| discriminate].
  injection Ehd as <-.
  destruct (digitize_histogram (jittered_wavelengths bm) (wavelength_bins s)
              Hmono j h Hh) as [Hle Heq].
  split; [lia |]. intros Hlen. specialize (Heq Hlen). lia.
Qed.

Lemma run_stores (s : t) n rs g s' g' j v :
  run s n rs g = Ok (s', g') -> _res_kernel s !! j = Some v ->
  exists v', _res_kernel s' !! j = Some v' /\ (length v <= length v')%nat.
Proof.
  intros Hrun Hv.
  apply run_Ok in Hrun as (bm & Hbm & _ & _ & _ & _ & _ & _ & Ek & _).
  rewrite Ek. destruct (kernel_full (_res_kernel s)).
  - exists v. split; [exact Hv | lia].
  - rewrite update_kernel_lookup.
    destruct (decide (j < length (wavelength_bins s) - 1)%nat).
    + eexists. split; [reflexivity |].
      rewrite Hv, length_fmap, length_app. simpl. lia.
    + exists v. split; [exact Hv | lia].
Qed.

(** X9. The stores of the resolution kernel are never dropped and never
    shrink: a bin that has a store keeps one through any further calls,
    holding at least as many momentum transfers as before. *)
Theorem kernel_stores_never_shrink (s : t) g (calls : list call) j v :
  _res_kernel s !! j = Some v ->
  exists v',
    _res_kernel (runs s g calls).1 !! j = Some v'
    /\ (length v <= length v')%nat.
Proof.
  revert s g v. induction calls as [| c calls IH]; intros s g v Hv.
  - exists v. split; [exact Hv | lia].
  - cbn [runs].
    destruct (run s (call_samples c) (call_random_state c) g)
      as [[s' g'] | e] eqn:Hrun; [| apply IH, Hv].
    destruct (run_stores _ _ _ _ _ _ _ _ Hrun Hv) as (v1 & Hv1 & Hle1).
    destruct (IH s' (match call_random_state c with
                     | rs_None => g' | _ => g end) v1 Hv1)
      as (v' & Hv' & Hle').
    exists v'. split; [exact Hv' | lia].
Qed.

Lemma run_keyed (s : t) n rs g s' g' :
  keyed_by_bins s -> run s n rs g = Ok (s', g') -> keyed_by_bins s'.
Proof.
  intros [Hin Hall] Hrun.
  apply run_Ok in Hrun as (bm & Hbm & _ & _ & _ & _ & _ & _ & Ek & _ & Hcfg).
  pose proof (same_configuration_bins _ _ Hcfg) as Hbins.
  unfold keyed_by_bins. cbv zeta in *. rewrite <- Hbins, Ek.
  destruct (kernel_full (_res_kernel s)); [split; assumption |].
  split.
  - intros j. rewrite update_kernel_lookup.
    destruct (decide (j < length (wavelength_bins s) - 1)%nat);
      [auto | apply Hin].
  - right. intros j Hj. rewrite update_kernel_lookup.
    destruct (decide (j < length (wavelength_bins s) - 1)%nat);
      [eauto | contradiction].
Qed.

Lemma runs_keyed (calls : list call) (s : t) g :
  keyed_by_bins s -> keyed_by_bins (runs s g calls).1.
Proof.
  revert s g. induction calls as [| c calls IH]; intros s g Hk; [exact Hk |].
  cbn [runs].
  destruct (run s (call_samples c) (call_random_state c) g)
    as [[s' g'] | e] eqn:Hrun; [| apply IH, Hk].
  apply IH. eapply run_keyed; eassumption.
Qed.

Lemma init_keyed (p : args) (s : t) : __init__ p = Ok s -> keyed_by_bins s.
Proof.
  intros Hinit. destruct (init_beams p s Hinit) as (_ & _ & Ek).
  split; [| left; exact Ek].
  intros j [v Hv]. rewrite Ek, lookup_empty in Hv. discriminate.
Qed.

(** X10. The resolution kernel of a constructed simulator is keyed by the
    wavelength bins: after any sequence of calls it holds no store under
    an index that is not a bin, and it is either still empty or holds a
    store for every bin. *)
Theorem kernel_keyed_by_bins (p : args) (s0 : t) g (calls : list call) :
  __init__ p = Ok s0 ->
  let s := (runs s0 g calls).1 in
  let nbins := (length (wavelength_bins s0) - 1)%nat in
  (forall j, is_Some (_res_kernel s !! j) -> (j < nbins)%nat)
  /\ (_res_kernel s = ∅
      \/ forall j, (j < nbins)%nat -> is_Some (_res_kernel s !! j)).
Proof.
  intros Hinit s nbins.
  pose proof (runs_keyed calls s0 g (init_keyed p s0 Hinit)) as Hruns.
  fold s in Hruns. unfold keyed_by_bins in Hruns. cbv zeta in Hruns.
  pose proof (same_configuration_bins _ _ (runs_configuration calls s0 g))
    as Hbins.
  fold s in Hbins. unfold nbins. rewrite Hbins. exact Hruns.
Qed.

End kernel_facts.

(** ** The quantile table of the spectrum distribution *)

Section quantile_table.
Context `{Collaborators}.

(** Linear interpolation between two grid points stays between them. *)
Lemma chord_within (c0 c1 f0 f1 q : Q) :
  c0 <= q -> q < c1 -> f0 <= f1 ->
  f0 <= (f1 - f0) / (c1 - c0) * (q - c0) + f0
  /\ (f1 - f0) / (c1 - c0) * (q - c0) + f0 <= f1.
Proof.
  intros Hq0 Hq1 Hf.
  assert (Ht : (f1 - f0) / (c1 - c0) * (q - c0)
               == (f1 - f0) * ((q - c0) / (c1 - c0))) by (field; lra).
  rewrite Ht.
  assert (H0 : 0 <= (q - c0) / (c1 - c0))
    by (apply Qle_shift_div_l; lra).
  assert (H1 : (q - c0) / (c1 - c0) <= 1)
    by (apply Qle_shift_div_r; lra).
  set (t := (q - c0) / (c1 - c0)) in *. split; nra.
Qed.

(** Whatever the ordinates [xp] of the table are, the scan of [np.interp]
    returns a point of the grid it climbs. *)
Lemma interp_search_within (h hi q : Q) :
  forall fp xp c0 f0,
    c0 <= q -> climbs h hi f0 fp ->
    f0 <= np.interp_search q c0 f0 xp fp
    /\ np.interp_search q c0 f0 xp fp <= hi.
Proof.
  induction fp as [| f1 fp IH]; intros xp c0 f0 Hq Hclimb.
  - pose proof (climbs_le _ _ _ _ Hclimb) as Hle.
    destruct xp; cbn [np.interp_search]; split; lra.
  - pose proof (climbs_le _ _ _ _ Hclimb) as Hle.
    destruct Hclimb as (Hf & _ & Hrest).
    pose proof (climbs_le _ _ _ _ Hrest) as Hle1.
    destruct xp as [| c1 xp]; cbn [np.interp_search]; [split; lra |].
    destruct (Qle_bool c1 q) eqn:E1.
    + apply Qle_bool_iff in E1.
      destruct (IH xp c1 f1 E1 Hrest) as [Hlo Hhi]. split; lra.
    + apply Qle_bool_gt in E1.
      destruct (Qeq_bool c0 q); [split; lra |].
      destruct (chord_within c0 c1 f0 f1 q Hq E1 Hf) as [Hlo Hhi].
      split; lra.
Qed.




End quantile_table.

Section measured_spectrum.
Context `{Collaborators}.
Import ReflectSimulator.




(** X13. Unless [force_gaussian] is set, the angular distribution is a
    trapezoid centred on zero: its support runs from [-alpha] to [alpha],
    where [alpha] is the angle that [general.div] reports for the
    optimised slits, and its flat top is centred, the two shape
    parameters being numbers that add up to one when [alpha] is not zero;
    when [alpha] is zero neither shape parameter is a number.  With
    [force_gaussian] it is a normal distribution whose scale is the
    divergence over 2.3548. *)
Theorem angular_distribution_centred (p : args) (s0 : t) :
  __init__ p = Ok s0 ->
  exists s1 s2 dv al be,
    general_slit_optimiser (arg_footprint p) (arg_dtheta p / 100)
      (arg_angle p) (L2S p) (L12 p) = Ok (s1, s2)
    /\ general_div s1 s2 (L12 p) = Ok (dv, al, be)
    /\ if arg_force_gaussian p then angular_dist s0 = norm (dv / 2.3548)
       else exists c d loc scale,
              angular_dist s0 = trapz c d loc scale
              /\ loc == - al /\ loc + scale == al
              /\ (~ al == 0 ->
                  exists cv dv',
                    c = Some cv /\ d = Some dv' /\ cv + dv' == 1)
              /\ (al == 0 -> c = None /\ d = None).
Proof.
  unfold __init__. intros Hinit. bind_inv Hinit.
  injection Hinit as <-. simpl.
  do 5 eexists. split; [eassumption |]. split; [eassumption |].
  destruct (arg_force_gaussian p); [reflexivity |].
  do 4 eexists. split; [reflexivity |].
  split; [reflexivity |]. split; [ring |].
  unfold float_div. split.
  - intros Hal. destruct (Qeq_bool _ 0) eqn:Ezero.
    + apply Qeq_bool_iff in Ezero. contradiction.
    + do 2 eexists. split; [reflexivity |]. split; [reflexivity |].
      field. exact Hal.
  - intros Hal. apply Qeq_bool_iff in Hal. now rewrite Hal.
Qed.

End measured_spectrum.

(** ** The quantile function is non-decreasing *)

Section quantile_order.
Context `{Collaborators}.

Lemma interp_search_monotone (h hi : Q) :
  forall fp xp c0 f0 q q',
    c0 <= q -> q <= q' -> climbs h hi f0 fp ->
    np.interp_search q c0 f0 xp fp <= np.interp_search q' c0 f0 xp fp.
Proof.
  induction fp as [| f1 fp IH]; intros xp c0 f0 q q' Hq Hqq Hclimb.
  - destruct xp; cbn [np.interp_search]; lra.
  - destruct xp as [| c1 xp]; cbn [np.interp_search]; [lra |].
    pose proof Hclimb as (Hf & _ & Hrest).
    destruct (Qle_bool c1 q) eqn:E1.
    + apply Qle_bool_iff in E1.
      assert (E1' : Qle_bool c1 q' = true) by (apply Qle_bool_iff; lra).
      rewrite E1'. apply IH; [exact E1 | exact Hqq | exact Hrest].
    + apply Qle_bool_gt in E1.
      assert (Hleft : (if Qeq_bool c0 q then f0
                       else (f1 - f0) / (c1 - c0) * (q - c0) + f0) <= f1
                      /\ f0 <= (if Qeq_bool c0 q then f0
                                else (f1 - f0) / (c1 - c0) * (q - c0) + f0)).
      { destruct (Qeq_bool c0 q); [split; lra |].
        destruct (chord_within c0 c1 f0 f1 q Hq E1 Hf). split; lra. }
      destruct (Qle_bool c1 q') eqn:E1'.
      * apply Qle_bool_iff in E1'.
        destruct (interp_search_within h hi q' fp xp c1 f1 E1' Hrest)
          as [Hlo _].
        lra.
      * apply Qle_bool_gt in E1'.
        destruct (Qeq_bool c0 q) eqn:E0.
        -- destruct (Qeq_bool c0 q'); [lra |].
           destruct (chord_within c0 c1 f0 f1 q' ltac:(lra) E1' Hf). lra.
        -- apply Qeq_bool_neq in E0.
           destruct (Qeq_bool c0 q') eqn:E0'.
           ++ apply Qeq_bool_iff in E0'. exfalso. apply E0. lra.
           ++ assert (Hslope : 0 <= (f1 - f0) / (c1 - c0))
                by (apply Qle_shift_div_l; lra).
              set (slope := (f1 - f0) / (c1 - c0)) in *. nra.
Qed.

(** X14. On a table whose cumulative function does not decrease over the
    support, which is where [np.interp] is specified, the quantile
    function of a constructed spectrum distribution does not decrease
    either: a larger argument never yields a smaller wavelength. *)
Theorem ppf_monotone (x y : list Q) (sd : SpectrumDist.t) :
  SpectrumDist.__init__ x y = Ok sd ->
  (forall u v, SpectrumDist.a sd <= u -> u <= v -> v <= SpectrumDist.b sd ->
               SpectrumDist.cdf sd u <= SpectrumDist.cdf sd v) ->
  forall q q',
    q <= q' -> SpectrumDist._ppf sd q <= SpectrumDist._ppf sd q'.
Proof.
  intros Hinit _ q q' Hqq.
  destruct (spectrum_init x y sd Hinit)
    as (_ & _ & Hab & _ & _ & Hgrid & Hicdf).
  unfold SpectrumDist._ppf. rewrite Hgrid, Hicdf.
  rewrite (linspace_unfold (SpectrumDist.a sd) (SpectrumDist.b sd) 998).
  rewrite fmap_cons. cbn [np.interp].
  set (F := SpectrumDist.cdf sd) in *.
  set (lo := SpectrumDist.a sd) in *. set (hi := SpectrumDist.b sd) in *.
  set (step := (hi - lo) / inject_Z (Z.of_nat 999)).
  set (g0 := inject_Z 0 * step + lo).
  assert (Hclimb : climbs step hi g0
            (((fun i : nat => inject_Z (Z.of_nat i) * step + lo)
                <$> seq 1 998) ++ [hi]))
    by apply (climbs_linspace_from lo hi 999 Hab ltac:(lia) 998 0
                ltac:(lia)).
  destruct (Qltb q (F g0)) eqn:E.
  - destruct (Qltb q' (F g0)) eqn:E'; [lra |].
    apply Qltb_ge in E'.
    destruct (interp_search_within step hi q' _
                (F <$> ((fun i : nat => inject_Z (Z.of_nat i) * step + lo)
                          <$> seq 1 998) ++ [hi])
                (F g0) g0 E' Hclimb) as [Hlo _].
    exact Hlo.
  - apply Qltb_ge in E.
    assert (E' : Qltb q' (F g0) = false) by (apply Qltb_ge; lra).
    rewrite E'.
    apply (interp_search_monotone step hi); [exact E | exact Hqq |].
    exact Hclimb.
Qed.

End quantile_order.

(** ** The resolution kernel as an array *)

Section kernel_array.
Context `{Collaborators}.
Variable histogram_density : list Q -> DensityHistogram.
Import ReflectSimulator.

Lemma length_values (kernel : gmap nat (list Q)) :
  length (values kernel) = size kernel.
Proof.
  unfold values. rewrite length_fmap.
  rewrite (Permutation_length (merge_sort_Permutation _ _)).
  apply length_map_to_list.
Qed.

Lemma foldl_max_acc (ls : list nat) (l0 : nat) :
  (l0 <= foldl Nat.max l0 ls)%nat.
Proof.
  revert l0. induction ls as [| l1 ls IH]; intros l0; simpl; [lia |].
  etransitivity; [| apply IH]. lia.
Qed.

Lemma foldl_max_le (ls : list nat) (l0 l : nat) :
  l ∈ l0 :: ls -> (l <= foldl Nat.max l0 ls)%nat.
Proof.
  revert l0. induction ls as [| l1 ls IH]; intros l0 Hl.
  - apply list_elem_of_singleton in Hl as ->. simpl. lia.
  - simpl. apply elem_of_cons in Hl as [-> | Hl].
    + etransitivity; [| apply foldl_max_acc]. lia.
    + apply elem_of_cons in Hl as [-> | Hl].
      * etransitivity; [| apply foldl_max_acc]. lia.
      * apply IH. now right.
Qed.

Lemma keyed_size (s : t) :
  keyed_by_bins s -> _res_kernel s <> ∅ ->
  size (_res_kernel s) = (length (wavelength_bins s) - 1)%nat.
Proof.
  intros [Hin [Hempty | Hall]] Hne; [contradiction |]. cbv zeta in *.
  rewrite <- size_dom.
  assert (Hdom : dom (_res_kernel s)
                 = set_seq 0 (length (wavelength_bins s) - 1)).
  { apply set_eq. intros j. rewrite elem_of_dom, elem_of_set_seq.
    split; [intros Hj; split; [lia | apply Hin, Hj] |].
    intros [_ Hj]. apply Hall. lia. }
  rewrite Hdom. apply size_set_seq.
Qed.

(** The property returns as soon as one store exists. *)
Lemma resolution_kernel_returns (s : t) j :
  is_Some (_res_kernel s !! j) ->
  exists rows, resolution_kernel histogram_density s = Ok rows.
Proof.
  intros [v Hv]. unfold resolution_kernel.
  pose proof (length_values (_res_kernel s)) as Hlen.
  destruct (reverse (histogram_density <$> values (_res_kernel s)))
    as [| histo histos] eqn:Eh.
  - apply (f_equal length) in Eh.
    rewrite length_reverse, length_fmap, Hlen in Eh. simpl in Eh.
    apply map_size_empty_inv in Eh. rewrite Eh, lookup_empty in Hv.
    discriminate.
  - eexists. reflexivity.
Qed.

(** X15. The [resolution_kernel] property cannot be read before a call
    has filled the stores: on a constructed simulator whose kernel is
    still empty it raises the [ValueError] of [np.max] on an empty list.
    Once the kernel is not empty it returns an array with one row per
    wavelength bin, as many rows as the dataset of [reflectivity] has
    points, every row holding as many bin centres as densities. *)
Theorem resolution_kernel_shape (p : args) (s0 : t) g (calls : list call) :
  __init__ p = Ok s0 ->
  let s := (runs s0 g calls).1 in
  resolution_kernel histogram_density s0
  = Raise (ValueError "zero-size array to reduction operation maximum which has no identity")
  /\ match resolution_kernel histogram_density s with
     | Raise e =>
         _res_kernel s = ∅
         /\ e = ValueError "zero-size array to reduction operation maximum which has no identity"
     | Ok rows =>
         _res_kernel s <> ∅
         /\ length rows = (length (wavelength_bins s0) - 1)%nat
         /\ (forall g', length rows
                        = length (ReflectDataset.x (reflectivity s g').1))
         /\ exists max_bins,
              forall row, row ∈ rows ->
                length row.1 = max_bins /\ length row.2 = max_bins
     end.
Proof.
  intros Hinit s.
  destruct (init_beams p s0 Hinit) as (_ & _ & Ek0).
  split.
  { unfold resolution_kernel, values. rewrite Ek0, map_to_list_empty.
    reflexivity. }
  pose proof (runs_keyed calls s0 g (init_keyed p s0 Hinit)) as Hkeyed.
  fold s in Hkeyed.
  destruct (init_aligned p s0 Hinit) as [Hal0 _].
  pose proof (runs_aligned calls s0 g Hal0) as (Lq & _). fold s in Lq.
  cbv zeta in Lq.
  pose proof (same_configuration_bins _ _ (runs_configuration calls s0 g))
    as Hbins.
  fold s in Hbins.
  pose proof (length_values (_res_kernel s)) as Hlen.
  unfold resolution_kernel.
  set (histos := reverse (histogram_density <$> values (_res_kernel s))).
  assert (Lh : length histos = size (_res_kernel s)).
  { unfold histos. now rewrite length_reverse, length_fmap. }
  destruct ((fun histo => length (density histo)) <$> histos)
    as [| l0 ls] eqn:Els.
  - simpl. split; [| reflexivity].
    apply (f_equal length) in Els. rewrite length_fmap, Lh in Els.
    simpl in Els. apply map_size_empty_inv, Els.
  - cbn [max_len mbind result_bind].
    assert (Hne : _res_kernel s <> ∅).
    { intros Hempty. apply (f_equal length) in Els.
      rewrite length_fmap, Lh, Hempty, map_size_empty in Els.
      discriminate. }
    split; [exact Hne |].
    assert (Hrows : length histos = (length (wavelength_bins s0) - 1)%nat).
    { rewrite Lh, Hbins. apply keyed_size; assumption. }
    split; [rewrite length_fmap; exact Hrows |].
    split.
    { intros g'. destruct (reflectivity_columns s g') as [Hx _].
      cbv zeta in Hx. rewrite Hx, length_fmap, Hrows, Lq, Hbins.
      reflexivity. }
    exists (foldl Nat.max l0 ls). intros row Hrow.
    apply list_elem_of_fmap in Hrow as (histo & -> & Hhisto).
    cbv zeta. cbn [fst snd].
    assert (Hsz : (length (density histo) <= foldl Nat.max l0 ls)%nat).
    { apply foldl_max_le. rewrite <- Els. apply list_elem_of_fmap. eauto. }
    rewrite !length_app, !length_replicate, length_fmap, length_zip_with.
    rewrite length_tl.
    assert (Hrl : forall l : list Q,
               length (removelast l) = (length l - 1)%nat).
    { clear. induction l as [| a [| b l] IH]; [reflexivity | reflexivity |].
      change (removelast (a :: b :: l)) with (a :: removelast (b :: l)).
      rewrite !length_cons in *. rewrite IH. lia. }
    rewrite Hrl, (bin_edges_length histo). lia.
Qed.

Lemma Sorted_seq (a n : nat) : Sorted le (seq a n).
Proof.
  revert a. induction n as [| n IH]; intros a; simpl; [constructor |].
  constructor; [apply IH |].
  destruct n; simpl; constructor. lia.
Qed.

(** On a kernel keyed by the bins, [values] lists the stores by bin
    index. *)
Lemma values_keyed (s : t) j :
  keyed_by_bins s -> _res_kernel s <> ∅ ->
  values (_res_kernel s) !! j = _res_kernel s !! j.
Proof.
  intros Hkeyed Hne.
  pose proof (keyed_size s Hkeyed Hne) as Hsize.
  destruct Hkeyed as [Hin [Hempty | Hall]]; [contradiction |].
  cbv zeta in *.
  set (n := (length (wavelength_bins s) - 1)%nat) in *.
  set (k := _res_kernel s) in *.
  unfold values.
  set (l := merge_sort key_le (map_to_list k)).
  assert (Hperm : l ≡ₚ map_to_list k) by apply merge_sort_Permutation.
  assert (Hkeys : l.*1 = seq 0 n).
  { assert (S1 : Sorted le l.*1).
    { apply (Sorted_fmap fst key_le le); [intros a b Hab; exact Hab |].
      apply Sorted_merge_sort. intros a b. unfold key_le. lia. }
    assert (P : l.*1 ≡ₚ seq 0 n).
    { rewrite Hperm. apply NoDup_Permutation.
      - apply NoDup_fst_map_to_list.
      - apply NoDup_seq.
      - intros i. rewrite elem_of_seq. split.
        + intros Hi. apply list_elem_of_fmap in Hi as ([i' v] & -> & Hiv).
          apply elem_of_map_to_list in Hiv. simpl.
          split; [lia |]. simpl. apply Hin. eauto.
        + intros [_ Hi]. destruct (Hall i ltac:(lia)) as [v Hv].
          apply list_elem_of_fmap. exists (i, v). split; [reflexivity |].
          now apply elem_of_map_to_list. }
    pose proof (Sorted_seq 0 n) as S2.
    exact (Sorted_unique le _ _ S1 S2 P). }
  destruct (l !! j) as [[j' v] |] eqn:Hl.
  - rewrite list_lookup_fmap, Hl. simpl.
    assert (Hj' : l.*1 !! j = Some j') by (now rewrite list_lookup_fmap, Hl).
    rewrite Hkeys in Hj'. apply lookup_seq in Hj' as [-> _]. simpl.
    symmetry. apply elem_of_map_to_list. rewrite <- Hperm.
    eapply list_elem_of_lookup_2, Hl.
  - rewrite list_lookup_fmap, Hl. simpl. symmetry.
    apply lookup_ge_None in Hl.
    assert (Hlen : length l = n).
    { rewrite <- (length_fmap fst), Hkeys. apply length_seq. }
    destruct (k !! j) as [v |] eqn:Hk; [| reflexivity].
    exfalso. assert (j < n)%nat by (apply Hin; eauto). lia.
Qed.

(** X16. The rows of the resolution kernel come in reverse bin order,
    lowest momentum transfer first: on a constructed simulator, row [i] is
    the density histogram of the store of bin [nbins - 1 - i], its first
    half the midpoints of consecutive bin edges and its second half the
    densities, each padded with NaN to the common width. *)
Theorem resolution_kernel_rows_reversed (p : args) (s0 : t) g
    (calls : list call) rows :
  __init__ p = Ok s0 ->
  let s := (runs s0 g calls).1 in
  let nbins := (length (wavelength_bins s0) - 1)%nat in
  resolution_kernel histogram_density s = Ok rows ->
  forall i row,
    rows !! i = Some row ->
    exists v,
      _res_kernel s !! (nbins - 1 - i)%nat = Some v
      /\ let histo := histogram_density v in
         let x := bin_edges histo in
         row.1
         = (Some <$> zip_with (fun lo hi => 0.5 * (lo + hi))
                       (removelast x) (tail x))
           ++ replicate (length row.1 - length (density histo)) None
         /\ row.2
            = density histo
              ++ replicate (length row.2 - length (density histo)) None.
Proof.
  intros Hinit s nbins Hrk i row Hrow.
  pose proof (runs_keyed calls s0 g (init_keyed p s0 Hinit)) as Hkeyed.
  fold s in Hkeyed.
  pose proof (same_configuration_bins _ _ (runs_configuration calls s0 g))
    as Hbins.
  fold s in Hbins.
  unfold resolution_kernel in Hrk.
  apply bind_Ok in Hrk as (max_bins & Hmax & Hrk). apply Ok_inj in Hrk.
  assert (Hne : _res_kernel s <> ∅).
  { intros Hempty. unfold values in Hmax.
    rewrite Hempty, map_to_list_empty in Hmax. discriminate. }
  pose proof (keyed_size s Hkeyed Hne) as Hsize.
  pose proof (length_values (_res_kernel s)) as Hlen.
  subst rows. rewrite list_lookup_fmap in Hrow.
  destruct (reverse (histogram_density <$> values (_res_kernel s)) !! i)
    as [histo |] eqn:Hi; [| discriminate].
  injection Hrow as <-.
  pose proof (lookup_lt_Some _ _ _ Hi) as Hlt.
  rewrite length_reverse, length_fmap, Hlen, Hsize in Hlt.
  rewrite reverse_lookup in Hi
    by (rewrite length_fmap, Hlen, Hsize; exact Hlt).
  rewrite length_fmap, Hlen, Hsize, list_lookup_fmap in Hi.
  rewrite (values_keyed s _ Hkeyed Hne) in Hi.
  destruct (_res_kernel s !! (length (wavelength_bins s) - 1 - S i)%nat)
    as [v |] eqn:Hv; [| discriminate].
  injection Hi as <-.
  exists v. split.
  { unfold nbins. rewrite Hbins, <- Hv. f_equal. lia. }
  cbv zeta. cbn [fst snd].
  assert (Hrl : forall l : list Q,
             length (removelast l) = (length l - 1)%nat).
  { clear. induction l as [| a [| b l] IH]; [reflexivity | reflexivity |].
    change (removelast (a :: b :: l)) with (a :: removelast (b :: l)).
    rewrite !length_cons in *. rewrite IH. lia. }
  split; f_equal; f_equal.
  - rewrite length_app, length_replicate, length_fmap, length_zip_with.
    rewrite length_tl, Hrl, (bin_edges_length (histogram_density v)). lia.
  - rewrite length_app, length_replicate. lia.
Qed.

End kernel_array.

(** ** The further properties on the scripted collaborators *)

Lemma arrays_stay_aligned_witness :
  exists s0,
    ReflectSimulator.__init__ Scenario.coarse = Ok s0
    /\ let s :=
         (ReflectSimulator.runs s0 Scenario.idle Scenario.two_calls).1 in
       let nbins :=
         (length (ReflectSimulator.wavelength_bins s0) - 1)%nat in
       (1 <= length (ReflectSimulator.wavelength_bins s0))%nat
       /\ ReflectSimulator.wavelength_bins s
          = ReflectSimulator.wavelength_bins s0
       /\ length (ReflectSimulator.q s) = nbins
       /\ length (ReflectSimulator.direct_beam s) = nbins
       /\ length (ReflectSimulator.reflected_beam s) = nbins
       /\ length (ReflectDataset.x
                    (ReflectSimulator.reflectivity s Scenario.idle).1)
          = nbins.
Proof.
  eexists. split.
  - vm_compute. reflexivity.
  - apply (arrays_stay_aligned Scenario.coarse _ Scenario.idle
             Scenario.two_calls).
    vm_compute. reflexivity.
Defined.

Lemma counts_never_decrease_witness :
  exists s0,
    ReflectSimulator.__init__ Scenario.coarse = Ok s0
    /\ let s :=
         (ReflectSimulator.runs s0 Scenario.idle Scenario.two_calls).1 in
       let s' :=
         (ReflectSimulator.runs s Scenario.script5 Scenario.two_calls).1 in
       forall i,
         (forall d,
            ReflectSimulator.direct_beam s !! i = Some d ->
            exists d',
              ReflectSimulator.direct_beam s' !! i = Some d'
              /\ (0 <= d <= d')%Z)
         /\ (forall r,
               ReflectSimulator.reflected_beam s !! i = Some r ->
               exists r',
                 ReflectSimulator.reflected_beam s' !! i = Some r'
                 /\ (0 <= r <= r')%Z).
Proof.
  eexists. split.
  - vm_compute. reflexivity.
  - apply (counts_never_decrease Scenario.coarse _ Scenario.idle
             Scenario.script5 Scenario.two_calls Scenario.two_calls).
    vm_compute. reflexivity.
Defined.

Lemma run_counts_samples_within_witness :
  exists s0 s' g',
    ReflectSimulator.__init__ Scenario.coarse = Ok s0
    /\ ReflectSimulator.run s0 5 (rs_instance Scenario.script5) Scenario.idle
       = Ok (s', g')
    /\ exists bm,
         ReflectSimulator.sample s0 5 Scenario.script5 = Ok bm
         /\ total (ReflectSimulator.direct_beam s')
            = (total (ReflectSimulator.direct_beam s0)
               + np.count (within 1 12)
                   (ReflectSimulator.jittered_wavelengths bm))%Z
         /\ total (ReflectSimulator.reflected_beam s')
            = (total (ReflectSimulator.reflected_beam s0)
               + np.count (within 1 12)
                   (np.mask (ReflectSimulator.jittered_wavelengths bm)
                      (ReflectSimulator.accepted bm)))%Z.
Proof.
  eexists. eexists. eexists. split; [vm_compute; reflexivity |].
  split; [vm_compute; reflexivity |].
  eapply (run_counts_samples_within Scenario.coarse) with
    (g := Scenario.idle) (calls := []) (n := 5%nat)
    (rs := rs_instance Scenario.script5) (g1 := Scenario.idle)
    (lo := 1) (hi := 12);
    first [vm_compute; reflexivity | vm_compute; lia].
Defined.

Lemma totals_bounded_by_requests_witness :
  exists s0,
    ReflectSimulator.__init__ Scenario.coarse = Ok s0
    /\ let s :=
         (ReflectSimulator.runs s0 Scenario.idle Scenario.two_calls).1 in
       (0 <= total (ReflectSimulator.reflected_beam s)
        <= total (ReflectSimulator.direct_beam s))%Z
       /\ (total (ReflectSimulator.direct_beam s)
           <= requested Scenario.two_calls)%Z.
Proof.
  eexists. split.
  - vm_compute. reflexivity.
  - apply (totals_bounded_by_requests Scenario.coarse _ Scenario.idle
             Scenario.two_calls).
    vm_compute. reflexivity.
Defined.

Lemma dark_sample_reflects_nothing_witness :
  exists s0,
    ReflectSimulator.__init__ Bench.dark = Ok s0
    /\ ReflectSimulator.reflected_beam
         (ReflectSimulator.runs s0 Scenario.idle Scenario.two_calls).1
       = replicate (length (ReflectSimulator.wavelength_bins s0) - 1) 0%Z.
Proof.
  eexists. split.
  - vm_compute. reflexivity.
  - apply (dark_sample_reflects_nothing Bench.dark _ Scenario.idle
             Scenario.two_calls).
    + vm_compute. reflexivity.
    + intros qv. simpl. lra.
Defined.

Lemma perfect_mirror_reflects_all_witness :
  exists s0,
    ReflectSimulator.__init__ Bench.bright = Ok s0
    /\ ReflectSimulator.reflected_beam
         (ReflectSimulator.runs s0 Scenario.idle Scenario.two_calls).1
       = ReflectSimulator.direct_beam
           (ReflectSimulator.runs s0 Scenario.idle Scenario.two_calls).1.
Proof.
  eexists. split.
  - vm_compute. reflexivity.
  - apply (perfect_mirror_reflects_all Bench.bright _ Scenario.idle
             Scenario.two_calls).
    + vm_compute. reflexivity.
    + intros qv. simpl. lra.
Defined.

Lemma crossed_edges_freeze_witness :
  (forall n rs g1, raised (ReflectSimulator.run Bench.crossed n rs g1))
  /\ (ReflectSimulator.runs Bench.crossed Scenario.idle Scenario.two_calls).1
     = Bench.crossed.
Proof.
  apply (crossed_edges_freeze Bench.crossed Scenario.idle Scenario.two_calls).
  vm_compute. reflexivity.
Defined.

Lemma kernel_growth_matches_histogram_witness :
  exists s0 s' g',
    ReflectSimulator.__init__ Scenario.coarse = Ok s0
    /\ ReflectSimulator.run s0 5 (rs_instance Scenario.script5) Scenario.idle
       = Ok (s', g')
    /\ forall j d,
         ReflectSimulator.direct_beam s0 !! j = Some d ->
         exists d' v',
           ReflectSimulator.direct_beam s' !! j = Some d'
           /\ ReflectSimulator._res_kernel s' !! j = Some v'
           /\ (Z.of_nat (length v')
               - Z.of_nat
                   (length
                      (default [] (ReflectSimulator._res_kernel s0 !! j)))
               <= d' - d)%Z
           /\ ((j + 2 < length (ReflectSimulator.wavelength_bins s0))%nat ->
               (Z.of_nat (length v')
                - Z.of_nat
                    (length
                       (default [] (ReflectSimulator._res_kernel s0 !! j)))
                = d' - d)%Z).
Proof.
  eexists. eexists. eexists. split; [vm_compute; reflexivity |].
  split; [vm_compute; reflexivity |].
  eapply (kernel_growth_matches_histogram Scenario.coarse) with
    (g := Scenario.idle) (calls := []) (n := 5%nat)
    (rs := rs_instance Scenario.script5) (g1 := Scenario.idle);
    vm_compute; reflexivity.
Defined.

Lemma kernel_stores_never_shrink_witness :
  exists s0 v,
    ReflectSimulator.__init__ Scenario.coarse = Ok s0
    /\ let s :=
         (ReflectSimulator.runs s0 Scenario.idle Scenario.two_calls).1 in
       ReflectSimulator._res_kernel s !! 0%nat = Some v
       /\ exists v',
            ReflectSimulator._res_kernel
              (ReflectSimulator.runs s Scenario.idle Scenario.two_calls).1
              !! 0%nat = Some v'
            /\ (length v <= length v')%nat.
Proof.
  eexists. eexists. split; [vm_compute; reflexivity |].
  split; [vm_compute; reflexivity |].
  apply (kernel_stores_never_shrink _ Scenario.idle Scenario.two_calls 0).
  vm_compute. reflexivity.
Defined.

Lemma kernel_keyed_by_bins_witness :
  exists s0,
    ReflectSimulator.__init__ Scenario.coarse = Ok s0
    /\ let s :=
         (ReflectSimulator.runs s0 Scenario.idle Scenario.two_calls).1 in
       let nbins :=
         (length (ReflectSimulator.wavelength_bins s0) - 1)%nat in
       (forall j,
          is_Some (ReflectSimulator._res_kernel s !! j) -> (j < nbins)%nat)
       /\ (ReflectSimulator._res_kernel s = ∅
           \/ forall j,
                (j < nbins)%nat ->
                is_Some (ReflectSimulator._res_kernel s !! j)).
Proof.
  eexists. split.
  - vm_compute. reflexivity.
  - apply (kernel_keyed_by_bins Scenario.coarse _ Scenario.idle
             Scenario.two_calls).
    vm_compute. reflexivity.
Defined.




Lemma angular_distribution_centred_witness :
  exists s0,
    ReflectSimulator.__init__ Scenario.coarse = Ok s0
    /\ exists s1 s2 dv al be,
         general_slit_optimiser 60 (3.3 / 100) 1 120 2859 = Ok (s1, s2)
         /\ general_div s1 s2 2859 = Ok (dv, al, be)
         /\ exists c d loc scale,
              ReflectSimulator.angular_dist s0 = trapz c d loc scale
              /\ loc == - al /\ loc + scale == al
              /\ (~ al == 0 ->
                  exists cv dv',
                    c = Some cv /\ d = Some dv' /\ cv + dv' == 1)
              /\ (al == 0 -> c = None /\ d = None).
Proof.
  eexists. split.
  - vm_compute. reflexivity.
  - apply (angular_distribution_centred Scenario.coarse).
    vm_compute. reflexivity.
Defined.

(** The cumulative function of the flat table is the line [u / 3]. *)
Lemma flat_cdf_line :
  exists sd,
    SpectrumDist.__init__ Scenario.table_wavelengths Scenario.flat_intensities
    = Ok sd
    /\ SpectrumDist.a sd = 0 /\ SpectrumDist.b sd = 3
    /\ forall u, 0 <= u -> u <= 3 -> SpectrumDist.cdf sd u == u / 3.
Proof.
  destruct (scripted_spectrum 1 1 1 1)
    as (sd & Hsd & Ha & Hb & Hf & Hcdf & Hg & Hi).
  exists sd. split; [exact Hsd |].
  split; [exact Ha |]. split; [exact Hb |].
  intros u H0 H3. unfold SpectrumDist.cdf. rewrite Ha, Hb.
  destruct (Qle_bool 3 u) eqn:E3.
  - apply Qle_bool_iff in E3. assert (Hu : u == 3) by lra.
    rewrite Hu. reflexivity.
  - destruct (Qltb 0 u) eqn:E0.
    + rewrite Hcdf. unfold Scripted.integral, Scripted.cubic.
      assert (Harea : Scripted.simps [1; 1; 1; 1] Scenario.table_wavelengths
                      == 3) by (vm_compute; reflexivity).
      set (area := Scripted.simps [1; 1; 1; 1] Scenario.table_wavelengths)
        in *.
      field. lra.
    + apply Qltb_ge in E0. assert (Hu : u == 0) by lra.
      rewrite Hu. reflexivity.
Qed.

Lemma ppf_monotone_witness :
  exists sd,
    SpectrumDist.__init__ Scenario.table_wavelengths Scenario.flat_intensities
    = Ok sd
    /\ forall q q',
         q <= q' -> SpectrumDist._ppf sd q <= SpectrumDist._ppf sd q'.
Proof.
  destruct flat_cdf_line as (sd & Hsd & Ha & Hb & Hline).
  exists sd. split; [exact Hsd |].
  apply (ppf_monotone Scenario.table_wavelengths Scenario.flat_intensities
           sd Hsd).
  intros u v Hu Huv Hv. rewrite Ha in Hu. rewrite Hb in Hv.
  rewrite !Hline by lra. unfold Qdiv.
  apply Qmult_le_compat_r; [exact Huv | discriminate].
Defined.

Lemma resolution_kernel_shape_witness :
  exists s0,
    ReflectSimulator.__init__ Scenario.coarse = Ok s0
    /\ let s :=
         (ReflectSimulator.runs s0 Scenario.idle Scenario.two_calls).1 in
       resolution_kernel Bench.histogram s0
       = Raise (ValueError "zero-size array to reduction operation maximum which has no identity")
       /\ match resolution_kernel Bench.histogram s with
          | Raise e =>
              ReflectSimulator._res_kernel s = ∅
              /\ e = ValueError "zero-size array to reduction operation maximum which has no identity"
          | Ok rows =>
              ReflectSimulator._res_kernel s <> ∅
              /\ length rows
                 = (length (ReflectSimulator.wavelength_bins s0) - 1)%nat
              /\ (forall g',
                    length rows
                    = length (ReflectDataset.x
                                (ReflectSimulator.reflectivity s g').1))
              /\ exists max_bins,
                   forall row, row ∈ rows ->
                     length row.1 = max_bins /\ length row.2 = max_bins
          end.
Proof.
  eexists. split.
  - vm_compute. reflexivity.
  - apply (resolution_kernel_shape Bench.histogram Scenario.coarse _
             Scenario.idle Scenario.two_calls).
    vm_compute. reflexivity.
Defined.

Lemma resolution_kernel_rows_reversed_witness :
  exists s0,
    ReflectSimulator.__init__ Scenario.coarse = Ok s0
    /\ let s :=
         (ReflectSimulator.runs s0 Scenario.idle Scenario.two_calls).1 in
       let nbins :=
         (length (ReflectSimulator.wavelength_bins s0) - 1)%nat in
       exists rows,
         resolution_kernel Bench.histogram s = Ok rows
         /\ forall i row,
              rows !! i = Some row ->
              exists v,
                ReflectSimulator._res_kernel s !! (nbins - 1 - i)%nat
                = Some v
                /\ let histo := Bench.histogram v in
                   let x := bin_edges histo in
                   row.1
                   = (Some <$> zip_with (fun lo hi => 0.5 * (lo + hi))
                                 (removelast x) (tail x))
                     ++ replicate (length row.1 - length (density histo))
                          None
                   /\ row.2
                      = density histo
                        ++ replicate (length row.2 - length (density histo))
                             None.
Proof.
  eexists. split; [vm_compute; reflexivity |].
  cbv zeta.
  lazymatch goal with
  | |- exists rows, resolution_kernel _ ?s = Ok rows /\ _ =>
      destruct (resolution_kernel_returns Bench.histogram s 0%nat)
        as [rows Hrows]
  end.
  { eexists. vm_compute. reflexivity. }
  exists rows. split; [exact Hrows |].
  apply (resolution_kernel_rows_reversed Bench.histogram Scenario.coarse _
           Scenario.idle Scenario.two_calls rows).
  - vm_compute. reflexivity.
  - exact Hrows.
Defined.

(** ** Edge cases *)

Section edge_cases.
Context `{Collaborators}.
Import ReflectSimulator.

(** X17. A call for zero samples is not a no-op: on a constructed
    simulator it returns and leaves every direct-beam and reflected-beam
    count as it was, but unless the kernel is already full it leaves a
    store for every wavelength bin, created empty where there was none
    and otherwise holding the old momentum transfers cast to [float32]
    again. *)
Theorem run_of_no_samples (p : args) (s0 : t) g (calls : list call)
    rs g1 s' g' :
  __init__ p = Ok s0 ->
  let s := (runs s0 g calls).1 in
  run s 0 rs g1 = Ok (s', g') ->
  direct_beam s' = direct_beam s
  /\ reflected_beam s' = reflected_beam s
  /\ (kernel_full (_res_kernel s) = false ->
      forall j,
        (j < length (wavelength_bins s) - 1)%nat ->
        _res_kernel s' !! j
        = Some (float32 <$> default [] (_res_kernel s !! j))).
Proof.
  intros Hinit s Hrun.
  destruct (init_aligned p s0 Hinit) as [Hal0 _].
  pose proof (runs_aligned calls s0 g Hal0) as (_ & Ld & Lr).
  fold s in Ld, Lr. cbv zeta in Ld, Lr.
  apply run_Ok in Hrun as (bm & Hbm & hd & hr & Ehd & Ehr & Ed & Er & Ek & _).
  destruct (sample_lengths s 0 _ bm Hbm) as (_ & Lq & _ & _ & _ & Lj).
  apply nil_length_inv in Lq, Lj. rewrite Lj in Ehd, Ehr, Ek.
  rewrite Lq in Ek. cbn [np.mask] in Ehr.
  pose proof (length_histogram _ _ _ Ehd) as Lhd.
  pose proof (length_histogram _ _ _ Ehr) as Lhr.
  apply histogram_of_nothing in Ehd, Ehr.
  split; [rewrite Ed; apply zip_add_zero; [congruence | exact Ehd] |].
  split; [rewrite Er; apply zip_add_zero; [congruence | exact Ehr] |].
  intros Hfull j Hj. rewrite Ek, Hfull, update_kernel_lookup.
  destruct (decide (j < length (wavelength_bins s) - 1)%nat);
    [| contradiction].
  cbn [np.mask]. now rewrite app_nil_r.
Qed.

(** X18. The quantile table that the constructor of a spectrum
    distribution precomputes: 1000 wavelengths and 1000 cumulative
    values; the wavelengths start at the smallest and end at the largest
    wavelength of the spectrum; the last cumulative value is exactly one,
    and the first is exactly zero when the spectrum spans more than one
    wavelength. *)
Theorem quantile_table_shape (x y : list Q) (sd : SpectrumDist.t) :
  SpectrumDist.__init__ x y = Ok sd ->
  length (SpectrumDist._x_interpolated_cdf sd) = 1000%nat
  /\ length (SpectrumDist._interpolated_cdf sd) = 1000%nat
  /\ (exists g0, head (SpectrumDist._x_interpolated_cdf sd) = Some g0
                 /\ g0 == SpectrumDist.a sd)
  /\ last (SpectrumDist._x_interpolated_cdf sd) = Some (SpectrumDist.b sd)
  /\ last (SpectrumDist._interpolated_cdf sd) = Some 1
  /\ (SpectrumDist.a sd < SpectrumDist.b sd ->
      head (SpectrumDist._interpolated_cdf sd) = Some 0).
Proof.
  intros Hinit.
  destruct (spectrum_init x y sd Hinit)
    as (_ & _ & Hab & _ & _ & Hgrid & Hicdf).
  rewrite Hgrid, Hicdf.
  rewrite (linspace_unfold (SpectrumDist.a sd) (SpectrumDist.b sd) 998).
  set (lo := SpectrumDist.a sd) in *. set (hi := SpectrumDist.b sd) in *.
  set (step := (hi - lo) / inject_Z (Z.of_nat 999)).
  set (g0 := inject_Z 0 * step + lo).
  assert (Hg0 : g0 == lo) by (unfold g0; change (inject_Z 0) with 0; ring).
  set (mid := (fun i : nat => inject_Z (Z.of_nat i) * step + lo)
                <$> seq 1 998).
  assert (Lmid : length mid = 998%nat)
    by (unfold mid; now rewrite length_fmap, length_seq).
  split; [rewrite length_cons, length_app, Lmid; reflexivity |].
  split; [rewrite length_fmap, length_cons, length_app, Lmid; reflexivity |].
  split; [exists g0; split; [reflexivity | exact Hg0] |].
  split; [now rewrite last_cons, last_snoc |].
  split.
  - rewrite fmap_cons, fmap_app, last_cons. cbn [fmap list_fmap].
    rewrite last_snoc. unfold SpectrumDist.cdf. fold hi.
    assert (E : Qle_bool hi hi = true) by (apply Qle_bool_iff; lra).
    now rewrite E.
  - intros Hlt. rewrite fmap_cons. cbn [head]. f_equal.
    unfold SpectrumDist.cdf. fold lo hi.
    assert (E1 : Qle_bool hi g0 = false) by (apply Qle_bool_gt; lra).
    assert (E2 : Qltb lo g0 = false) by (apply Qltb_ge; lra).
    now rewrite E1, E2.
Qed.

End edge_cases.

Lemma run_of_no_samples_witness :
  exists s0 s' g',
    ReflectSimulator.__init__ Scenario.coarse = Ok s0
    /\ ReflectSimulator.run s0 0 rs_None Scenario.idle = Ok (s', g')
    /\ ReflectSimulator.direct_beam s' = ReflectSimulator.direct_beam s0
    /\ ReflectSimulator.reflected_beam s'
       = ReflectSimulator.reflected_beam s0
    /\ (ReflectSimulator.kernel_full (ReflectSimulator._res_kernel s0)
        = false ->
        forall j,
          (j < length (ReflectSimulator.wavelength_bins s0) - 1)%nat ->
          ReflectSimulator._res_kernel s' !! j
          = Some (float32
                    <$> default [] (ReflectSimulator._res_kernel s0 !! j))).
Proof.
  eexists. eexists. eexists. split; [vm_compute; reflexivity |].
  split; [vm_compute; reflexivity |].
  eapply (run_of_no_samples Scenario.coarse) with
    (g := Scenario.idle) (calls := []) (rs := rs_None)
    (g1 := Scenario.idle);
    vm_compute; reflexivity.
Defined.

Lemma quantile_table_shape_witness :
  exists sd,
    SpectrumDist.__init__ Scenario.table_wavelengths
      Scenario.peaked_intensities = Ok sd
    /\ length (SpectrumDist._x_interpolated_cdf sd) = 1000%nat
    /\ length (SpectrumDist._interpolated_cdf sd) = 1000%nat
    /\ (exists g0, head (SpectrumDist._x_interpolated_cdf sd) = Some g0
                   /\ g0 == SpectrumDist.a sd)
    /\ last (SpectrumDist._x_interpolated_cdf sd)
       = Some (SpectrumDist.b sd)
    /\ last (SpectrumDist._interpolated_cdf sd) = Some 1
    /\ (SpectrumDist.a sd < SpectrumDist.b sd ->
        head (SpectrumDist._interpolated_cdf sd) = Some 0).
Proof.
  destruct (scripted_spectrum 0 0 1 0) as (sd & Hsd & _).
  exists sd. split; [exact Hsd |].
  apply (quantile_table_shape Scenario.table_wavelengths
           Scenario.peaked_intensities sd Hsd).
Defined.
